(** * Facebook group post scraper: temporal normaliser and post extractor

    A shallow embedding of [src/extractors/utils_datetime.py] and of the
    extraction core of [src/extractors/facebook_group_parser.py], together
    with the properties the design document states about them.

    Conventions of the embedding.
    - A Python [str] is a Rocq [string]; its characters stand for the code
      points U+0000..U+00FF (whitespace, digits and case mapping follow
      Python's tables on that range).
    - A Python [int] is a [Z].
    - A Python [float] is a [pyfloat] (binary64 with round-half-even), with
      the arithmetic written out on [Z].
    - A computation that may read the system clock and may raise is a value
      of the monad [M]: it takes the number of clock readings made so far and
      returns an [outcome] and the new count.  The clock itself is a function
      from the index of a reading to the instant read, in microseconds since
      the Unix epoch. *)

From stdpp Require Import gmap strings list.
From Stdlib Require Import ZArith Lia Ascii String.

Local Open Scope string_scope.
Local Open Scope list_scope.
Local Open Scope Z_scope.

(** ** Characters and strings (Python [str]) *)

Module Str.

Definition code (c : ascii) : Z := Z.of_N (N_of_ascii c).

(** [\d] of [re] and the digits accepted by [int()] and [float()]. *)
Definition is_digit (c : ascii) : bool :=
  (48 <=? code c) && (code c <=? 57).

Definition digit_value (c : ascii) : Z := code c - 48.

(** [str.isspace] on one character; also [\s] of [re]. *)
Definition is_space (c : ascii) : bool :=
  ((9 <=? code c) && (code c <=? 13))
  || ((28 <=? code c) && (code c <=? 32))
  || (code c =? 133) || (code c =? 160).

(** [str.lower] on one character. *)
Definition lower_char (c : ascii) : ascii :=
  if ((65 <=? code c) && (code c <=? 90))
     || ((192 <=? code c) && (code c <=? 222) && negb (code c =? 215))
  then ascii_of_N (N_of_ascii c + 32)
  else c.

Fixpoint lower (s : string) : string :=
  match s with
  | EmptyString => EmptyString
  | String c s' => String (lower_char c) (lower s')
  end.

Fixpoint forallb (p : ascii -> bool) (s : string) : bool :=
  match s with
  | EmptyString => true
  | String c s' => p c && forallb p s'
  end.

(** [s.lstrip(chars)] for the set of characters recognised by [p]. *)
Fixpoint lstrip_by (p : ascii -> bool) (s : string) : string :=
  match s with
  | EmptyString => EmptyString
  | String c s' => if p c then lstrip_by p s' else s
  end.

(** [s.rstrip(chars)]. *)
Fixpoint rstrip_by (p : ascii -> bool) (s : string) : string :=
  match s with
  | EmptyString => EmptyString
  | String c s' =>
      match rstrip_by p s' with
      | EmptyString => if p c then EmptyString else String c EmptyString
      | r => String c r
      end
  end.

(** [s.strip()]. *)
Definition strip (s : string) : string := rstrip_by is_space (lstrip_by is_space s).

(** [s.startswith(p)]. *)
Definition startswith (p s : string) : bool := String.prefix p s.

(** [sub in s]. *)
Fixpoint contains (sub s : string) : bool :=
  String.prefix sub s ||
  match s with
  | EmptyString => false
  | String _ s' => contains sub s'
  end.

(** [s.split(sep)] for a non-empty [sep]: the pieces between the
    occurrences of [sep], found from left to right without overlap.  [skip]
    counts the characters of a separator still to be passed over and [cur]
    is the piece being read, reversed. *)
Fixpoint split_aux (sep : string) (skip : nat) (cur : list ascii) (s : string)
  : list string :=
  match s with
  | EmptyString => [string_of_list_ascii (rev cur)]
  | String c s' =>
      match skip with
      | S k => split_aux sep k cur s'
      | O =>
          if String.prefix sep s
          then string_of_list_ascii (rev cur)
               :: split_aux sep (Nat.pred (String.length sep)) [] s'
          else split_aux sep O (c :: cur) s'
      end
  end.

Definition split (sep s : string) : list string := split_aux sep O [] s.

(** [s.split()]: the maximal runs of non-whitespace characters.  [cur] is
    the run being read, reversed. *)
Fixpoint split_ws_aux (cur : list ascii) (s : string) : list string :=
  let flush := match cur with
               | [] => []
               | _ => [string_of_list_ascii (rev cur)]
               end in
  match s with
  | EmptyString => flush
  | String c s' =>
      if is_space c then flush ++ split_ws_aux [] s'
      else split_ws_aux (c :: cur) s'
  end.

Definition split_ws (s : string) : list string := split_ws_aux [] s.

(** [s.replace(c, "")] for a single character [c]. *)
Fixpoint remove_char (c : ascii) (s : string) : string :=
  match s with
  | EmptyString => EmptyString
  | String d s' => if Ascii.eqb c d then remove_char c s' else String d (remove_char c s')
  end.

(** [sep.join(l)]. *)
Fixpoint join (sep : string) (l : list string) : string :=
  match l with
  | [] => EmptyString
  | [x] => x
  | x :: l' => x +:+ sep +:+ join sep l'
  end.

(** The value of a run of decimal digits, most significant first. *)
Fixpoint digits_value_from (acc : Z) (s : string) : Z :=
  match s with
  | EmptyString => acc
  | String c s' => digits_value_from (10 * acc + digit_value c) s'
  end.

Definition digits_value (s : string) : Z := digits_value_from 0 s.

End Str.

(** ** Outcomes, exceptions and the clock monad *)

(** The exception classes the modelled code meets.  All of them derive from
    Python's [Exception]; [OtherException] stands for any further such class
    raised by library code. *)
Inductive exn : Type :=
  | ValueError
  | OverflowError
  | OtherException (cls : string).

Inductive outcome (A : Type) : Type :=
  | Ok (a : A)
  | Raise (e : exn).
Arguments Ok {A} a.
Arguments Raise {A} e.

(** A computation: from the number of clock readings made so far to an
    outcome and the number made afterwards. *)
Definition M (A : Type) : Type := nat -> outcome A * nat.

Definition ret {A} (a : A) : M A := fun k => (Ok a, k).

Definition raise {A} (e : exn) : M A := fun k => (Raise e, k).

Definition bind {A B} (c : M A) (f : A -> M B) : M B :=
  fun k => match c k with
           | (Ok a, k') => f a k'
           | (Raise e, k') => (Raise e, k')
           end.

(** [try: c except ...: h]; the handler decides which exceptions it takes
    by re-raising the others. *)
Definition try_except {A} (c : M A) (h : exn -> M A) : M A :=
  fun k => match c k with
           | (Ok a, k') => (Ok a, k')
           | (Raise e, k') => h e k'
           end.

Definition lift {A} (o : outcome A) : M A := fun k => (o, k).

Notation "'do' x <- c1 ;; c2" := (bind c1 (fun x => c2))
  (at level 10, x name, c1 at level 99, c2 at level 200).
Notation "'do' ' pat <- c1 ;; c2" :=
  (bind c1 (fun x => match x with pat => c2 end))
  (at level 10, pat pattern, c1 at level 99, c2 at level 200).

(** ** Python [int()] and [float()] *)

Module Num.

(** A digit part: decimal digits, single underscores allowed between two
    digits.  Returns the digits without the underscores. *)
Fixpoint digitpart_aux (after_digit : bool) (s : string) : option string :=
  match s with
  | EmptyString => if after_digit then Some EmptyString else None
  | String c s' =>
      if Str.is_digit c then
        match digitpart_aux true s' with
        | Some r => Some (String c r)
        | None => None
        end
      else if Ascii.eqb c "_" then
        if after_digit then digitpart_aux false s' else None
      else None
  end.

Definition digitpart (s : string) : option string := digitpart_aux false s.

(** An optional sign: [true] for a minus. *)
Definition split_sign (s : string) : bool * string :=
  match s with
  | String "-" s' => (true, s')
  | String "+" s' => (false, s')
  | _ => (false, s)
  end.

(** [sys.int_info.default_max_str_digits]: the longest run of digits
    [int()] converts. *)
Definition MAX_STR_DIGITS : nat := 4300.

(** [int(s)] in base ten: surrounding whitespace, an optional sign and a
    digit part of at most [MAX_STR_DIGITS] digits; anything else is a
    [ValueError]. *)
Definition int_of_str (s : string) : outcome Z :=
  let '(neg, body) := split_sign (Str.strip s) in
  match digitpart body with
  | Some ds =>
      if (MAX_STR_DIGITS <? String.length ds)%nat then Raise ValueError
      else Ok (if neg then - Str.digits_value ds else Str.digits_value ds)
  | None => Raise ValueError
  end.

(** A binary64 value: not-a-number, an infinity, or [(-1)^neg * m * 2^e]
    with [0 <= m]. *)
Inductive pyfloat : Type :=
  | Fnan
  | Finf (neg : bool)
  | Ffinite (neg : bool) (m : Z) (e : Z).

(** The rational [p / q] with its denominator scaled by [2^e]. *)
Definition scaled (p q e : Z) : Z * Z :=
  if 0 <=? e then (p, q * 2 ^ e) else (p * 2 ^ (- e), q).

(** The exponent that leaves the quotient of [p / q] a significand of 53
    bits, not below the subnormal exponent -1074. *)
Definition exponent_for (p q : Z) : Z :=
  let e0 := Z.max (Z.log2 p - Z.log2 q - 52) (-1074) in
  if (fst (scaled p q e0) / snd (scaled p q e0) <? 2 ^ 52) && (-1074 <? e0)
  then e0 - 1 else e0.

(** The binary64 nearest to the rational [p / q] ([0 <= p], [0 < q]),
    ties to the even significand: the significand is the quotient at
    [exponent_for p q], moved up by one when the remainder says so; a
    result of magnitude [2^1024] or more is an infinity. *)
Definition round_b64 (neg : bool) (p q : Z) : pyfloat :=
  if p =? 0 then Ffinite neg 0 0 else
  let e := exponent_for p q in
  let '(n, d) := scaled p q e in
  let m := n / d in
  let r := n mod d in
  let m' := if (d <? 2 * r) || ((d =? 2 * r) && Z.odd m) then m + 1 else m in
  if 1024 <=? Z.log2 m' + e then Finf neg else Ffinite neg m' e.

(** Integer true division [a / b] of Python ints, for [0 < b]. *)
Definition int_truediv (a b : Z) : pyfloat :=
  round_b64 (a <? 0) (Z.abs a) b.

(** [x * n] for a float [x] and a positive whole float [n]. *)
Definition fmul_pos (x : pyfloat) (n : Z) : pyfloat :=
  match x with
  | Fnan => Fnan
  | Finf s => Finf s
  | Ffinite s m e =>
      if 0 <=? e then round_b64 s (m * n * 2 ^ e) 1
      else round_b64 s (m * n) (2 ^ (- e))
  end.

(** [int(x)]: truncation towards zero; an infinity is an [OverflowError], a
    not-a-number a [ValueError]. *)
Definition int_of_float (x : pyfloat) : outcome Z :=
  match x with
  | Fnan => Raise ValueError
  | Finf _ => Raise OverflowError
  | Ffinite s m e =>
      let a := if 0 <=? e then m * 2 ^ e else m / 2 ^ (- e) in
      Ok (if s then - a else a)
  end.

(** The parts of [s] before and after the first [c]. *)
Fixpoint split_at_char (c : ascii) (s : string) : option (string * string) :=
  match s with
  | EmptyString => None
  | String d s' =>
      if Ascii.eqb c d then Some (EmptyString, s')
      else match split_at_char c s' with
           | Some (a, b) => Some (String d a, b)
           | None => None
           end
  end.

(** The decimal literal of [float()]: [digits [. [digits]] | . digits],
    then an optional exponent [e [sign] digits].  Returns the digits of
    the significand with the point removed and the power of ten. *)
Definition decimal_literal (s : string) : option (string * Z) :=
  let '(mant, exp) :=
    match split_at_char "e" s with
    | Some (m, x) =>
        let '(neg, xd) := split_sign x in
        (m, match digitpart xd with
            | Some ds => Some (if neg then - Str.digits_value ds else Str.digits_value ds)
            | None => None
            end)
    | None => (s, Some 0)
    end in
  match exp with
  | None => None
  | Some x =>
      match split_at_char "." mant with
      | None =>
          match digitpart mant with
          | Some ds => Some (ds, x)
          | None => None
          end
      | Some (ip, fp) =>
          match ip, fp with
          | EmptyString, EmptyString => None
          | EmptyString, _ =>
              match digitpart fp with
              | Some fd => Some (fd, x - Z.of_nat (String.length fd))
              | None => None
              end
          | _, EmptyString =>
              match digitpart ip with
              | Some id => Some (id, x)
              | None => None
              end
          | _, _ =>
              match digitpart ip, digitpart fp with
              | Some id, Some fd => Some (id +:+ fd, x - Z.of_nat (String.length fd))
              | _, _ => None
              end
          end
      end
  end.

(** [float(s)] for a lower-case [s]: surrounding whitespace, an optional
    sign, then [inf], [infinity], [nan] or a decimal literal, converted with
    correct rounding; anything else is a [ValueError]. *)
Definition float_of_str (s : string) : outcome pyfloat :=
  let '(neg, body) := split_sign (Str.strip s) in
  if String.eqb body "inf" || String.eqb body "infinity" then Ok (Finf neg)
  else if String.eqb body "nan" then Ok Fnan
  else match decimal_literal body with
       | Some (ds, x) =>
           let d := Str.digits_value ds in
           Ok (if 0 <=? x then round_b64 neg (d * 10 ^ x) 1
               else round_b64 neg d (10 ^ (- x)))
       | None => Raise ValueError
       end.

End Num.

(** ** Python [datetime] and [timedelta] *)

Module DateTime.

Definition US_PER_SECOND : Z := 1000000.
Definition US_PER_DAY : Z := 86400 * US_PER_SECOND.

(** [datetime.min] and [datetime.max] (years 1 and 9999), in microseconds
    from 1970-01-01T00:00:00. *)
Definition MIN_US : Z := -62135596800 * US_PER_SECOND.
Definition MAX_US : Z := 253402300800 * US_PER_SECOND - 1.

(** [timedelta.max.days]. *)
Definition MAX_DELTA_DAYS : Z := 999999999.

(** A [datetime]: its calendar fields as microseconds from
    1970-01-01T00:00:00 on its own wall clock, and the offset of its
    [tzinfo] from UTC ([None] for a naive value). *)
Record datetime : Type := mk_datetime {
  wall_us : Z;
  utcoffset_us : option Z
}.

(** [timedelta(<unit>=amount)] for a unit of [unit_seconds] seconds, as a
    number of microseconds: an [OverflowError] when the number of days
    leaves the range of [timedelta]. *)
Definition timedelta (unit_seconds amount : Z) : outcome Z :=
  let us := amount * unit_seconds * US_PER_SECOND in
  if (us / US_PER_DAY <? - MAX_DELTA_DAYS) || (MAX_DELTA_DAYS <? us / US_PER_DAY)
  then Raise OverflowError
  else Ok us.

(** [dt - delta]: an [OverflowError] when the result leaves the years
    1..9999. *)
Definition sub_timedelta (dt : datetime) (delta : Z) : outcome datetime :=
  let w := wall_us dt - delta in
  if (w <? MIN_US) || (MAX_US <? w) then Raise OverflowError
  else Ok (mk_datetime w (utcoffset_us dt)).

(** [dt.replace(tzinfo=timezone.utc)]. *)
Definition replace_tzinfo_utc (dt : datetime) : datetime :=
  mk_datetime (wall_us dt) (Some 0).

(** [dt.timestamp()] of an aware [dt]: the microseconds between [dt] and
    the epoch, divided by [10**6] as a float. *)
Definition timestamp (dt : datetime) : Num.pyfloat :=
  Num.int_truediv (wall_us dt - default 0 (utcoffset_us dt)) US_PER_SECOND.

End DateTime.

(** ** The two patterns of the normaliser ([re]) *)

Module Re.

(** [re.fullmatch(r"\d{9,12}", s)]. *)
Definition fullmatch_digits_9_12 (s : string) : bool :=
  Str.forallb Str.is_digit s
  && (9 <=? String.length s)%nat && (String.length s <=? 12)%nat.

(** The alternatives of the unit group, in the order of the pattern. *)
Definition unit_alternatives : list string :=
  [ "s"; "sec"; "secs"; "second"; "seconds";
    "m"; "min"; "mins"; "minute"; "minutes";
    "h"; "hr"; "hrs"; "hour"; "hours";
    "d"; "day"; "days";
    "w"; "week"; "weeks" ].

(** An alternation at the end of a pattern: the first alternative that
    matches at the start of [s]. *)
Fixpoint first_alternative (alts : list string) (s : string) : option string :=
  match alts with
  | [] => None
  | a :: alts' => if String.prefix a s then Some a else first_alternative alts' s
  end.

(** [\s*(s|sec|...)] at the start of [s]: the longest run of whitespace is
    tried first, then shorter ones. *)
Fixpoint spaces_then_unit (s : string) : option string :=
  match s with
  | String c s' =>
      if Str.is_space c then
        match spaces_then_unit s' with
        | Some u => Some u
        | None => first_alternative unit_alternatives s
        end
      else first_alternative unit_alternatives s
  | EmptyString => first_alternative unit_alternatives s
  end.

(** [(\d+)\s*(s|sec|...)] at the start of [s]: the longest run of digits is
    tried first, then shorter ones.  Returns the two groups. *)
Fixpoint match_relative (s : string) : option (string * string) :=
  match s with
  | String c s' =>
      if Str.is_digit c then
        match match_relative s' with
        | Some (ds, u) => Some (String c ds, u)
        | None =>
            match spaces_then_unit s' with
            | Some u => Some (String c EmptyString, u)
            | None => None
            end
        end
      else None
  | EmptyString => None
  end.

(** [re.search] with that pattern: the match at the leftmost position that
    has one. *)
Fixpoint search_relative (s : string) : option (string * string) :=
  match match_relative s with
  | Some g => Some g
  | None =>
      match s with
      | EmptyString => None
      | String _ s' => search_relative s'
      end
  end.

End Re.

(** ** [utils_datetime.py] *)

Section Normalizer.

(** The system clock: the instant of the [k]-th reading, in microseconds
    since the epoch. *)
Variable clock : nat -> Z.

(** [dateutil.parser.parse]: given the instant it reads for its default
    date and the string, a [datetime] or an exception. *)
Variable dateutil_parse : Z -> string -> outcome DateTime.datetime.

Definition read_clock : M Z := fun k => (Ok (clock k), S k).

(** [time.time()]. *)
Definition time_time : M Num.pyfloat :=
  do t <- read_clock ;; ret (Num.int_truediv t DateTime.US_PER_SECOND).

(** [datetime.now(timezone.utc)]. *)
Definition datetime_now_utc : M DateTime.datetime :=
  do t <- read_clock ;; ret (DateTime.mk_datetime t (Some 0)).

(** One branch of the cascade: [Some ts] when the branch returns [ts],
    [None] when control reaches the next branch. *)
Definition or_else (b1 b2 : M (option Z)) : M (option Z) :=
  do r <- b1 ;;
  match r with
  | Some ts => ret (Some ts)
  | None => b2
  end.

(** [if text == "now": return int(time.time())]. *)
Definition branch_now (text : string) : M (option Z) :=
  if String.eqb text "now"
  then do t <- time_time ;; do n <- lift (Num.int_of_float t) ;; ret (Some n)
  else ret None.

(** The epoch branch: [int(text)] under [try ... except ValueError: pass],
    divided by 1000 when it is above 10_000_000_000. *)
Definition branch_epoch (text : string) : M (option Z) :=
  if Re.fullmatch_digits_9_12 text
  then try_except
         (do ts <- lift (Num.int_of_str text) ;;
          ret (Some (if 10000000000 <? ts then ts / 1000 else ts)))
         (fun e => match e with
                   | ValueError => ret None
                   | _ => raise e
                   end)
  else ret None.

(** The relative branch: the amount and the unit of the leftmost match,
    the [timedelta] chosen by the first letter of the unit, and
    [int((datetime.now(timezone.utc) - delta).timestamp())].  Nothing here
    is under a [try]. *)
Definition branch_relative (text : string) : M (option Z) :=
  match Re.search_relative text with
  | Some (g1, unit) =>
      do amount <- lift (Num.int_of_str g1) ;;
      do delta <-
        (if Str.startswith "s" unit
         then do d <- lift (DateTime.timedelta 1 amount) ;; ret (Some d)
         else if Str.startswith "m" unit
         then do d <- lift (DateTime.timedelta 60 amount) ;; ret (Some d)
         else if Str.startswith "h" unit
         then do d <- lift (DateTime.timedelta 3600 amount) ;; ret (Some d)
         else if Str.startswith "d" unit
         then do d <- lift (DateTime.timedelta 86400 amount) ;; ret (Some d)
         else if Str.startswith "w" unit
         then do d <- lift (DateTime.timedelta 604800 amount) ;; ret (Some d)
         else ret None) ;;
      match delta with
      | Some d =>
          do now <- datetime_now_utc ;;
          do dt <- lift (DateTime.sub_timedelta now d) ;;
          do n <- lift (Num.int_of_float (DateTime.timestamp dt)) ;;
          ret (Some n)
      | None => ret None
      end
  | None => ret None
  end.

(** The last branch: [dateutil_parser.parse(raw)], made aware in UTC when
    it is naive, under [try ... except (ValueError, OverflowError): pass]. *)
Definition branch_dateutil (raw : string) : M (option Z) :=
  try_except
    (do t <- read_clock ;;
     do dt <- lift (dateutil_parse t raw) ;;
     let dt := match DateTime.utcoffset_us dt with
               | None => DateTime.replace_tzinfo_utc dt
               | Some _ => dt
               end in
     do n <- lift (Num.int_of_float (DateTime.timestamp dt)) ;;
     ret (Some n))
    (fun e => match e with
              | ValueError | OverflowError => ret None
              | _ => raise e
              end).

(** [parse_facebook_datetime(raw)]; [raw] is [None] for Python's [None]. *)
Definition parse_facebook_datetime (raw : option string) : M (option Z) :=
  match raw with
  | None | Some EmptyString => ret None
  | Some raw =>
      let text := Str.lower (Str.strip raw) in
      or_else (branch_now text)
        (or_else (branch_epoch text)
           (or_else (branch_relative text)
              (branch_dateutil raw)))
  end.

End Normalizer.


(** ** The parsed document ([bs4]) *)

Module Bs4.

(** A node of the parse tree: a string of text, a string of another class
    (a comment, a declaration, the content of a [script] or [style]
    element), or a tag with its name, its attributes and its children in
    document order.  [get_text] and [.text] read the strings of text only;
    [.descendants] and [.string] see the others too. *)
#[warnings="-register-all"] Inductive node : Type :=
  | NavigableString (s : string)
  | OtherString (s : string)
  | Tag (name : string) (attrs : gmap string string) (contents : list node).

(** [tag.descendants]: every node below [n], in document order. *)
Fixpoint descendants (n : node) : list node :=
  match n with
  | NavigableString _ | OtherString _ => []
  | Tag _ _ cs => flat_map (fun c => c :: descendants c) cs
  end.

(** [tag.get(key)]. *)
Definition get (n : node) (key : string) : option string :=
  match n with
  | NavigableString _ | OtherString _ => None
  | Tag _ attrs _ => attrs !! key
  end.

Definition has_name (names : list string) (n : node) : bool :=
  match n with
  | NavigableString _ | OtherString _ => false
  | Tag name _ _ => bool_decide (name ∈ names)
  end.

(** [tag.find_all(names)] restricted by a test on the tag: the matching
    tags below [n], in document order. *)
Definition find_all (names : list string) (test : node -> bool) (n : node)
  : list node :=
  filter (fun d => has_name names d && test d) (descendants n).

(** [tag.find(...)]: the first match. *)
Definition find (names : list string) (test : node -> bool) (n : node)
  : option node :=
  head (find_all names test n).

Definition any_tag (n : node) : bool := true.

(** [href=True]: the attribute is present. *)
Definition has_attr (key : string) (n : node) : bool :=
  bool_decide (is_Some (get n key)).

(** [attrs={key: value}]. *)
Definition attr_is (key value : string) (n : node) : bool :=
  bool_decide (get n key = Some value).

(** The strings of text below [n], in document order. *)
Definition all_strings (n : node) : list string :=
  omap (fun d => match d with
                 | NavigableString s => Some s
                 | OtherString _ | Tag _ _ _ => None
                 end)
       (match n with
        | NavigableString _ | OtherString _ => [n]
        | Tag _ _ _ => descendants n
        end).

(** [tag.get_text(separator, strip=True)]: the stripped strings that are
    not empty, joined. *)
Definition get_text_strip (separator : string) (n : node) : string :=
  Str.join separator
    (filter (fun s => negb (String.eqb s EmptyString))
       (map Str.strip (all_strings n))).

(** [tag.text]. *)
Definition text (n : node) : string := Str.join EmptyString (all_strings n).

(** [tag.string]: the string of a tag whose only content, possibly
    through a chain of only children, is one string, of text or not; a tag
    that holds a text and a comment has none. *)
Fixpoint string_of (n : node) : option string :=
  match n with
  | NavigableString s | OtherString s => Some s
  | Tag _ _ [c] => string_of c
  | Tag _ _ _ => None
  end.

(** The values of the [class] attribute. *)
Definition classes (n : node) : list string :=
  match get n "class" with
  | Some v => Str.split_ws v
  | None => []
  end.

End Bs4.

(** ** [facebook_group_parser.py] *)

(** The value of the ["user"] and ["author"] entries. *)
Record User : Type := mk_user {
  user_id : string;
  user_name : string;
  user_url : string
}.

(** An entry of ["attachments"]: [{"type": "image", "url", "alt"}] or
    [{"type": "link", "url", "text"}]. *)
Inductive Attachment : Type :=
  | Image (url alt : string)
  | Link (url text : string).

(** [att.get("type")] and [att.get("url")]. *)
Definition att_type (att : Attachment) : string :=
  match att with
  | Image _ _ => "image"
  | Link _ _ => "link"
  end.

Definition att_url (att : Attachment) : string :=
  match att with
  | Image url _ => url
  | Link url _ => url
  end.

(** An entry of ["topComments"]. *)
Record Comment : Type := mk_comment {
  comment_text : string;
  comment_createdAt : Z;
  comment_author : User;
  comment_reactionCount : Z;
  comment_commentCount : Z
}.

Record FacebookPost : Type := mk_post {
  createdAt : Z;
  url : string;
  user : User;
  text : string;
  attachments : list Attachment;
  reactionCount : Z;
  shareCount : Z;
  commentCount : Z;
  topComments : list Comment
}.

(** Truthiness of an [Optional[str]] and of an [Optional[int]]. *)
Definition truthy_str (o : option string) : bool :=
  match o with
  | None | Some EmptyString => false
  | Some _ => true
  end.

Definition truthy_int (o : option Z) : bool :=
  match o with
  | None => false
  | Some n => negb (n =? 0)
  end.

(** [a or b] on [Optional[str]]. *)
Definition or_str (a b : option string) : option string :=
  if truthy_str a then a else b.

(** [_normalize_url]. *)
Definition _normalize_url (href : string) : string :=
  if Str.startswith "http://" href || Str.startswith "https://" href then href
  else if Str.startswith "/" href then "https://www.facebook.com" +:+ href
  else "https://www.facebook.com/"
       +:+ Str.lstrip_by (fun c => Ascii.eqb c "." || Ascii.eqb c "/") href.

(** [_extract_post_url]. *)
Definition _extract_post_url (div : Bs4.node) (group_url : string) : string :=
  let anchor :=
    Bs4.find ["a"]
      (fun a => Bs4.has_attr "href" a
                && match Bs4.string_of a with
                   | Some s => negb (String.eqb s EmptyString)
                               && negb (Str.contains "Comment" s)
                   | None => false
                   end) div in
  let preferred :=
    match anchor with
    | Some a =>
        if Str.contains "permalink" (default EmptyString (Bs4.get a "href"))
        then Some (_normalize_url (default EmptyString (Bs4.get a "href")))
        else None
    | None => None
    end in
  match preferred with
  | Some u => u
  | None =>
      match
        filter (fun href => Str.contains "/posts/" href
                            || Str.contains "/permalink/" href)
          (map (fun a => default EmptyString (Bs4.get a "href"))
             (Bs4.find_all ["a"] (Bs4.has_attr "href") div))
      with
      | href :: _ => _normalize_url href
      | [] => group_url
      end
  end.

(** [_extract_user]. *)
Definition _extract_user (div : Bs4.node) : User :=
  let author_link :=
    head (filter
            (fun a => (bool_decide (Bs4.get a "role" = Some "link")
                       || Bs4.has_attr "tabindex" a)
                      && negb (String.eqb (Str.strip (Bs4.text a)) EmptyString))
            (Bs4.find_all ["a"] (Bs4.has_attr "href") div)) in
  let '(name, profile_url) :=
    match author_link with
    | Some a => (Str.strip (Bs4.text a),
                 _normalize_url (default EmptyString (Bs4.get a "href")))
    | None => (EmptyString, EmptyString)
    end in
  let uid :=
    if Str.contains "facebook.com" profile_url then
      if Str.contains "profile.php?id=" profile_url
      then hd EmptyString
             (Str.split "&"
                (List.last (Str.split "profile.php?id=" profile_url) EmptyString))
      else List.last
             (Str.split "/" (Str.rstrip_by (fun c => Ascii.eqb c "/") profile_url))
             EmptyString
    else EmptyString in
  mk_user uid name profile_url.

(** [_extract_post_text]. *)
Definition _extract_post_text (div : Bs4.node) : string :=
  let candidates := Bs4.find_all ["div"; "span"] (Bs4.attr_is "dir" "auto") div in
  let texts := map (Bs4.get_text_strip " ") candidates in
  let joined := Str.join " " (filter (fun t => negb (String.eqb t EmptyString)) texts) in
  if negb (String.eqb joined EmptyString) then joined
  else Bs4.get_text_strip " " div.

(** The first loop of [_extract_attachments]: the images. *)
Definition image_attachments (div : Bs4.node) : list Attachment :=
  omap (fun img =>
          if truthy_str (Bs4.get img "src")
          then Some (Image (default EmptyString (Bs4.get img "src"))
                           (default EmptyString (Bs4.get img "alt")))
          else None)
       (Bs4.find_all ["img"] Bs4.any_tag div).

(** The second loop: the links. *)
Definition link_attachments (div : Bs4.node) : list Attachment :=
  omap (fun a =>
          let href := default EmptyString (Bs4.get a "href") in
          let text := Bs4.get_text_strip EmptyString a in
          if Str.contains "facebook.com" href && negb (Str.contains "groups" href)
          then None
          else if Str.contains "comment" (Str.lower href) then None
          else if String.eqb href EmptyString then None
          else Some (Link (_normalize_url href) text))
       (Bs4.find_all ["a"] (Bs4.has_attr "href") div).

(** The third loop: one step takes the set [seen] of keys and the list
    [unique_attachments] built so far. *)
Definition dedup_step (st : gset (string * string) * list Attachment)
    (att : Attachment) : gset (string * string) * list Attachment :=
  let key := (att_type att, att_url att) in
  if decide (key ∈ st.1) then st
  else ({[ key ]} ∪ st.1, (st.2 ++ [att])).

Definition deduplicate (atts : list Attachment) : list Attachment :=
  (foldl dedup_step (∅, []) atts).2.

(** [_extract_attachments]. *)
Definition _extract_attachments (div : Bs4.node) : list Attachment :=
  deduplicate (image_attachments div ++ link_attachments div).

(** [parse_count] of [_extract_engagement], on the text of the container. *)
Definition parse_count (text label : string) : outcome (option Z) :=
  let lowered := Str.lower text in
  if negb (Str.contains label lowered) then Ok None
  else
    match last (Str.split_ws (hd EmptyString (Str.split label lowered))) with
    | None => Ok None
    | Some tok =>
        let attempt :=
          if Str.contains "k" tok
          then match Num.float_of_str (Str.remove_char "k" tok) with
               | Ok x => Num.int_of_float (Num.fmul_pos x 1000)
               | Raise e => Raise e
               end
          else Num.int_of_str tok in
        match attempt with
        | Ok n => Ok (Some n)
        | Raise ValueError => Ok None
        | Raise e => Raise e
        end
    end.

(** [_extract_engagement]: reaction, comment and share counts. *)
Definition engagement_of_text (text : string) : outcome (Z * Z * Z) :=
  match parse_count text "reactions" with
  | Raise e => Raise e
  | Ok rc =>
      match parse_count text "comments" with
      | Raise e => Raise e
      | Ok cc =>
          match parse_count text "shares" with
          | Raise e => Raise e
          | Ok sc => Ok (default 0 rc, default 0 cc, default 0 sc)
          end
      end
  end.

Definition _extract_engagement (div : Bs4.node) : outcome (Z * Z * Z) :=
  engagement_of_text (Bs4.get_text_strip " " div).

Section Parser.

Variable clock : nat -> Z.
Variable dateutil_parse : Z -> string -> outcome DateTime.datetime.

(** [BeautifulSoup(html, "html.parser")]: the parse tree, or the
    exception raised on markup that the parser rejects. *)
Variable BeautifulSoup : string -> outcome Bs4.node.

(** [_extract_comments_from_json]; its body sits in [try ... except
    Exception] blocks around [json.loads]. *)
Variable _extract_comments_from_json : Bs4.node -> M (list Comment).

Local Abbreviation normalise := (parse_facebook_datetime clock dateutil_parse).

(** The loops of [_extract_created_at] over the candidate strings: the
    first truthy timestamp, if any. *)
Fixpoint first_timestamp (raws : list (option string)) : M (option Z) :=
  match raws with
  | [] => ret None
  | raw :: rest =>
      if negb (truthy_str raw) then first_timestamp rest
      else do ts <- normalise raw ;;
           if truthy_int ts then ret ts else first_timestamp rest
  end.

(** The strings an element offers, in the order they are tried. *)
Definition timestamp_attributes (el : Bs4.node) : list (option string) :=
  [ or_str (Bs4.get el "data-utime") (Bs4.get el "data-tooltip-content");
    Bs4.get el "datetime";
    Bs4.get el "title" ].

(** [_extract_created_at]. *)
Definition _extract_created_at (div : Bs4.node) : M Z :=
  do from_attrs <-
    first_timestamp
      (flat_map timestamp_attributes
         (Bs4.find_all ["abbr"; "span"; "a"] Bs4.any_tag div)) ;;
  match from_attrs with
  | Some ts => ret ts
  | None =>
      do ts <- normalise (Some (Bs4.get_text_strip " " div)) ;;
      if truthy_int ts then ret (default 0 ts)
      else do now <- normalise (Some "now") ;;
           ret (if truthy_int now then default 0 now else 0)
  end.

(** One turn of the loop of [_extract_top_comments]; an exception inside
    skips the comment. *)
Definition html_comment (cdiv : Bs4.node) : M (option Comment) :=
  try_except
    (let author_link := Bs4.find ["a"] (Bs4.has_attr "href") cdiv in
     let '(comment_author, comment_author_url) :=
       match author_link with
       | Some a =>
           if negb (String.eqb (Str.strip (Bs4.text a)) EmptyString)
           then (Str.strip (Bs4.text a),
                 _normalize_url (default EmptyString (Bs4.get a "href")))
           else (EmptyString, EmptyString)
       | None => (EmptyString, EmptyString)
       end in
     let comment_text := Bs4.get_text_strip " " cdiv in
     do ts <- normalise (Some comment_text) ;;
     let created_at := if truthy_int ts then default 0 ts else 0 in
     ret (Some (mk_comment comment_text created_at
                  (mk_user EmptyString comment_author comment_author_url) 0 0)))
    (fun _ => ret None).

Fixpoint html_comments (cdivs : list Bs4.node) : M (list Comment) :=
  match cdivs with
  | [] => ret []
  | cdiv :: rest =>
      do c <- html_comment cdiv ;;
      do cs <- html_comments rest ;;
      ret (match c with
           | Some c => c :: cs
           | None => cs
           end)
  end.

(** [_extract_top_comments]. *)
Definition _extract_top_comments (div : Bs4.node) : M (list Comment) :=
  do comments <-
    html_comments
      (Bs4.find_all ["div"]
         (fun d => match Bs4.get d "aria-label" with
                   | Some v => negb (String.eqb v EmptyString)
                               && Str.contains "Comment" v
                   | None => false
                   end) div) ;;
  match comments with
  | [] => do more <- _extract_comments_from_json div ;; ret (comments ++ more)
  | _ => ret comments
  end.

(** [_parse_single_post]. *)
Definition _parse_single_post (div : Bs4.node) (group_url : string)
  : M FacebookPost :=
  let url := _extract_post_url div group_url in
  let user := _extract_user div in
  let text := _extract_post_text div in
  let attachments := _extract_attachments div in
  do '(reaction_count, comment_count, share_count) <- lift (_extract_engagement div) ;;
  do created_at <- _extract_created_at div ;;
  do top_comments <- _extract_top_comments div ;;
  ret (mk_post created_at url user text attachments
         reaction_count share_count comment_count top_comments).

(** The containers of a document: the [div]s with [role="article"], or,
    when there is none, those selected by
    [div[aria-posinset], div.story_body_container]. *)
Definition article_divs (soup : Bs4.node) : list Bs4.node :=
  match Bs4.find_all ["div"] (Bs4.attr_is "role" "article") soup with
  | [] =>
      Bs4.find_all ["div"]
        (fun d => Bs4.has_attr "aria-posinset" d
                  || bool_decide ("story_body_container" ∈ Bs4.classes d)) soup
  | divs => divs
  end.

(** The loop of [parse_posts_from_html]: an exception while a post is
    built is logged and the loop goes on with the next container. *)
Fixpoint parse_posts (divs : list Bs4.node) (group_url : string)
    (posts : list FacebookPost) : M (list FacebookPost) :=
  match divs with
  | [] => ret posts
  | div :: rest =>
      do posts <-
        try_except
          (do post <- _parse_single_post div group_url ;; ret (posts ++ [post]))
          (fun _ => ret posts) ;;
      parse_posts rest group_url posts
  end.

(** [parse_posts_from_html]; the document is parsed outside the [try] of
    the loop. *)
Definition parse_posts_from_html (html group_url : string)
  : M (list FacebookPost) :=
  do soup <- lift (BeautifulSoup html) ;;
  parse_posts (article_divs soup) group_url [].

End Parser.

(** ** Vocabulary of the properties *)

(** The supported spellings of a unit with the unit's length in seconds. *)
Definition unit_table : list (string * Z) :=
  [ ("s", 1); ("sec", 1); ("secs", 1); ("second", 1); ("seconds", 1);
    ("m", 60); ("min", 60); ("mins", 60); ("minute", 60); ("minutes", 60);
    ("h", 3600); ("hr", 3600); ("hrs", 3600); ("hour", 3600); ("hours", 3600);
    ("d", 86400); ("day", 86400); ("days", 86400);
    ("w", 604800); ("week", 604800); ("weeks", 604800) ].

(** The relative-time property as the design document words it: whenever a
    token [<n><unit>], with [n] a positive integer and [unit] a supported
    spelling, occurs anywhere in the raw string, the normaliser returns a
    value within one second of the clock reading minus [n] units. *)
Definition relative_token_anywhere
    (clock : nat -> Z)
    (dateutil_parse : Z -> string -> outcome DateTime.datetime) : Prop :=
  forall (before digits unit after : string) (secs : Z) (k : nat),
    Str.forallb Str.is_digit digits = true ->
    0 < Str.digits_value digits ->
    In (unit, secs) unit_table ->
    exists v,
      parse_facebook_datetime clock dateutil_parse
        (Some (before +:+ digits +:+ unit +:+ after)) k = (Ok (Some v), S k)
      /\ Z.abs (v * 1000000
                - (clock k - Str.digits_value digits * secs * 1000000))
         <= 1000000.

(** The deduplication key of an attachment. *)
Definition att_key (att : Attachment) : string * string :=
  (att_type att, att_url att).

(** The attachments kept when the keys in [seen] are taken already: the
    third loop of [_extract_attachments] as a recursion on the input. *)
Fixpoint dedup_from (seen : gset (string * string)) (atts : list Attachment)
  : list Attachment :=
  match atts with
  | [] => []
  | att :: rest =>
      if decide (att_key att ∈ seen) then dedup_from seen rest
      else att :: dedup_from ({[ att_key att ]} ∪ seen) rest
  end.

(** [att] is in [atts] at an index before which no entry has its key. *)
Definition first_with_key (atts : list Attachment) (att : Attachment) : Prop :=
  exists i, atts !! i = Some att
            /\ forall j other, (j < i)%nat -> atts !! j = Some other ->
                               att_key other <> att_key att.

(** [att] is in [atts] at index [i], and no entry before has its key. *)
Definition first_at (atts : list Attachment) (i : nat) (att : Attachment) : Prop :=
  atts !! i = Some att
  /\ forall j other, (j < i)%nat -> atts !! j = Some other ->
                     att_key other <> att_key att.

(** The labels of the three engagement metrics. *)
Definition engagement_labels : list string := ["reactions"; "comments"; "shares"].

(** The value of one metric looked at on its own: what [parse_count] finds
    for its label, 0 when it finds nothing. *)
Definition count_alone (text label : string) : Z :=
  match parse_count text label with
  | Ok (Some n) => n
  | _ => 0
  end.

(** The token a metric is read from: the last word, in the lower-cased
    text, of what stands before the first occurrence of the label; none
    when the label does not occur or no word stands before it. *)
Definition token_before (text label : string) : option string :=
  if Str.contains label (Str.lower text)
  then last (Str.split_ws (hd EmptyString (Str.split label (Str.lower text))))
  else None.

(** What a token parses to: with a [k] in it, the float written by the
    token without its [k]s, times 1000, as an integer; otherwise the integer
    it writes.  A token that does not parse gives a [ValueError]. *)
Definition token_number (tok : string) : outcome Z :=
  if Str.contains "k" tok
  then match Num.float_of_str (Str.remove_char "k" tok) with
       | Ok x => Num.int_of_float (Num.fmul_pos x 1000)
       | Raise e => Raise e
       end
  else Num.int_of_str tok.

(** The engagement property as the design document words it: for every
    container the three counts come out, and none is negative. *)
Definition engagement_counts_nonnegative : Prop :=
  forall div : Bs4.node,
    exists r c s, _extract_engagement div = Ok (r, c, s)
                  /\ 0 <= r /\ 0 <= c /\ 0 <= s.

(** No character of [s] is a hyphen-minus. *)
Definition no_minus (s : string) : bool :=
  Str.forallb (fun c => negb (Ascii.eqb c "-")) s.

(** A float that is not below zero. *)
Definition nonneg_float (x : Num.pyfloat) : Prop :=
  match x with
  | Num.Fnan => True
  | Num.Finf s => s = false
  | Num.Ffinite s m e => s = false /\ 0 <= m
  end.

Section TimestampVocabulary.

Variable clock : nat -> Z.
Variable dateutil_parse : Z -> string -> outcome DateTime.datetime.

(** The normaliser cannot resolve [raw], whenever it is asked. *)
Definition unresolved (raw : option string) : Prop :=
  forall k, exists k',
    parse_facebook_datetime clock dateutil_parse raw k = (Ok None, k').

(** The normaliser does not raise on [raw], whenever it is asked. *)
Definition never_raises (raw : option string) : Prop :=
  forall k, exists o k',
    parse_facebook_datetime clock dateutil_parse raw k = (Ok o, k').

(** The strings [_extract_created_at] offers to the normaliser from the
    attributes of a container, in the order they are tried. *)
Definition timestamp_candidates (div : Bs4.node) : list (option string) :=
  flat_map timestamp_attributes
    (Bs4.find_all ["abbr"; "span"; "a"] Bs4.any_tag div).

(** The creation-time property as it is worded: when the clock is past the
    epoch, every container gets a strictly positive [createdAt]. *)
Definition created_at_positive : Prop :=
  (forall j, 0 < clock j) ->
  forall (div : Bs4.node) (k : nat),
    exists v k',
      _extract_created_at clock dateutil_parse div k = (Ok v, k') /\ 0 < v.

Variable _extract_comments_from_json : Bs4.node -> M (list Comment).

(** The posts of the containers whose record is built without an
    exception, in the order of the containers, and the number of clock
    readings made on the way. *)
Fixpoint posts_of_successful (divs : list Bs4.node) (group_url : string)
    (k : nat) : list FacebookPost * nat :=
  match divs with
  | [] => ([], k)
  | div :: rest =>
      match _parse_single_post clock dateutil_parse _extract_comments_from_json
              div group_url k with
      | (Ok post, k') =>
          let '(posts, k'') := posts_of_successful rest group_url k' in
          (post :: posts, k'')
      | (Raise _, k') => posts_of_successful rest group_url k'
      end
  end.

End TimestampVocabulary.

(** The clock and the [dateutil] of the examples: 2025-11-01T12:26:40Z at
    every reading, and a parser that rejects every string. *)
Definition example_clock (k : nat) : Z := 1762000000 * 1000000.
Definition example_dateutil (t : Z) (s : string) : outcome DateTime.datetime :=
  Raise ValueError.

(** ** Further vocabulary *)

(** The raw string as the first three branches of the normaliser see it. *)
Definition normalised_text (raw : string) : string := Str.lower (Str.strip raw).

(** The one-letter alternatives of the unit group. *)
Definition unit_letters : list string := ["s"; "m"; "h"; "d"; "w"].

(** No character of [s] is a decimal digit. *)
Definition digitless (s : string) : bool :=
  Str.forallb (fun c => negb (Str.is_digit c)) s.

(** [u] starts with [http://] or [https://]. *)
Definition is_absolute (u : string) : bool :=
  Str.startswith "http://" u || Str.startswith "https://" u.

(** [s] has no white space at either end. *)
Definition trimmed (s : string) : Prop := Str.strip s = s.

(** No character of [s] is [c]. *)
Definition lacks (c : ascii) (s : string) : bool :=
  Str.forallb (fun d => negb (Ascii.eqb d c)) s.

(** The first character, if any, is not white space. *)
Definition head_ok (s : string) : bool :=
  match s with
  | EmptyString => true
  | String c _ => negb (Str.is_space c)
  end.

(** Not empty, and no white space at either end. *)
Definition tight (s : string) : Prop :=
  s <> EmptyString /\ head_ok s = true /\ Str.rstrip_by Str.is_space s = s.


(** What the loop of [_extract_top_comments] leaves in every comment it
    builds. *)
Definition markup_comment (c : Comment) : Prop :=
  comment_reactionCount c = 0 /\ comment_commentCount c = 0
  /\ user_id (comment_author c) = EmptyString
  /\ trimmed (comment_text c)
  /\ (user_name (comment_author c) = EmptyString
      <-> user_url (comment_author c) = EmptyString).

(** What holds of every post of a page. *)
Definition post_well_formed (group_url : string) (p : FacebookPost) : Prop :=
  (url p = group_url \/ is_absolute (url p) = true)
  /\ (user p = mk_user EmptyString EmptyString EmptyString
      \/ (user_name (user p) <> EmptyString
          /\ is_absolute (user_url (user p)) = true))
  /\ trimmed (text p)
  /\ NoDup (att_key <$> attachments p)
  /\ Forall (fun att => att_url att <> EmptyString) (attachments p)
  /\ createdAt p <> 0.

(** ** Fetching the pages of a group ([FacebookGroupParser]) *)

From Stdlib Require Import DecimalString.
From Stdlib Require DecimalZ.

(** [str(n)] of an [int]. *)
Definition str_of_int (n : Z) : string := NilZero.string_of_int (Z.to_int n).

(** The fields [__init__] sets, but for the logger. *)
Record FacebookGroupParser : Type := mk_parser {
  session_cookie : string;
  proxies : gmap string string;
  user_agent : string;
  timeout : Z
}.

Definition DEFAULT_USER_AGENT : string :=
  "Mozilla/5.0 (Windows NT 10.0; Win64; x64) "
  +:+ "AppleWebKit/537.36 (KHTML, like Gecko) "
  +:+ "Chrome/129.0 Safari/537.36".

(** [FacebookGroupParser.__init__]; [None] stands for an argument left
    out or given as [None]. *)
Definition __init__ (session_cookie : string)
    (proxies : option (gmap string string)) (user_agent : option string)
    (timeout : Z) : FacebookGroupParser :=
  mk_parser session_cookie
    (match proxies with
     | Some p => if decide (p = ∅) then ∅ else p
     | None => ∅
     end)
    (if truthy_str user_agent then default EmptyString user_agent
     else DEFAULT_USER_AGENT)
    timeout.

(** [_build_headers]. *)
Definition _build_headers (self : FacebookGroupParser) : gmap string string :=
  let headers : gmap string string :=
    <[ "Accept-Language" := "en-US,en;q=0.9" ]>
      (<[ "User-Agent" := user_agent self ]> ∅) in
  if negb (String.eqb (session_cookie self) EmptyString)
  then <[ "Cookie" := session_cookie self ]> headers
  else headers.

(** The URL [fetch_group_page] requests for a page. *)
Definition page_url (url : string) (page : Z) : string :=
  if 1 <? page
  then url +:+ (if Str.contains "?" url then "&" else "?")
       +:+ "page=" +:+ str_of_int page
  else url.

(** One call of [requests.get]. *)
Record request : Type := mk_request {
  req_url : string;
  req_headers : gmap string string;
  req_proxies : gmap string string;
  req_timeout : Z
}.

(** The request [fetch_group_page] sends for a page. *)
Definition page_request (self : FacebookGroupParser) (url : string)
    (page : Z) : request :=
  mk_request (page_url url page) (_build_headers self) (proxies self)
    (timeout self).

(** The state of a fetch: the number of clock readings and the requests
    sent so far, oldest first. *)
Record net : Type := mk_net {
  readings : nat;
  sent : list request
}.

(** A computation that may also send requests. *)
Definition F (A : Type) : Type := net -> outcome A * net.

Definition fret {A} (a : A) : F A := fun st => (Ok a, st).

Definition fbind {A B} (c : F A) (f : A -> F B) : F B :=
  fun st => match c st with
            | (Ok a, st') => f a st'
            | (Raise e, st') => (Raise e, st')
            end.

Definition ftry {A} (c : F A) (h : exn -> F A) : F A :=
  fun st => match c st with
            | (Ok a, st') => (Ok a, st')
            | (Raise e, st') => h e st'
            end.

(** A computation on the clock alone, run in a fetch. *)
Definition on_clock {A} (c : M A) : F A :=
  fun st => match c (readings st) with
            | (o, k') => (o, mk_net k' (sent st))
            end.

(** [l[:n]]. *)
Definition slice_to {A} (n : Z) (l : list A) : list A :=
  if 0 <=? n then take (Z.to_nat n) l
  else take (Z.to_nat (Z.of_nat (List.length l) + n)) l.

Section Fetching.

Variable clock : nat -> Z.
Variable dateutil_parse : Z -> string -> outcome DateTime.datetime.
Variable BeautifulSoup : string -> outcome Bs4.node.
Variable _extract_comments_from_json : Bs4.node -> M (list Comment).

(** [requests.get(...)], [raise_for_status()] and [.text]: the text of
    the response to a request, or the exception raised, given the requests
    sent before it. *)
Variable requests_get : request -> list request -> outcome string.

(** [fetch_group_page]. *)
Definition fetch_group_page (self : FacebookGroupParser) (url : string)
    (page : Z) : F string :=
  fun st =>
    let req := page_request self url page in
    (requests_get req (sent st), mk_net (readings st) (sent st ++ [req])).

(** The [while] loop of [fetch_group_posts]; [fuel] bounds the number of
    turns. *)
Fixpoint fetch_loop (self : FacebookGroupParser) (group_url : string)
    (max_posts pagination_limit : Z) (fuel : nat) (page : Z)
    (posts : list FacebookPost) : F (list FacebookPost) :=
  match fuel with
  | O => fret posts
  | S fuel' =>
      if (Z.of_nat (List.length posts) <? max_posts) && (page <=? pagination_limit)
      then
        fbind
          (ftry (fbind (fetch_group_page self group_url page)
                   (fun html => fret (Some html)))
                (fun _ => fret None))
          (fun fetched =>
             match fetched with
             | None => fret posts
             | Some html =>
                 fbind
                   (on_clock (parse_posts_from_html clock dateutil_parse
                                BeautifulSoup _extract_comments_from_json
                                html group_url))
                   (fun page_posts =>
                      match page_posts with
                      | [] => fret posts
                      | _ =>
                          if max_posts <=? Z.of_nat (List.length (posts ++ page_posts))
                          then fret (posts ++ page_posts)
                          else fetch_loop self group_url max_posts
                                 pagination_limit fuel' (page + 1)
                                 (posts ++ page_posts)
                      end)
             end)
      else fret posts
  end.

(** [fetch_group_posts]: the loop starts at page 1 and makes at most
    [pagination_limit] turns. *)
Definition fetch_group_posts (self : FacebookGroupParser) (group_url : string)
    (max_posts pagination_limit : Z) : F (list FacebookPost) :=
  fbind (fetch_loop self group_url max_posts pagination_limit
           (Z.to_nat pagination_limit) 1 [])
    (fun posts => fret (slice_to max_posts posts)).

End Fetching.

(** ** Reading the group URLs and scraping them ([main.py]) *)

(** What a file opened in text mode hands out for its text: a carriage
    return, with the line feed that may follow it, reads as one line feed.
    [after_cr] says that the character before was a carriage return. *)
Fixpoint universal_newlines (after_cr : bool) (s : string) : string :=
  match s with
  | EmptyString => EmptyString
  | String c s' =>
      if Ascii.eqb c "013"
      then String "010" (universal_newlines true s')
      else if Ascii.eqb c "010" && after_cr
           then universal_newlines false s'
           else String c (universal_newlines false s')
  end.

(** [for line in f]: the lines of a text, each with the line feed that
    ends it; [cur] is the line being read. *)
Fixpoint lines_of (cur : string) (s : string) : list string :=
  match s with
  | EmptyString =>
      match cur with
      | EmptyString => []
      | _ => [cur]
      end
  | String c s' =>
      if Ascii.eqb c "010"
      then (cur +:+ String c EmptyString) :: lines_of EmptyString s'
      else lines_of (cur +:+ String c EmptyString) s'
  end.

(** [load_input_urls]; [input_file] is [None] when
    [data/input_urls.txt] does not exist, and otherwise what opening the
    file and reading it as UTF-8 text gives: the decoded text, or the
    exception raised on the way ([OSError], [UnicodeDecodeError]). *)
Definition load_input_urls (input_file : option (outcome string))
  : outcome (list string) :=
  match input_file with
  | None => Raise (OtherException "FileNotFoundError")
  | Some (Raise e) => Raise e
  | Some (Ok content) =>
      Ok (Str.strip <$>
            filter (fun line => negb (String.eqb (Str.strip line) EmptyString))
              (lines_of EmptyString (universal_newlines false content)))
  end.

Section Scraping.

Variable clock : nat -> Z.
Variable dateutil_parse : Z -> string -> outcome DateTime.datetime.
Variable BeautifulSoup : string -> outcome Bs4.node.
Variable _extract_comments_from_json : Bs4.node -> M (list Comment).
Variable requests_get : request -> list request -> outcome string.

(** The loop of [main] over the group URLs. *)
Fixpoint scrape_groups (parser : FacebookGroupParser)
    (max_posts_per_group pagination_limit : Z) (urls : list string)
    (all_posts : list FacebookPost) : F (list FacebookPost) :=
  match urls with
  | [] => fret all_posts
  | url :: urls' =>
      fbind
        (ftry
           (fbind
              (fetch_group_posts clock dateutil_parse BeautifulSoup
                 _extract_comments_from_json requests_get parser url
                 max_posts_per_group pagination_limit)
              (fun posts => fret (all_posts ++ posts)))
           (fun _ => fret all_posts))
        (fun all_posts' =>
           scrape_groups parser max_posts_per_group pagination_limit urls'
             all_posts')
  end.

End Scraping.

(** ** Laws of the clock monad *)

Section MonadLaws.

Context {A B C : Type}.

Lemma bind_ret_l (a : A) (f : A -> M B) k : bind (ret a) f k = f a k.
Proof. reflexivity. Qed.

Lemma bind_ret_r (c : M A) k : bind c ret k = c k.
Proof. unfold bind, ret. by destruct (c k) as [[a|e] k']. Qed.

Lemma bind_assoc (c : M A) (f : A -> M B) (g : B -> M C) k :
  bind (bind c f) g k = bind c (fun a => bind (f a) g) k.
Proof. unfold bind. by destruct (c k) as [[a|e] k']. Qed.

Lemma bind_raise (e : exn) (f : A -> M B) k : bind (raise e) f k = (Raise e, k).
Proof. reflexivity. Qed.

(** A handler is not run when nothing is raised, and sees the exception
    and the clock count of the failure otherwise. *)
Lemma try_except_ok (c : M A) (h : exn -> M A) k a k' :
  c k = (Ok a, k') -> try_except c h k = (Ok a, k').
Proof. unfold try_except. by intros ->. Qed.

Lemma try_except_raise (c : M A) (h : exn -> M A) k e k' :
  c k = (Raise e, k') -> try_except c h k = h e k'.
Proof. unfold try_except. by intros ->. Qed.

End MonadLaws.
(** ** Properties of the normaliser *)

Section CharacterFacts.

Ltac by_cases_on c :=
  destruct c as [[] [] [] [] [] [] [] []]; vm_compute; intuition congruence.

Lemma digit_not_space c : Str.is_digit c = true -> Str.is_space c = false.
Proof. by_cases_on c. Qed.

Lemma digit_lower c : Str.is_digit c = true -> Str.lower_char c = c.
Proof. by_cases_on c. Qed.

Lemma digit_not_mark c :
  Str.is_digit c = true ->
  Ascii.eqb c "_" = false /\ c <> "-"%char /\ c <> "+"%char /\ c <> "n"%char.
Proof. by_cases_on c. Qed.

Lemma digit_value_range c :
  Str.is_digit c = true -> 0 <= Str.digit_value c <= 9.
Proof. by_cases_on c. Qed.

End CharacterFacts.

Section DigitStrings.

Lemma digits_lstrip s :
  Str.forallb Str.is_digit s = true -> Str.lstrip_by Str.is_space s = s.
Proof.
  destruct s as [|c s]; simpl; [reflexivity|].
  intros [Hc _]%andb_prop. now rewrite (digit_not_space c Hc).
Qed.

Lemma digits_rstrip s :
  Str.forallb Str.is_digit s = true -> Str.rstrip_by Str.is_space s = s.
Proof.
  induction s as [|c s IH]; simpl; [reflexivity|].
  intros [Hc Hs]%andb_prop. rewrite (IH Hs).
  destruct s; [now rewrite (digit_not_space c Hc) | reflexivity].
Qed.

Lemma digits_strip s :
  Str.forallb Str.is_digit s = true -> Str.strip s = s.
Proof.
  intros H. unfold Str.strip. rewrite (digits_lstrip s H). now apply digits_rstrip.
Qed.

Lemma digits_lower s :
  Str.forallb Str.is_digit s = true -> Str.lower s = s.
Proof.
  induction s as [|c s IH]; simpl; [reflexivity|].
  intros [Hc Hs]%andb_prop. now rewrite (digit_lower c Hc), (IH Hs).
Qed.

Lemma digits_digitpart_aux s b :
  Str.forallb Str.is_digit s = true -> s <> EmptyString \/ b = true ->
  Num.digitpart_aux b s = Some s.
Proof.
  revert b. induction s as [|c s IH]; simpl; intros b H Hb.
  - destruct Hb as [Hb | ->]; [congruence | reflexivity].
  - apply andb_prop in H as [Hc Hs]. rewrite Hc.
    now rewrite (IH true Hs (or_intror eq_refl)).
Qed.

Lemma digits_split_sign s :
  Str.forallb Str.is_digit s = true -> Num.split_sign s = (false, s).
Proof.
  destruct s as [|c s]; simpl; [reflexivity|].
  intros [Hc _]%andb_prop.
  destruct (digit_not_mark c Hc) as (_ & Hm & Hp & _).
  destruct c as [[] [] [] [] [] [] [] []]; try reflexivity; congruence.
Qed.

(** [int()] of a non-empty run of digits is its decimal value. *)
Lemma int_of_digits s :
  Str.forallb Str.is_digit s = true -> s <> EmptyString ->
  (String.length s <= Num.MAX_STR_DIGITS)%nat ->
  Num.int_of_str s = Ok (Str.digits_value s).
Proof.
  intros H Hne Hlen. unfold Num.int_of_str.
  rewrite (digits_strip s H), (digits_split_sign s H).
  unfold Num.digitpart. rewrite (digits_digitpart_aux s false H (or_introl Hne)).
  now replace (Num.MAX_STR_DIGITS <? String.length s)%nat with false
    by (symmetry; apply Nat.ltb_ge; exact Hlen).
Qed.

Lemma digits_not_now s :
  Str.forallb Str.is_digit s = true -> String.eqb s "now" = false.
Proof.
  destruct s as [|c s]; simpl; [reflexivity|].
  intros [Hc _]%andb_prop.
  destruct (digit_not_mark c Hc) as (_ & _ & _ & Hn).
  destruct (Ascii.eqb_spec c "n"); [congruence | reflexivity].
Qed.

End DigitStrings.

(** C4.  A string of 9 to 12 decimal digits is read as an epoch value: the
    normaliser returns its integer value when that is at most
    10,000,000,000 and the value integer-divided by 1000 otherwise; no clock
    is read. *)
Theorem epoch_digit_string
    (clock : nat -> Z) (dateutil_parse : Z -> string -> outcome DateTime.datetime)
    (s : string) (k : nat) :
  Str.forallb Str.is_digit s = true ->
  (9 <= String.length s <= 12)%nat ->
  parse_facebook_datetime clock dateutil_parse (Some s) k
  = (Ok (Some (if Str.digits_value s <=? 10000000000
               then Str.digits_value s
               else Str.digits_value s / 1000)), k).
Proof.
  intros Hd [Hlo Hhi].
  assert (Hne : s <> EmptyString) by (intros ->; simpl in Hlo; lia).
  unfold parse_facebook_datetime.
  destruct s as [|c s']; [congruence|]. set (s := String c s') in *.
  rewrite (digits_strip s Hd), (digits_lower s Hd).
  unfold or_else at 1, bind at 1, branch_now.
  rewrite (digits_not_now s Hd). cbn [ret].
  unfold or_else at 1, bind at 1, branch_epoch, Re.fullmatch_digits_9_12.
  rewrite Hd.
  replace (9 <=? String.length s)%nat with true by (symmetry; apply Nat.leb_le; lia).
  replace (String.length s <=? 12)%nat with true by (symmetry; apply Nat.leb_le; lia).
  cbn [andb]. unfold try_except, bind, lift, ret.
  rewrite (int_of_digits s Hd Hne) by (unfold Num.MAX_STR_DIGITS; lia).
  destruct (Z.ltb_spec 10000000000 (Str.digits_value s));
    destruct (Z.leb_spec (Str.digits_value s) 10000000000); try lia; reflexivity.
Qed.

Lemma epoch_digit_string_witness :
  parse_facebook_datetime (fun _ => 0) (fun _ _ => Raise ValueError)
    (Some "171535229900") 0%nat
  = (Ok (Some 171535229), 0%nat).
Proof.
  apply (epoch_digit_string (fun _ => 0) (fun _ _ => Raise ValueError)
           "171535229900" 0%nat); [reflexivity | simpl; lia].
Defined.

(** *** The integer part of a float quotient *)

Section FloatQuotient.

(** Below [2^52] the rounded quotient of two integers is finite, its
    exponent is not positive and its significand is the exact quotient at
    that exponent or the next integer. *)
Lemma round_b64_small neg p q :
  0 <= p -> 0 < q -> p < q * 2 ^ 52 ->
  exists m e, Num.round_b64 neg p q = Num.Ffinite neg m e /\ e <= 0 /\
              p * 2 ^ (- e) / q <= m <= p * 2 ^ (- e) / q + 1.
Proof.
  intros Hp Hq Hpq. unfold Num.round_b64.
  destruct (Z.eqb_spec p 0) as [-> | Hp0].
  { exists 0, 0. repeat split; try lia; rewrite Z.div_0_l; lia. }
  assert (He0 : Z.max (Z.log2 p - Z.log2 q - 52) (-1074) <= 0).
  { assert (Z.log2 p <= Z.log2 q + 52); [|lia].
    transitivity (Z.log2 (q * 2 ^ 52)); [apply Z.log2_le_mono; lia|].
    rewrite Z.log2_mul_pow2 by lia. lia. }
  assert (He : Num.exponent_for p q <= 0).
  { unfold Num.exponent_for. cbv zeta. destruct (_ && _); lia. }
  set (e := Num.exponent_for p q) in *.
  assert (Hsc : Num.scaled p q e = (p * 2 ^ (- e), q)).
  { unfold Num.scaled. destruct (Z.leb_spec 0 e); [|reflexivity].
    assert (e = 0) as -> by lia. simpl. f_equal; lia. }
  cbv zeta. rewrite Hsc.
  set (n := p * 2 ^ (- e)). set (m := n / q). set (r := n mod q).
  set (m' := if (q <? 2 * r) || ((q =? 2 * r) && Z.odd m) then m + 1 else m).
  assert (Hm' : m <= m' <= m + 1) by (unfold m'; destruct (_ || _); lia).
  assert (Hpow : 0 < 2 ^ (- e)) by (apply Z.pow_pos_nonneg; lia).
  assert (Hm0 : 0 <= m) by (apply Z.div_pos; unfold n; nia).
  assert (Hmub : m < 2 ^ 52 * 2 ^ (- e)).
  { apply Z.div_lt_upper_bound; [lia|]. unfold n. nia. }
  assert (Hlog : Z.log2 m' <= 52 - e).
  { destruct (Z.eq_dec m' 0) as [-> | Hne]; [simpl; lia|].
    assert (Z.log2 m' < 52 - e + 1); [|lia].
    apply Z.log2_lt_pow2; [lia|].
    replace (52 - e + 1) with (1 + (52 + - e)) by lia.
    rewrite Z.pow_add_r, Z.pow_add_r by lia. lia. }
  destruct (Z.leb_spec 1024 (Z.log2 m' + e)); [lia|].
  exists m', e. repeat split; try lia; fold n; fold m; lia.
Qed.

(** The integer part of such a quotient is the floor of the exact quotient
    or the next integer. *)
Lemma int_of_round_b64_small neg p q :
  0 <= p -> 0 < q -> p < q * 2 ^ 52 ->
  exists a, Num.int_of_float (Num.round_b64 neg p q) = Ok (if neg then - a else a)
            /\ p / q <= a <= p / q + 1.
Proof.
  intros Hp Hq Hpq.
  destruct (round_b64_small neg p q Hp Hq Hpq) as (m & e & -> & He & Hm).
  assert (Hpow : 0 < 2 ^ (- e)) by (apply Z.pow_pos_nonneg; lia).
  assert (Hfl : p * 2 ^ (- e) / q / 2 ^ (- e) = p / q).
  { rewrite Z.div_div by lia. rewrite Z.div_mul_cancel_r by lia.
    reflexivity. }
  exists (m / 2 ^ (- e)). split.
  - unfold Num.int_of_float. destruct (Z.leb_spec 0 e); [|reflexivity].
    assert (e = 0) as -> by lia. simpl. now rewrite Z.mul_1_r, Z.div_1_r.
  - rewrite <- Hfl. split.
    + apply Z.div_le_mono; lia.
    + transitivity ((p * 2 ^ (- e) / q + 1 * 2 ^ (- e)) / 2 ^ (- e)).
      * apply Z.div_le_mono; nia.
      * rewrite Z.div_add by lia. lia.
Qed.

(** [int(a / b)] for integers stays within one of the exact quotient. *)
Lemma int_truediv_within_one x q :
  0 < q -> Z.abs x < q * 2 ^ 52 ->
  exists v, Num.int_of_float (Num.int_truediv x q) = Ok v
            /\ Z.abs (v * q - x) <= q
            /\ (q <= x -> 1 <= v).
Proof.
  intros Hq Hx. unfold Num.int_truediv.
  destruct (int_of_round_b64_small (x <? 0) (Z.abs x) q) as (a & -> & Ha); try lia.
  eexists. split; [reflexivity|].
  pose proof (Z.mul_div_le (Z.abs x) q Hq).
  pose proof (Z.mul_succ_div_gt (Z.abs x) q Hq).
  destruct (Z.ltb_spec x 0); split; nia.
Qed.

End FloatQuotient.

(** *** The relative-time pattern *)

Section RelativePattern.

Lemma first_alternative_In alts s u :
  Re.first_alternative alts s = Some u -> In u alts.
Proof.
  induction alts as [|a alts IH]; simpl; [discriminate|].
  destruct (String.prefix a s); [intros [= ->]; now left | intros H; right; auto].
Qed.

Lemma spaces_then_unit_In s u :
  Re.spaces_then_unit s = Some u -> In u Re.unit_alternatives.
Proof.
  induction s as [|c s IH]; cbn [Re.spaces_then_unit].
  - apply first_alternative_In.
  - destruct (Str.is_space c); [|apply first_alternative_In].
    destruct (Re.spaces_then_unit s); [intros [= <-]; auto | apply first_alternative_In].
Qed.

(** The groups of a match: a non-empty run of digits and one of the
    alternatives. *)
Lemma match_relative_groups s g1 u :
  Re.match_relative s = Some (g1, u) ->
  Str.forallb Str.is_digit g1 = true /\ g1 <> EmptyString
  /\ In u Re.unit_alternatives.
Proof.
  revert g1. induction s as [|c s IH]; simpl; intros g1; [discriminate|].
  destruct (Str.is_digit c) eqn:Hc; [|discriminate].
  destruct (Re.match_relative s) as [[ds u']|].
  - intros [= <- <-]. destruct (IH ds eq_refl) as (Hd & _ & Hu).
    simpl. rewrite Hc, Hd. repeat split; [discriminate | assumption].
  - destruct (Re.spaces_then_unit s) eqn:Hs; [|discriminate].
    intros [= <- <-]. simpl. rewrite Hc. repeat split; [discriminate|].
    eapply spaces_then_unit_In; eassumption.
Qed.

Lemma search_relative_match s g :
  Re.search_relative s = Some g -> exists s', Re.match_relative s' = Some g.
Proof.
  induction s as [|c s IH]; cbn [Re.search_relative].
  - destruct (Re.match_relative EmptyString) eqn:Hm; [|discriminate].
    intros [= <-]. eauto.
  - destruct (Re.match_relative (String c s)) eqn:Hm; [|exact IH].
    intros [= <-]. eauto.
Qed.

Lemma search_relative_groups s g1 u :
  Re.search_relative s = Some (g1, u) ->
  Str.forallb Str.is_digit g1 = true /\ g1 <> EmptyString
  /\ In u Re.unit_alternatives.
Proof.
  intros [s' H]%search_relative_match. eapply match_relative_groups; eassumption.
Qed.

(** A string of digits has no match: no alternative starts with a digit. *)
Lemma first_alternative_digit c s :
  Str.is_digit c = true ->
  Re.first_alternative Re.unit_alternatives (String c s) = None.
Proof.
  destruct c as [[] [] [] [] [] [] [] []]; try discriminate; reflexivity.
Qed.

Lemma digits_no_unit s :
  Str.forallb Str.is_digit s = true -> Re.spaces_then_unit s = None.
Proof.
  destruct s as [|c s]; [reflexivity|]. cbn [Str.forallb Re.spaces_then_unit].
  intros [Hc _]%andb_prop.
  rewrite (digit_not_space c Hc). now apply first_alternative_digit.
Qed.

Lemma digits_no_match s :
  Str.forallb Str.is_digit s = true -> Re.match_relative s = None.
Proof.
  induction s as [|c s IH]; [reflexivity|]. cbn [Str.forallb Re.match_relative].
  intros [Hc Hs]%andb_prop. now rewrite Hc, (IH Hs), (digits_no_unit s Hs).
Qed.

Lemma digits_no_search s :
  Str.forallb Str.is_digit s = true -> Re.search_relative s = None.
Proof.
  induction s as [|c s IH]; [reflexivity|]. intros H.
  cbn [Re.search_relative]. rewrite (digits_no_match _ H).
  apply andb_prop in H as [_ Hs]. auto.
Qed.

Lemma digits_value_from_nonneg s acc :
  Str.forallb Str.is_digit s = true -> 0 <= acc -> 0 <= Str.digits_value_from acc s.
Proof.
  revert acc. induction s as [|c s IH]; simpl; intros acc H Hacc; [assumption|].
  apply andb_prop in H as [Hc Hs]. apply IH; [assumption|].
  pose proof (digit_value_range c Hc). lia.
Qed.

End RelativePattern.

Lemma unit_table_alternatives : map fst unit_table = Re.unit_alternatives.
Proof. reflexivity. Qed.

Section Cascade.

Variable clock : nat -> Z.
Variable dateutil_parse : Z -> string -> outcome DateTime.datetime.

Ltac eval_startswith :=
  repeat match goal with
         | |- context [Str.startswith ?a ?b] =>
             let r := eval vm_compute in (Str.startswith a b) in
             change (Str.startswith a b) with r
         end;
  cbv iota.

Ltac case_ltb :=
  repeat match goal with
         | |- context [?a <? ?b] => destruct (Z.ltb_spec a b); try lia
         end.

(** The relative branch on a match with a unit of [secs] seconds: the amount,
    the [timedelta], the subtraction from the clock reading and the
    conversion to an integer, each of which may raise. *)
Lemma branch_relative_match text g1 u secs k :
  Re.search_relative text = Some (g1, u) ->
  (String.length g1 <= Num.MAX_STR_DIGITS)%nat ->
  In (u, secs) unit_table ->
  branch_relative clock text k
  = match DateTime.timedelta secs (Str.digits_value g1) with
    | Ok d =>
        match DateTime.sub_timedelta (DateTime.mk_datetime (clock k) (Some 0)) d with
        | Ok dt =>
            match Num.int_of_float (DateTime.timestamp dt) with
            | Ok v => (Ok (Some v), S k)
            | Raise e => (Raise e, S k)
            end
        | Raise e => (Raise e, S k)
        end
    | Raise e => (Raise e, k)
    end.
Proof.
  intros Hs Hlen Hu.
  destruct (search_relative_groups _ _ _ Hs) as (Hd & Hne & _).
  unfold branch_relative. rewrite Hs.
  unfold bind at 1, lift at 1. rewrite (int_of_digits g1 Hd Hne Hlen).
  simpl in Hu.
  repeat (destruct Hu as [[= <- <-] | Hu];
          [ eval_startswith;
            cbv [bind lift ret datetime_now_utc read_clock];
            destruct (DateTime.timedelta _ _); [|reflexivity];
            destruct (DateTime.sub_timedelta _ _); [|reflexivity];
            destruct (Num.int_of_float _); reflexivity |]).
  destruct Hu.
Qed.

Lemma unit_table_seconds u secs : In (u, secs) unit_table -> 1 <= secs <= 604800.
Proof.
  simpl. intros Hu.
  repeat (destruct Hu as [[= <- <-] | Hu]; [lia|]). destruct Hu.
Qed.

(** When the instant asked for is a [datetime], the branch returns a value
    within one second of it. *)
Lemma branch_relative_in_range text g1 u secs k :
  Re.search_relative text = Some (g1, u) ->
  (String.length g1 <= Num.MAX_STR_DIGITS)%nat ->
  In (u, secs) unit_table ->
  DateTime.MIN_US <= clock k - Str.digits_value g1 * secs * 1000000 ->
  clock k <= DateTime.MAX_US ->
  exists v,
    branch_relative clock text k = (Ok (Some v), S k)
    /\ Z.abs (v * 1000000 - (clock k - Str.digits_value g1 * secs * 1000000))
       <= 1000000.
Proof.
  intros Hs Hlen Hu Hlo Hhi.
  destruct (search_relative_groups _ _ _ Hs) as (Hd & _ & _).
  pose proof (digits_value_from_nonneg g1 0 Hd (Z.le_refl 0)) as Hn.
  fold (Str.digits_value g1) in Hn.
  pose proof (unit_table_seconds _ _ Hu) as Hsecs.
  rewrite (branch_relative_match _ _ _ _ k Hs Hlen Hu).
  unfold DateTime.MIN_US, DateTime.MAX_US, DateTime.US_PER_SECOND in Hlo, Hhi.
  set (n := Str.digits_value g1) in *.
  set (x := clock k - n * secs * 1000000) in *.
  destruct (int_truediv_within_one x 1000000) as (v & Hv & Hb & _); [lia | lia |].
  exists v. split; [|exact Hb].
  assert (Htd : DateTime.timedelta secs n = Ok (n * secs * 1000000)).
  { unfold DateTime.timedelta, DateTime.US_PER_DAY, DateTime.US_PER_SECOND,
      DateTime.MAX_DELTA_DAYS.
    assert (0 <= n * secs * 1000000 / (86400 * 1000000) <= 999999999).
    { split; [apply Z.div_pos; nia|].
      apply Z.div_le_upper_bound; lia. }
    case_ltb. reflexivity. }
  rewrite Htd.
  unfold DateTime.sub_timedelta, DateTime.MIN_US, DateTime.MAX_US,
    DateTime.US_PER_SECOND. cbn [DateTime.wall_us DateTime.utcoffset_us]. fold x.
  case_ltb. cbn [orb].
  unfold DateTime.timestamp, DateTime.US_PER_SECOND.
  cbn [DateTime.wall_us DateTime.utcoffset_us default]. now rewrite Z.sub_0_r, Hv.
Qed.

(** When the instant asked for lies before year 1, the branch raises. *)
Lemma branch_relative_before_year_one text g1 u secs k :
  Re.search_relative text = Some (g1, u) ->
  (String.length g1 <= Num.MAX_STR_DIGITS)%nat ->
  In (u, secs) unit_table ->
  clock k - Str.digits_value g1 * secs * 1000000 < DateTime.MIN_US ->
  exists k', branch_relative clock text k = (Raise OverflowError, k').
Proof.
  intros Hs Hlen Hu Hlo.
  rewrite (branch_relative_match _ _ _ _ k Hs Hlen Hu).
  unfold DateTime.timedelta.
  destruct (_ || _); [eauto|].
  unfold DateTime.sub_timedelta. cbn [DateTime.wall_us].
  unfold DateTime.US_PER_SECOND in *.
  destruct (Z.ltb_spec (clock k - Str.digits_value g1 * secs * 1000000) DateTime.MIN_US);
    [cbn [orb]; eauto | lia].
Qed.

(** The branches before the relative one decline a text that has a match
    of the relative pattern. *)
Lemma earlier_branches_decline text g k :
  Re.search_relative text = Some g ->
  branch_now clock text k = (Ok None, k) /\ branch_epoch text k = (Ok None, k).
Proof.
  intros Hs. split.
  - unfold branch_now. destruct (String.eqb_spec text "now") as [-> | _];
      [discriminate Hs | reflexivity].
  - unfold branch_epoch, Re.fullmatch_digits_9_12.
    destruct (Str.forallb Str.is_digit text) eqn:Hd; [|reflexivity].
    rewrite (digits_no_search text Hd) in Hs. discriminate.
Qed.

Lemma search_relative_nonempty raw g :
  Re.search_relative (Str.lower (Str.strip raw)) = Some g -> raw <> EmptyString.
Proof. intros H ->. discriminate H. Qed.

(** The cascade on a raw string with a match of the relative pattern. *)
Lemma normalise_relative_match raw g1 u secs k :
  Re.search_relative (Str.lower (Str.strip raw)) = Some (g1, u) ->
  (String.length g1 <= Num.MAX_STR_DIGITS)%nat ->
  In (u, secs) unit_table ->
  DateTime.MIN_US <= clock k - Str.digits_value g1 * secs * 1000000 ->
  clock k <= DateTime.MAX_US ->
  exists v,
    parse_facebook_datetime clock dateutil_parse (Some raw) k = (Ok (Some v), S k)
    /\ Z.abs (v * 1000000 - (clock k - Str.digits_value g1 * secs * 1000000))
       <= 1000000.
Proof.
  intros Hs Hlen Hu Hlo Hhi.
  destruct (branch_relative_in_range _ _ _ _ k Hs Hlen Hu Hlo Hhi) as (v & Hv & Hb).
  destruct (earlier_branches_decline _ _ k Hs) as [Hnow Hepoch].
  exists v. split; [|exact Hb].
  pose proof (search_relative_nonempty raw _ Hs) as Hne.
  unfold parse_facebook_datetime. destruct raw as [|c raw']; [congruence|].
  unfold or_else, bind. rewrite Hnow. cbv beta iota. rewrite Hepoch.
  cbv beta iota. rewrite Hv. reflexivity.
Qed.

(** C3 (amended).  When the leftmost match of the relative pattern in the
    stripped, lower-cased raw string is [<n><unit>] and the clock reading
    minus [n] units is an instant that [datetime] can hold, the normaliser
    reads the clock once and returns a value within one second of that
    instant. *)
Theorem relative_leftmost_token raw g1 u secs k :
  Re.search_relative (Str.lower (Str.strip raw)) = Some (g1, u) ->
  (String.length g1 <= Num.MAX_STR_DIGITS)%nat ->
  In (u, secs) unit_table ->
  DateTime.MIN_US <= clock k - Str.digits_value g1 * secs * 1000000 ->
  clock k <= DateTime.MAX_US ->
  exists v,
    parse_facebook_datetime clock dateutil_parse (Some raw) k = (Ok (Some v), S k)
    /\ Z.abs (v * 1000000 - (clock k - Str.digits_value g1 * secs * 1000000))
       <= 1000000.
Proof. exact (normalise_relative_match raw g1 u secs k). Qed.

(** C1 (failing input).  On ["2000000000 d"] the relative branch builds
    [timedelta(days=2000000000)], which raises [OverflowError]; nothing
    catches it, so the call raises whatever the clock and [dateutil] do. *)
Theorem relative_overflow_escapes k :
  parse_facebook_datetime clock dateutil_parse (Some "2000000000 d") k
  = (Raise OverflowError, k).
Proof. vm_compute. reflexivity. Qed.

(** The extent of that defect: whenever the leftmost relative token asks
    for an instant before year 1, the call raises [OverflowError]. *)
Theorem relative_before_year_one_raises raw g1 u secs k :
  Re.search_relative (Str.lower (Str.strip raw)) = Some (g1, u) ->
  (String.length g1 <= Num.MAX_STR_DIGITS)%nat ->
  In (u, secs) unit_table ->
  clock k - Str.digits_value g1 * secs * 1000000 < DateTime.MIN_US ->
  exists k',
    parse_facebook_datetime clock dateutil_parse (Some raw) k
    = (Raise OverflowError, k').
Proof.
  intros Hs Hlen Hu Hlo.
  destruct (branch_relative_before_year_one _ _ _ _ k Hs Hlen Hu Hlo) as (k' & Hr).
  destruct (earlier_branches_decline _ _ k Hs) as [Hnow Hepoch].
  exists k'.
  pose proof (search_relative_nonempty raw _ Hs) as Hne.
  unfold parse_facebook_datetime. destruct raw as [|c raw']; [congruence|].
  unfold or_else, bind. rewrite Hnow. cbv beta iota. rewrite Hepoch.
  cbv beta iota. rewrite Hr. reflexivity.
Qed.

End Cascade.

(** *** A string that is one token *)

Section WholeToken.

Lemma space_lower_char c : Str.is_space (Str.lower_char c) = Str.is_space c.
Proof. destruct c as [[] [] [] [] [] [] [] []]; reflexivity. Qed.

Lemma lower_lstrip s :
  Str.lower (Str.lstrip_by Str.is_space s) = Str.lstrip_by Str.is_space (Str.lower s).
Proof.
  induction s as [|c s IH]; simpl; [reflexivity|].
  rewrite space_lower_char. now destruct (Str.is_space c).
Qed.

Lemma lower_rstrip s :
  Str.lower (Str.rstrip_by Str.is_space s) = Str.rstrip_by Str.is_space (Str.lower s).
Proof.
  induction s as [|c s IH]; simpl; [reflexivity|].
  rewrite <- IH, space_lower_char.
  destruct (Str.rstrip_by Str.is_space s); simpl; [|reflexivity].
  now destruct (Str.is_space c).
Qed.

Lemma lower_strip s : Str.lower (Str.strip s) = Str.strip (Str.lower s).
Proof. unfold Str.strip. now rewrite lower_rstrip, lower_lstrip. Qed.

Lemma append_assoc s t u : (s +:+ t) +:+ u = s +:+ t +:+ u.
Proof.
  induction s as [|c s IH]; [reflexivity|].
  change ((String c s +:+ t) +:+ u) with (String c ((s +:+ t) +:+ u)).
  now rewrite IH.
Qed.

Lemma rstrip_append p s t :
  Str.rstrip_by p t <> EmptyString ->
  Str.rstrip_by p (s +:+ t) = s +:+ Str.rstrip_by p t.
Proof.
  intros Ht. induction s as [|c s IH]; simpl; [reflexivity|].
  rewrite IH. destruct s; simpl; [|reflexivity].
  destruct (Str.rstrip_by p t); [congruence | reflexivity].
Qed.

(** Every spelling is matched by an alternative of the same unit; it has
    no white space at its end and does not start with a digit. *)
Lemma spelling_matched sp secs :
  In (sp, secs) unit_table ->
  (exists u, Re.spaces_then_unit sp = Some u /\ In (u, secs) unit_table)
  /\ Str.rstrip_by Str.is_space sp = sp /\ sp <> EmptyString
  /\ Re.match_relative sp = None.
Proof.
  simpl. intros H.
  repeat (destruct H as [[= <- <-] | H];
          [ split; [eexists; split; [reflexivity | simpl; tauto]
                   | repeat split; try reflexivity; discriminate ] |]).
  destruct H.
Qed.

Lemma spaces_then_spelling ws sp u :
  Str.forallb Str.is_space ws = true ->
  Re.spaces_then_unit sp = Some u ->
  Re.spaces_then_unit (ws +:+ sp) = Some u.
Proof.
  intros Hws Hu. induction ws as [|c ws IH]; [exact Hu|].
  simpl in Hws. apply andb_prop in Hws as [Hc Hws].
  change (String c ws +:+ sp) with (String c (ws +:+ sp)).
  cbn [Re.spaces_then_unit]. now rewrite Hc, (IH Hws).
Qed.

Lemma space_not_digit c : Str.is_space c = true -> Str.is_digit c = false.
Proof. destruct c as [[] [] [] [] [] [] [] []]; vm_compute; congruence. Qed.

Lemma spaces_no_match ws sp :
  Str.forallb Str.is_space ws = true -> Re.match_relative sp = None ->
  Re.match_relative (ws +:+ sp) = None.
Proof.
  intros Hws Hsp. destruct ws as [|c ws]; [exact Hsp|].
  simpl in Hws. apply andb_prop in Hws as [Hc _].
  change (String c ws +:+ sp) with (String c (ws +:+ sp)).
  cbn [Re.match_relative]. now rewrite (space_not_digit c Hc).
Qed.

(** The match on a string made of digits, white space and a spelling. *)
Lemma match_relative_token ds ws sp secs :
  ds <> EmptyString -> Str.forallb Str.is_digit ds = true ->
  Str.forallb Str.is_space ws = true ->
  In (sp, secs) unit_table ->
  exists u, Re.match_relative (ds +:+ ws +:+ sp) = Some (ds, u)
            /\ In (u, secs) unit_table.
Proof.
  intros Hne Hds Hws Hsp.
  destruct (spelling_matched sp secs Hsp) as ((u & Hu & Hin) & _ & _ & Hnm).
  exists u. split; [|exact Hin]. clear Hin Hsp.
  induction ds as [|c ds IH]; [congruence|].
  simpl in Hds. apply andb_prop in Hds as [Hc Hds].
  change (String c ds +:+ ws +:+ sp) with (String c (ds +:+ ws +:+ sp)).
  cbn [Re.match_relative]. rewrite Hc.
  destruct ds as [|d ds].
  - change (EmptyString +:+ ws +:+ sp) with (ws +:+ sp).
    now rewrite (spaces_no_match ws sp Hws Hnm), (spaces_then_spelling ws sp u Hws Hu).
  - rewrite IH; [reflexivity | discriminate | exact Hds].
Qed.

Lemma token_strip ds ws sp secs :
  ds <> EmptyString -> Str.forallb Str.is_digit ds = true ->
  In (sp, secs) unit_table ->
  Str.strip (ds +:+ ws +:+ sp) = ds +:+ ws +:+ sp.
Proof.
  intros Hne Hds Hsp.
  destruct (spelling_matched sp secs Hsp) as (_ & Hr & Hsne & _).
  unfold Str.strip.
  assert (Hl : Str.lstrip_by Str.is_space (ds +:+ ws +:+ sp) = ds +:+ ws +:+ sp).
  { destruct ds as [|c ds]; [congruence|]. simpl in Hds.
    apply andb_prop in Hds as [Hc _]. simpl. now rewrite (digit_not_space c Hc). }
  rewrite Hl.
  rewrite <- append_assoc.
  rewrite rstrip_append by (rewrite Hr; exact Hsne). now rewrite Hr.
Qed.

Variable clock : nat -> Z.
Variable dateutil_parse : Z -> string -> outcome DateTime.datetime.

(** A raw string that reads, in any letter case, [<n>], optional white
    space and a supported spelling of a unit, with the instant asked for in
    the range of [datetime]: the normaliser returns a value within one
    second of the clock reading minus [n] units. *)
Corollary relative_whole_string raw ds ws sp secs k :
  Str.lower raw = ds +:+ ws +:+ sp ->
  ds <> EmptyString -> Str.forallb Str.is_digit ds = true ->
  (String.length ds <= Num.MAX_STR_DIGITS)%nat ->
  Str.forallb Str.is_space ws = true ->
  In (sp, secs) unit_table ->
  DateTime.MIN_US <= clock k - Str.digits_value ds * secs * 1000000 ->
  clock k <= DateTime.MAX_US ->
  exists v,
    parse_facebook_datetime clock dateutil_parse (Some raw) k = (Ok (Some v), S k)
    /\ Z.abs (v * 1000000 - (clock k - Str.digits_value ds * secs * 1000000))
       <= 1000000.
Proof.
  intros Hraw Hne Hds Hlen Hws Hsp Hlo Hhi.
  destruct (match_relative_token ds ws sp secs Hne Hds Hws Hsp) as (u & Hm & Hu).
  apply (normalise_relative_match clock dateutil_parse raw ds u secs k);
    try assumption.
  rewrite lower_strip, Hraw, (token_strip ds ws sp secs Hne Hds Hsp).
  destruct ds as [|c ds]; [congruence|].
  change (String c ds +:+ ws +:+ sp) with (String c (ds +:+ ws +:+ sp)) in *.
  cbn [Re.search_relative]. now rewrite Hm.
Qed.

End WholeToken.


(** The normaliser on an absent or empty string, on the keyword and on an
    epoch in milliseconds. *)
Example normalise_samples :
  parse_facebook_datetime example_clock example_dateutil None 0%nat = (Ok None, 0%nat)
  /\ parse_facebook_datetime example_clock example_dateutil (Some "") 0%nat
     = (Ok None, 0%nat)
  /\ parse_facebook_datetime example_clock example_dateutil (Some " NOW ") 0%nat
     = (Ok (Some 1762000000), 1%nat)
  /\ parse_facebook_datetime example_clock example_dateutil (Some "171535229900") 0%nat
     = (Ok (Some 171535229), 0%nat)
  /\ parse_facebook_datetime example_clock example_dateutil (Some "3 hours") 0%nat
     = (Ok (Some (1762000000 - 3 * 3600)), 1%nat)
  /\ parse_facebook_datetime example_clock example_dateutil (Some "yesterday") 0%nat
     = (Ok None, 1%nat).
Proof. repeat split; vm_compute; reflexivity. Qed.

Lemma relative_leftmost_token_witness :
  exists v,
    parse_facebook_datetime example_clock example_dateutil (Some "Posted 3 Hrs ago") 0%nat
    = (Ok (Some v), 1%nat)
    /\ Z.abs (v * 1000000 - (example_clock 0%nat - 3 * 3600 * 1000000)) <= 1000000.
Proof.
  apply (relative_leftmost_token example_clock example_dateutil
           "Posted 3 Hrs ago" "3" "h" 3600 0%nat).
  - reflexivity.
  - vm_compute. lia.
  - simpl. tauto.
  - vm_compute. discriminate.
  - vm_compute. discriminate.
Defined.

(** C3 (counterexample).  In ["2 shares 3hrs"] the token ["3hrs"] occurs,
    but the leftmost match of the pattern is ["2 s"]: the normaliser
    returns the clock reading minus two seconds, which is not within a
    second of the reading minus three hours. *)
Lemma relative_token_anywhere_fails :
  ~ relative_token_anywhere example_clock example_dateutil.
Proof.
  intros H.
  destruct (H "2 shares " "3" "hrs" "" 3600 0%nat) as (v & Hv & Hb).
  - reflexivity.
  - reflexivity.
  - simpl. tauto.
  - vm_compute in Hv. injection Hv as <-. vm_compute in Hb. apply Hb. reflexivity.
Qed.

(** ** Properties of attachment extraction *)

Section Deduplication.

Implicit Types (seen : gset (string * string)) (atts : list Attachment).

Lemma fresh_after_insert seen (k k' : string * string) :
  k' ∉ {[ k ]} ∪ seen <-> (k <> k' /\ (k' ∉ seen)).
Proof.
  rewrite elem_of_union, elem_of_singleton. split.
  - intros H. split; [intros ->; apply H; by left | intros ?; apply H; by right].
  - intros [Hne Hs] [-> | ?]; [by apply Hne | by apply Hs].
Qed.

(** The loop computes [dedup_from]. *)
Lemma foldl_dedup_step seen acc atts :
  (foldl dedup_step (seen, acc) atts).2 = acc ++ dedup_from seen atts.
Proof.
  revert seen acc. induction atts as [|att atts IH]; intros seen acc; simpl.
  - by rewrite app_nil_r.
  - unfold dedup_step at 2. simpl. fold (att_key att).
    destruct (decide (att_key att ∈ seen)); [apply IH|].
    rewrite IH. by rewrite <- app_assoc.
Qed.

Lemma deduplicate_dedup_from atts : deduplicate atts = dedup_from ∅ atts.
Proof. unfold deduplicate. by rewrite foldl_dedup_step. Qed.

Lemma dedup_from_sublist seen atts : sublist (dedup_from seen atts) atts.
Proof.
  revert seen. induction atts as [|att atts IH]; intros seen; simpl.
  - constructor.
  - destruct (decide _); [apply sublist_cons | apply sublist_skip]; apply IH.
Qed.

Lemma dedup_from_fresh seen atts att :
  att ∈ dedup_from seen atts -> att_key att ∉ seen.
Proof.
  revert seen. induction atts as [|a atts IH]; intros seen; simpl.
  - by intros ?%elem_of_nil.
  - destruct (decide _) as [|Hn]; [apply IH|].
    intros [-> | Hin%IH]%elem_of_cons; [done | by apply fresh_after_insert in Hin as [_ ?]].
Qed.

Lemma dedup_from_NoDup seen atts : NoDup (att_key <$> dedup_from seen atts).
Proof.
  revert seen. induction atts as [|a atts IH]; intros seen; simpl.
  - constructor.
  - destruct (decide _); [apply IH|]. rewrite fmap_cons. constructor; [|apply IH].
    intros (b & Hk & Hb%dedup_from_fresh)%list_elem_of_fmap.
    by apply fresh_after_insert in Hb as [? _].
Qed.

Lemma dedup_from_idempotent seen atts :
  dedup_from seen (dedup_from seen atts) = dedup_from seen atts.
Proof.
  revert seen. induction atts as [|a atts IH]; intros seen; simpl; [done|].
  destruct (decide (att_key a ∈ seen)) as [|Hn]; [apply IH|].
  simpl. destruct (decide (att_key a ∈ seen)); [done|]. by rewrite IH.
Qed.

(** What is kept is what comes first with its key, among the keys not yet
    seen. *)
Lemma dedup_from_first seen atts att :
  att ∈ dedup_from seen atts <-> ((att_key att ∉ seen) /\ first_with_key atts att).
Proof.
  revert seen. induction atts as [|a atts IH]; intros seen; simpl.
  - split; [by intros ?%elem_of_nil | by intros [_ (i & ? & _)]].
  - destruct (decide (att_key a ∈ seen)) as [Hin|Hn].
    + rewrite IH. split.
      * intros [Hf (i & Hi & Hlt)]. split; [done|]. exists (S i). split; [done|].
        intros [|j] other Hj Ho; simpl in Ho.
        -- injection Ho as <-. congruence.
        -- apply (Hlt j); [lia | done].
      * intros [Hf (i & Hi & Hlt)]. split; [done|].
        destruct i as [|i]; simpl in Hi; [injection Hi as ->; done|].
        exists i. split; [done|]. intros j other Hj Ho.
        apply (Hlt (S j)); [lia | done].
    + rewrite elem_of_cons, IH. split.
      * intros [-> | [Hf (i & Hi & Hlt)]].
        -- split; [done|]. exists 0%nat. split; [done|]. intros; lia.
        -- apply fresh_after_insert in Hf as [Hne Hf].
           split; [done|]. exists (S i). split; [done|].
           intros [|j] other Hj Ho; simpl in Ho.
           ++ by injection Ho as <-.
           ++ apply (Hlt j); [lia | done].
      * intros [Hf (i & Hi & Hlt)].
        destruct i as [|i]; simpl in Hi; [injection Hi as ->; by left|].
        right. split.
        -- apply fresh_after_insert. split; [|done].
           apply (Hlt 0%nat); [lia | done].
        -- exists i. split; [done|]. intros j other Hj Ho.
           apply (Hlt (S j)); [lia | done].
Qed.

Lemma dedup_from_app seen atts1 atts2 :
  dedup_from seen (atts1 ++ atts2)
  = dedup_from seen atts1
    ++ dedup_from (list_to_set (att_key <$> atts1) ∪ seen) atts2.
Proof.
  revert seen. induction atts1 as [|a atts1 IH]; intros seen; simpl.
  - f_equal. by rewrite (left_id_L ∅ (∪)).
  - destruct (decide (att_key a ∈ seen)) as [Hin|Hn].
    + rewrite IH. do 2 f_equal. apply set_eq. intros x.
      rewrite !elem_of_union, elem_of_singleton.
      split; [intros [? | ?]; auto | intros [[-> | ?] | ?]; auto].
    + simpl. rewrite IH. do 3 f_equal. apply set_eq. intros x.
      rewrite !elem_of_union. tauto.
Qed.

(** One more entry at the end is kept exactly when its key has not
    occurred, and then it comes last. *)
Lemma dedup_from_snoc atts att :
  dedup_from ∅ (atts ++ [att])
  = dedup_from ∅ atts
    ++ (if decide (att_key att ∈ att_key <$> atts) then [] else [att]).
Proof.
  rewrite dedup_from_app. f_equal. simpl.
  destruct (decide (att_key att ∈ list_to_set (att_key <$> atts) ∪ ∅)) as [Hin|Hn];
    destruct (decide (att_key att ∈ att_key <$> atts)) as [Hin'|Hn']; try done.
  - exfalso. apply Hn'. apply elem_of_union in Hin as [Hin|Hin].
    + by apply elem_of_list_to_set in Hin.
    + by apply elem_of_empty in Hin.
  - exfalso. apply Hn. apply elem_of_union. left. by apply elem_of_list_to_set.
Qed.

Lemma first_at_cons a atts i x :
  att_key a <> att_key x -> first_at atts i x -> first_at (a :: atts) (S i) x.
Proof.
  intros Hne [Hi Hlt]. split; [done|].
  intros [|m] other Hm Ho; simpl in Ho.
  - by injection Ho as <-.
  - apply (Hlt m); [lia | done].
Qed.

(** The entries kept stand in the order of their first occurrences. *)
Lemma dedup_from_order seen atts i j x y :
  (i < j)%nat ->
  dedup_from seen atts !! i = Some x -> dedup_from seen atts !! j = Some y ->
  exists i' j', (i' < j')%nat /\ first_at atts i' x /\ first_at atts j' y.
Proof.
  revert seen i j. induction atts as [|a atts IH]; intros seen i j Hij; simpl.
  - by rewrite lookup_nil.
  - destruct (decide (att_key a ∈ seen)) as [Hin|Hn].
    + intros Hx Hy.
      pose proof (dedup_from_fresh _ _ _ (list_elem_of_lookup_2 _ _ _ Hx)) as Hfx.
      pose proof (dedup_from_fresh _ _ _ (list_elem_of_lookup_2 _ _ _ Hy)) as Hfy.
      destruct (IH seen i j Hij Hx Hy) as (i' & j' & Hlt & Hi' & Hj').
      exists (S i'), (S j'). split; [lia|].
      split; apply first_at_cons; congruence || done.
    + destruct i as [|i], j as [|j]; try lia; simpl.
      * intros [= <-] Hy.
        apply list_elem_of_lookup_2, dedup_from_first in Hy as [Hfy (j' & Hj')].
        apply fresh_after_insert in Hfy as [Hne _].
        exists 0%nat, (S j'). split; [lia|]. split.
        -- split; [done|]. intros; lia.
        -- by apply first_at_cons.
      * intros Hx Hy.
        pose proof (dedup_from_fresh _ _ _ (list_elem_of_lookup_2 _ _ _ Hx)) as Hfx.
        pose proof (dedup_from_fresh _ _ _ (list_elem_of_lookup_2 _ _ _ Hy)) as Hfy.
        apply fresh_after_insert in Hfx as [Hnx _].
        apply fresh_after_insert in Hfy as [Hny _].
        destruct (IH _ i j ltac:(lia) Hx Hy) as (i' & j' & Hlt & Hi' & Hj').
        exists (S i'), (S j'). split; [lia|]. split; by apply first_at_cons.
Qed.

End Deduplication.

(** C6.  Deduplication keyed on (type, url) is idempotent and keeps the
    first occurrence of each key, in the order of first appearance: an
    entry added at the end of the input is kept, at the end, exactly when
    no entry before it has its key; two entries of the output stand in the
    order of the places where their keys first occur in the input; the
    output is a subsequence of the input without repeated key, made of
    exactly the entries that come first with their key. *)
Theorem deduplicate_first_occurrences (atts : list Attachment) :
  deduplicate (deduplicate atts) = deduplicate atts
  /\ sublist (deduplicate atts) atts
  /\ NoDup (att_key <$> deduplicate atts)
  /\ (forall att, att ∈ deduplicate atts <-> first_with_key atts att)
  /\ (forall att,
        deduplicate (atts ++ [att])
        = deduplicate atts
          ++ (if decide (att_key att ∈ att_key <$> atts) then [] else [att]))
  /\ (forall i j x y,
        (i < j)%nat ->
        deduplicate atts !! i = Some x -> deduplicate atts !! j = Some y ->
        exists i' j', (i' < j')%nat /\ first_at atts i' x /\ first_at atts j' y).
Proof.
  split; [|split; [|split; [|split; [|split]]]].
  - rewrite !deduplicate_dedup_from. apply dedup_from_idempotent.
  - rewrite deduplicate_dedup_from. apply dedup_from_sublist.
  - rewrite deduplicate_dedup_from. apply dedup_from_NoDup.
  - intros att. rewrite deduplicate_dedup_from. split.
    + by intros [_ ?]%dedup_from_first.
    + intros. apply dedup_from_first. split; [apply not_elem_of_empty | done].
  - intros att. rewrite !deduplicate_dedup_from. apply dedup_from_snoc.
  - intros i j x y. rewrite deduplicate_dedup_from. apply dedup_from_order.
Qed.

(** Three entries, the first and the last with the same key: the first
    one is kept, before the second. *)
Example deduplicate_keeps_first :
  deduplicate [Image "a.png" "one"; Link "b" "text"; Image "a.png" "two"]
  = [Image "a.png" "one"; Link "b" "text"].
Proof. vm_compute. reflexivity. Qed.

Section ImagesBeforeLinks.

Lemma Forall_of_sublist {A} (P : A -> Prop) (k l : list A) :
  Forall P l -> sublist k l -> Forall P k.
Proof.
  intros Hl Hs. induction Hs as [|x k l _ IH|x k l _ IH].
  - constructor.
  - inversion Hl; subst. constructor; auto.
  - inversion Hl; subst. auto.
Qed.

Lemma image_attachments_type div :
  Forall (fun att => att_type att = "image") (image_attachments div).
Proof.
  apply Forall_forall. intros att (img & _ & H)%list_elem_of_omap.
  destruct (truthy_str _); [by injection H as <- | done].
Qed.

Lemma link_attachments_type div :
  Forall (fun att => att_type att = "link") (link_attachments div).
Proof.
  apply Forall_forall. intros att (a & _ & H)%list_elem_of_omap. cbv zeta in H.
  repeat (destruct (_ : bool) in H; [done|]). by injection H as <-.
Qed.

End ImagesBeforeLinks.

(** C10.  The attachments of a container are its images followed by its
    links: every image comes at a smaller index than every link, and each
    of the two runs keeps the order of the elements in the document. *)
Theorem images_precede_links (div : Bs4.node) :
  (forall i j img lnk,
     _extract_attachments div !! i = Some img -> att_type img = "image" ->
     _extract_attachments div !! j = Some lnk -> att_type lnk = "link" ->
     (i < j)%nat)
  /\ exists imgs links,
       _extract_attachments div = imgs ++ links
       /\ Forall (fun att => att_type att = "image") imgs
       /\ Forall (fun att => att_type att = "link") links
       /\ sublist imgs (image_attachments div)
       /\ sublist links (link_attachments div).
Proof.
  assert (Hsplit : exists imgs links,
             _extract_attachments div = imgs ++ links
             /\ Forall (fun att => att_type att = "image") imgs
             /\ Forall (fun att => att_type att = "link") links
             /\ sublist imgs (image_attachments div)
             /\ sublist links (link_attachments div)).
  { unfold _extract_attachments.
    rewrite deduplicate_dedup_from, dedup_from_app.
    eexists _, _. split; [reflexivity|].
    pose proof (dedup_from_sublist ∅ (image_attachments div)) as Hi.
    pose proof (dedup_from_sublist
                  (list_to_set (att_key <$> image_attachments div) ∪ ∅)
                  (link_attachments div)) as Hl.
    repeat split; try assumption.
    - eapply Forall_of_sublist; [apply image_attachments_type | exact Hi].
    - eapply Forall_of_sublist; [apply link_attachments_type | exact Hl]. }
  split; [|exact Hsplit].
  destruct Hsplit as (imgs & links & -> & Himgs & Hlinks & _).
  intros i j img lnk Hi Timg Hj Tlnk.
  destruct (decide (i < List.length imgs)%nat) as [Hlt|Hge].
  - destruct (decide (j < List.length imgs)%nat) as [Hjlt|]; [|lia].
    rewrite lookup_app_l in Hj by done.
    apply list_elem_of_lookup_2 in Hj.
    rewrite Forall_forall in Himgs. specialize (Himgs _ Hj). congruence.
  - rewrite lookup_app_r in Hi by lia.
    apply list_elem_of_lookup_2 in Hi.
    rewrite Forall_forall in Hlinks. specialize (Hlinks _ Hi). congruence.
Qed.

(** An anchor that comes before an image in the document comes after it in
    the attachments; the second image has the key of the first and is
    dropped, whatever its [alt]. *)
Example link_before_image_in_document :
  _extract_attachments
    (Bs4.Tag "div" ∅
       [ Bs4.Tag "a" {[ "href" := "/groups/g/files/1" ]} [Bs4.NavigableString " file "];
         Bs4.Tag "img" (<[ "alt" := "pic" ]> {[ "src" := "https://cdn/1.png" ]}) [];
         Bs4.Tag "p" ∅
           [ Bs4.Tag "img" (<[ "alt" := "again" ]> {[ "src" := "https://cdn/1.png" ]}) [];
             Bs4.Tag "img" {[ "alt" := "no source" ]} [];
             Bs4.Tag "a" {[ "href" := "https://www.facebook.com/someone" ]}
               [Bs4.NavigableString "profile"] ] ])
  = [ Image "https://cdn/1.png" "pic";
      Link "https://www.facebook.com/groups/g/files/1" "file" ].
Proof. vm_compute. reflexivity. Qed.

(** ** Properties of engagement extraction *)

Section CharactersKept.

(** The string operations of [parse_count] keep within the characters of
    their argument. *)
Variable P : ascii -> bool.

Lemma forallb_lstrip_by q s :
  Str.forallb P s = true -> Str.forallb P (Str.lstrip_by q s) = true.
Proof.
  induction s as [|c s IH]; simpl; [done|].
  intros [Hc Hs]%andb_prop. destruct (q c); [auto|]. simpl. by rewrite Hc, Hs.
Qed.

Lemma forallb_rstrip_by q s :
  Str.forallb P s = true -> Str.forallb P (Str.rstrip_by q s) = true.
Proof.
  induction s as [|c s IH]; simpl; [done|].
  intros [Hc Hs]%andb_prop. specialize (IH Hs).
  destruct (Str.rstrip_by q s).
  - destruct (q c); simpl; [done | by rewrite Hc].
  - simpl in *. by rewrite Hc, IH.
Qed.

Lemma forallb_strip s :
  Str.forallb P s = true -> Str.forallb P (Str.strip s) = true.
Proof. intros H. by apply forallb_rstrip_by, forallb_lstrip_by. Qed.

Lemma forallb_remove_char c s :
  Str.forallb P s = true -> Str.forallb P (Str.remove_char c s) = true.
Proof.
  induction s as [|d s IH]; simpl; [done|].
  intros [Hd Hs]%andb_prop. destruct (Ascii.eqb c d); [auto|]. simpl.
  by rewrite Hd, IH.
Qed.

Lemma forallb_of_list l :
  Forall (fun c => P c = true) l ->
  Str.forallb P (string_of_list_ascii l) = true.
Proof.
  induction 1 as [|c l Hc _ IH]; simpl; [done|]. by rewrite Hc, IH.
Qed.

Lemma forallb_split_aux sep skip cur s :
  Forall (fun c => P c = true) cur -> Str.forallb P s = true ->
  Forall (fun p => Str.forallb P p = true) (Str.split_aux sep skip cur s).
Proof.
  revert skip cur. induction s as [|c s IH]; intros skip cur Hcur Hs.
  - constructor; [|constructor]. by apply forallb_of_list, Forall_rev.
  - cbn [Str.split_aux]. simpl in Hs. apply andb_prop in Hs as [Hc Hs].
    destruct skip as [|skip]; [|by apply IH].
    destruct (String.prefix sep (String c s)).
    + constructor; [by apply forallb_of_list, Forall_rev | by apply IH].
    + apply IH; [by constructor | done].
Qed.

Lemma forallb_split_ws_aux cur s :
  Forall (fun c => P c = true) cur -> Str.forallb P s = true ->
  Forall (fun p => Str.forallb P p = true) (Str.split_ws_aux cur s).
Proof.
  revert cur. induction s as [|c s IH]; intros cur Hcur Hs.
  - cbn [Str.split_ws_aux]. destruct cur; constructor; [|constructor].
    by apply forallb_of_list, Forall_rev.
  - cbn [Str.split_ws_aux]. simpl in Hs. apply andb_prop in Hs as [Hc Hs].
    destruct (Str.is_space c).
    + apply Forall_app. split; [|by apply IH].
      destruct cur; constructor; [|constructor].
      by apply forallb_of_list, Forall_rev.
    + apply IH; [by constructor | done].
Qed.

(** The token [parse_count] reads is made of characters of the text. *)
Lemma forallb_token lowered label tok :
  Str.forallb P lowered = true ->
  last (Str.split_ws (hd EmptyString (Str.split label lowered))) = Some tok ->
  Str.forallb P tok = true.
Proof.
  intros Hl Hlast.
  pose proof (forallb_split_aux label O [] lowered (Forall_nil_2 _) Hl) as Hsp.
  fold (Str.split label lowered) in Hsp.
  assert (Hhd : Str.forallb P (hd EmptyString (Str.split label lowered)) = true).
  { destruct Hsp; [done | done]. }
  pose proof (forallb_split_ws_aux [] _ (Forall_nil_2 _) Hhd) as Hws.
  rewrite Forall_forall in Hws. apply Hws.
  rewrite last_Some in Hlast. destruct Hlast as [l' Heq].
  unfold Str.split_ws in Heq. rewrite Heq.
  apply elem_of_app. right. by apply list_elem_of_singleton.
Qed.

End CharactersKept.

Section SignOfCounts.

Lemma digitpart_aux_digits b s r :
  Num.digitpart_aux b s = Some r -> Str.forallb Str.is_digit r = true.
Proof.
  revert b r. induction s as [|c s IH]; intros b r; cbn [Num.digitpart_aux].
  - destruct b; [by intros [= <-] | done].
  - destruct (Str.is_digit c) eqn:Hc.
    + destruct (Num.digitpart_aux true s) eqn:Hr; [|done].
      intros [= <-]. simpl. by rewrite Hc, (IH _ _ Hr).
    + destruct (Ascii.eqb c "_"); [|done]. destruct b; [apply IH | done].
Qed.

Lemma digits_value_nonneg s :
  Str.forallb Str.is_digit s = true -> 0 <= Str.digits_value s.
Proof. intros H. by apply digits_value_from_nonneg. Qed.

Lemma forallb_append (Q : ascii -> bool) s t :
  Str.forallb Q s = true -> Str.forallb Q t = true ->
  Str.forallb Q (s +:+ t) = true.
Proof.
  induction s as [|c s IH]; simpl; [done|].
  intros [Hc Hs]%andb_prop Ht. by rewrite Hc, IH.
Qed.

Lemma split_sign_no_minus s :
  no_minus s = true -> (Num.split_sign s).1 = false.
Proof.
  destruct s as [|c s]; [done|]. unfold no_minus. simpl.
  intros [Hc _]%andb_prop.
  destruct c as [[] [] [] [] [] [] [] []]; try reflexivity; discriminate.
Qed.

Lemma int_of_str_nonneg s n :
  no_minus s = true -> Num.int_of_str s = Ok n -> 0 <= n.
Proof.
  intros Hs. unfold Num.int_of_str.
  pose proof (split_sign_no_minus _ (forallb_strip _ _ Hs)) as Hsign.
  destruct (Num.split_sign (Str.strip s)) as [neg body]. simpl in Hsign. subst neg.
  unfold Num.digitpart. destruct (Num.digitpart_aux false body) eqn:Hd; [|done].
  destruct (_ <? _)%nat; [done|].
  intros [= <-]. eapply digits_value_nonneg, digitpart_aux_digits, Hd.
Qed.

Lemma round_b64_nonneg p q :
  0 <= p -> 0 < q -> nonneg_float (Num.round_b64 false p q).
Proof.
  intros Hp Hq. unfold Num.round_b64.
  destruct (p =? 0); [simpl; lia|]. cbv zeta.
  assert (Hsc : 0 <= (Num.scaled p q (Num.exponent_for p q)).1
                /\ 0 < (Num.scaled p q (Num.exponent_for p q)).2).
  { unfold Num.scaled. destruct (Z.leb_spec 0 (Num.exponent_for p q)); simpl.
    - split; [lia|]. apply Z.mul_pos_pos; [lia|]. by apply Z.pow_pos_nonneg.
    - split; [|lia]. apply Z.mul_nonneg_nonneg; [lia|]. apply Z.pow_nonneg. lia. }
  destruct (Num.scaled p q (Num.exponent_for p q)) as [n d]. simpl in Hsc.
  destruct (1024 <=? _); [done|]. simpl. split; [done|].
  assert (0 <= n / d) by (apply Z.div_pos; lia).
  destruct (_ || _); lia.
Qed.

Lemma fmul_pos_nonneg x n :
  0 < n -> nonneg_float x -> nonneg_float (Num.fmul_pos x n).
Proof.
  intros Hn. destruct x as [|s|s m e]; simpl; [done | done |].
  intros [-> Hm]. destruct (Z.leb_spec 0 e).
  - apply round_b64_nonneg; [|lia].
    apply Z.mul_nonneg_nonneg; [nia | apply Z.pow_nonneg; lia].
  - apply round_b64_nonneg; [nia|]. apply Z.pow_pos_nonneg; lia.
Qed.

Lemma int_of_float_nonneg x n :
  nonneg_float x -> Num.int_of_float x = Ok n -> 0 <= n.
Proof.
  destruct x as [|s|s m e]; simpl; [done | done |].
  intros [-> Hm] [= <-]. destruct (Z.leb_spec 0 e).
  - apply Z.mul_nonneg_nonneg; [done | apply Z.pow_nonneg; lia].
  - apply Z.div_pos; [done|]. apply Z.pow_pos_nonneg; lia.
Qed.

Lemma decimal_literal_digits s ds x :
  Num.decimal_literal s = Some (ds, x) -> Str.forallb Str.is_digit ds = true.
Proof.
  unfold Num.decimal_literal, Num.digitpart.
  destruct (Num.split_at_char "e" s) as [[m xs]|].
  - destruct (Num.split_sign xs) as [neg xd].
    destruct (Num.digitpart_aux false xd); [|done].
    destruct (Num.split_at_char "." m) as [[ip fp]|].
    + destruct ip, fp; try done.
      * destruct (Num.digitpart_aux false (String _ _)) eqn:H1; [|done].
        intros [= <- _]. eapply digitpart_aux_digits, H1.
      * destruct (Num.digitpart_aux false (String _ _)) eqn:H1; [|done].
        intros [= <- _]. eapply digitpart_aux_digits, H1.
      * destruct (Num.digitpart_aux false (String a ip)) eqn:H1; [|done].
        destruct (Num.digitpart_aux false (String a0 fp)) eqn:H2; [|done].
        intros [= <- _].
        apply forallb_append; eapply digitpart_aux_digits; eassumption.
    + destruct (Num.digitpart_aux false m) eqn:H1; [|done].
      intros [= <- _]. eapply digitpart_aux_digits, H1.
  - destruct (Num.split_at_char "." s) as [[ip fp]|].
    + destruct ip, fp; try done.
      * destruct (Num.digitpart_aux false (String _ _)) eqn:H1; [|done].
        intros [= <- _]. eapply digitpart_aux_digits, H1.
      * destruct (Num.digitpart_aux false (String _ _)) eqn:H1; [|done].
        intros [= <- _]. eapply digitpart_aux_digits, H1.
      * destruct (Num.digitpart_aux false (String a ip)) eqn:H1; [|done].
        destruct (Num.digitpart_aux false (String a0 fp)) eqn:H2; [|done].
        intros [= <- _].
        apply forallb_append; eapply digitpart_aux_digits; eassumption.
    + destruct (Num.digitpart_aux false s) eqn:H1; [|done].
      intros [= <- _]. eapply digitpart_aux_digits, H1.
Qed.

Lemma float_of_str_nonneg s x :
  no_minus s = true -> Num.float_of_str s = Ok x -> nonneg_float x.
Proof.
  intros Hs. unfold Num.float_of_str.
  pose proof (split_sign_no_minus _ (forallb_strip _ _ Hs)) as Hsign.
  destruct (Num.split_sign (Str.strip s)) as [neg body]. simpl in Hsign. subst neg.
  destruct (_ || _); [by intros [= <-]|].
  destruct (String.eqb body "nan"); [by intros [= <-]|].
  destruct (Num.decimal_literal body) as [[ds e]|] eqn:Hd; [|done].
  pose proof (digits_value_nonneg _ (decimal_literal_digits _ _ _ Hd)) as Hv.
  intros [= <-]. destruct (Z.leb_spec 0 e).
  - apply round_b64_nonneg; [|lia].
    apply Z.mul_nonneg_nonneg; [done | apply Z.pow_nonneg; lia].
  - apply round_b64_nonneg; [done|]. apply Z.pow_pos_nonneg; lia.
Qed.

End SignOfCounts.

Section ParseCount.

Lemma lower_char_minus c :
  Ascii.eqb (Str.lower_char c) "-" = Ascii.eqb c "-".
Proof. destruct c as [[] [] [] [] [] [] [] []]; reflexivity. Qed.

Lemma lower_no_minus s : no_minus s = true -> no_minus (Str.lower s) = true.
Proof.
  unfold no_minus. induction s as [|c s IH]; simpl; [done|].
  intros [Hc Hs]%andb_prop. by rewrite lower_char_minus, Hc, IH.
Qed.

Lemma int_of_float_raises x e :
  Num.int_of_float x = Raise e -> e = ValueError \/ e = OverflowError.
Proof. destruct x; simpl; intros [= <-]; auto. Qed.

(** The only exception [parse_count] lets out is the [OverflowError] of
    [int()] on an infinite float. *)
Lemma parse_count_raises text label e :
  parse_count text label = Raise e -> e = OverflowError.
Proof.
  unfold parse_count. destruct (negb _); [done|].
  destruct (last _) as [tok|]; [|done].
  destruct (Str.contains "k" tok).
  - destruct (Num.float_of_str _) as [x|e'] eqn:Hf.
    + destruct (Num.int_of_float _) as [n|e1] eqn:Hi; [done|].
      destruct (int_of_float_raises _ _ Hi) as [-> | ->]; [done | by intros [= <-]].
    + unfold Num.float_of_str in Hf.
      destruct (Num.split_sign _) as [neg body].
      destruct (_ || _); [done|]. destruct (String.eqb body "nan"); [done|].
      destruct (Num.decimal_literal body) as [[ds x]|]; [done|].
      by injection Hf as <-.
  - unfold Num.int_of_str. destruct (Num.split_sign _) as [neg body].
    destruct (Num.digitpart body); [|done]. by destruct (_ <? _)%nat.
Qed.

(** A text without a minus sign gives no negative count. *)
Lemma parse_count_nonneg text label n :
  no_minus text = true -> parse_count text label = Ok (Some n) -> 0 <= n.
Proof.
  intros Ht%lower_no_minus. unfold parse_count. destruct (negb _); [done|].
  destruct (last _) as [tok|] eqn:Hlast; [|done].
  pose proof (forallb_token _ _ _ _ Ht Hlast) as Htok. fold (no_minus tok) in Htok.
  destruct (Str.contains "k" tok).
  - destruct (Num.float_of_str _) as [x|e] eqn:Hf; [|by destruct e].
    apply float_of_str_nonneg in Hf; [|by apply forallb_remove_char].
    destruct (Num.int_of_float _) as [m|e] eqn:Hi; [|by destruct e].
    intros [= <-]. eapply int_of_float_nonneg; [|exact Hi].
    by apply fmul_pos_nonneg.
  - destruct (Num.int_of_str tok) as [m|e] eqn:Hi; [|by destruct e].
    intros [= <-]. by eapply int_of_str_nonneg.
Qed.

Lemma parse_count_absent text label :
  Str.contains label (Str.lower text) = false -> parse_count text label = Ok None.
Proof. intros H. unfold parse_count. by rewrite H. Qed.

(** [parse_count] reads the token before the label: its number when it
    parses, nothing when it does not. *)
Lemma parse_count_token text label :
  parse_count text label
  = match token_before text label with
    | None => Ok None
    | Some tok =>
        match token_number tok with
        | Ok n => Ok (Some n)
        | Raise ValueError => Ok None
        | Raise e => Raise e
        end
    end.
Proof.
  unfold parse_count, token_before, token_number. cbv zeta.
  destruct (Str.contains label (Str.lower text)); [|reflexivity].
  cbn [negb]. by destruct (last _).
Qed.

Lemma count_alone_token text label :
  count_alone text label
  = match token_before text label with
    | None => 0
    | Some tok =>
        match token_number tok with
        | Ok n => n
        | Raise _ => 0
        end
    end.
Proof.
  unfold count_alone. rewrite parse_count_token.
  destruct (token_before text label) as [tok|]; [|reflexivity].
  by destruct (token_number tok) as [n|[]].
Qed.

Lemma count_alone_nonneg text label :
  no_minus text = true -> 0 <= count_alone text label.
Proof.
  intros Ht. unfold count_alone.
  destruct (parse_count text label) as [[n|]|] eqn:Hp; [|done|done].
  by eapply parse_count_nonneg.
Qed.

End ParseCount.

(** C5 (amended).  Unless a count token overflows the conversion to an
    integer, every container gets its three counts; each is what
    [parse_count] finds for its own label alone: the number of the token
    before the label when that token parses, and 0 when the label does not
    occur in the text, when no token stands before it, or when the token
    does not parse.  None is negative when the text holds no minus sign. *)
Theorem engagement_counts_independent (div : Bs4.node) :
  (forall label, In label engagement_labels ->
                 parse_count (Bs4.get_text_strip " " div) label
                 <> Raise OverflowError) ->
  exists r c s,
    _extract_engagement div = Ok (r, c, s)
    /\ r = count_alone (Bs4.get_text_strip " " div) "reactions"
    /\ c = count_alone (Bs4.get_text_strip " " div) "comments"
    /\ s = count_alone (Bs4.get_text_strip " " div) "shares"
    /\ (forall label,
          Str.contains label (Str.lower (Bs4.get_text_strip " " div)) = false ->
          count_alone (Bs4.get_text_strip " " div) label = 0)
    /\ (forall label,
          token_before (Bs4.get_text_strip " " div) label = None ->
          count_alone (Bs4.get_text_strip " " div) label = 0)
    /\ (forall label tok,
          token_before (Bs4.get_text_strip " " div) label = Some tok ->
          token_number tok = Raise ValueError ->
          count_alone (Bs4.get_text_strip " " div) label = 0)
    /\ (forall label tok n,
          token_before (Bs4.get_text_strip " " div) label = Some tok ->
          token_number tok = Ok n ->
          count_alone (Bs4.get_text_strip " " div) label = n)
    /\ (no_minus (Bs4.get_text_strip " " div) = true ->
        0 <= r /\ 0 <= c /\ 0 <= s).
Proof.
  intros Hno. unfold _extract_engagement, engagement_of_text.
  set (text := Bs4.get_text_strip " " div) in *.
  assert (Hok : forall label, In label engagement_labels ->
                              exists o, parse_count text label = Ok o).
  { intros label Hin. destruct (parse_count text label) as [o|e] eqn:Hp; [eauto|].
    pose proof (parse_count_raises _ _ _ Hp) as ->. by destruct (Hno label Hin). }
  destruct (Hok "reactions") as [rc Hr]; [simpl; tauto|].
  destruct (Hok "comments") as [cc Hc]; [simpl; tauto|].
  destruct (Hok "shares") as [sc Hs]; [simpl; tauto|].
  rewrite Hr, Hc, Hs. eexists _, _, _. split; [reflexivity|].
  split; [unfold count_alone; rewrite Hr; by destruct rc|].
  split; [unfold count_alone; rewrite Hc; by destruct cc|].
  split; [unfold count_alone; rewrite Hs; by destruct sc|].
  split; [|split; [|split; [|split]]].
  - intros label Habs. unfold count_alone.
    by rewrite (parse_count_absent _ _ Habs).
  - intros label Hnone. by rewrite count_alone_token, Hnone.
  - intros label tok Htok Hval. by rewrite count_alone_token, Htok, Hval.
  - intros label tok n Htok Hval. by rewrite count_alone_token, Htok, Hval.
  - intros Hm.
    pose proof (count_alone_nonneg text "reactions" Hm) as Hn1.
    pose proof (count_alone_nonneg text "comments" Hm) as Hn2.
    pose proof (count_alone_nonneg text "shares" Hm) as Hn3.
    unfold count_alone in Hn1, Hn2, Hn3. rewrite Hr in Hn1. rewrite Hc in Hn2.
    rewrite Hs in Hn3. by destruct rc, cc, sc.
Qed.

(** C7.  A container whose visible text reads, in any letter case,
    ["1.2k reactions 340 comments 5 shares"] gets 1200 reactions, 340
    comments and 5 shares. *)
Theorem engagement_example (div : Bs4.node) :
  Str.lower (Bs4.get_text_strip " " div) = "1.2k reactions 340 comments 5 shares" ->
  _extract_engagement div = Ok (1200, 340, 5).
Proof.
  intros H. unfold _extract_engagement, engagement_of_text, parse_count.
  rewrite H. vm_compute. reflexivity.
Qed.

(** The fraction left by the float product is cut off: [1.001 * 1000] is
    the float just below 1001. *)
Example thousands_truncate :
  parse_count "1.2K likes" "likes" = Ok (Some 1200)
  /\ parse_count "1.001k likes" "likes" = Ok (Some 1000)
  /\ parse_count "3k likes" "likes" = Ok (Some 3000)
  /\ parse_count "12 likes" "likes" = Ok (Some 12)
  /\ parse_count "many likes" "likes" = Ok None
  /\ parse_count "likes" "likes" = Ok None
  /\ parse_count "12 comments" "likes" = Ok None.
Proof. repeat split; vm_compute; reflexivity. Qed.

(** ["many"] does not parse, ["3"] does, and no share is mentioned. *)
Lemma engagement_counts_independent_witness :
  exists r c s,
    _extract_engagement
      (Bs4.Tag "div" ∅ [Bs4.NavigableString "many Reactions 3 comments"])
    = Ok (r, c, s)
    /\ r = 0 /\ c = 3 /\ s = 0.
Proof.
  destruct (engagement_counts_independent
              (Bs4.Tag "div" ∅ [Bs4.NavigableString "many Reactions 3 comments"]))
    as (r & c & s & He & Hr & Hc & Hs & Habsent & _ & Hbad & Hgood & _).
  - intros label [<- | [<- | [<- | []]]]; vm_compute; discriminate.
  - exists r, c, s. split; [exact He|].
    rewrite Hr, Hc, Hs. split; [|split].
    + apply (Hbad "reactions" "many"); vm_compute; reflexivity.
    + apply (Hgood "comments" "3" 3); vm_compute; reflexivity.
    + apply (Habsent "shares"). vm_compute. reflexivity.
Defined.

Lemma engagement_example_witness :
  _extract_engagement
    (Bs4.Tag "div" ∅
       [Bs4.Tag "span" ∅ [Bs4.NavigableString " 1.2K Reactions "];
        Bs4.NavigableString "340 comments";
        Bs4.Tag "span" ∅ [Bs4.NavigableString "5 shares"]])
  = Ok (1200, 340, 5).
Proof. apply engagement_example. vm_compute. reflexivity. Defined.

(** The exception [parse_count] does not catch: the token ["1e999k"] is an
    infinite float, [int()] raises [OverflowError] on it and the three
    counts are lost together. *)
Example engagement_overflow_escapes :
  _extract_engagement
    (Bs4.Tag "div" ∅ [Bs4.NavigableString "1e999k reactions 3 comments"])
  = Raise OverflowError.
Proof. vm_compute. reflexivity. Qed.

(** C5 (counterexample).  A container whose text is ["-5 comments"] gets a
    comment count of -5. *)
Lemma engagement_counts_nonnegative_fails : ~ engagement_counts_nonnegative.
Proof.
  intros H.
  destruct (H (Bs4.Tag "div" ∅ [Bs4.NavigableString "-5 comments"]))
    as (r & c & s & He & _ & Hc & _).
  vm_compute in He. injection He as <- <- <-. lia.
Qed.

(** ** Properties of creation-time extraction *)

Section CreatedAt.

Variable clock : nat -> Z.
Variable dateutil_parse : Z -> string -> outcome DateTime.datetime.

Local Abbreviation normalise := (parse_facebook_datetime clock dateutil_parse).
Local Abbreviation first_ts := (first_timestamp clock dateutil_parse).
Local Abbreviation created_at := (_extract_created_at clock dateutil_parse).

(** The normaliser on ["now"]: one clock reading, turned into whole
    seconds. *)
Lemma normalise_now k :
  DateTime.MIN_US <= clock k <= DateTime.MAX_US ->
  exists v,
    normalise (Some "now") k = (Ok (Some v), S k)
    /\ Z.abs (v * 1000000 - clock k) <= 1000000
    /\ (1000000 <= clock k -> 1 <= v).
Proof.
  unfold DateTime.MIN_US, DateTime.MAX_US, DateTime.US_PER_SECOND. intros Hk.
  destruct (int_truediv_within_one (clock k) 1000000) as (v & Hv & Hb & Hpos);
    [lia | lia |].
  exists v. split; [|by split].
  cbv [parse_facebook_datetime or_else bind branch_now time_time read_clock ret lift].
  change (String.eqb (Str.lower (Str.strip "now")) "now") with true. cbv iota.
  unfold DateTime.US_PER_SECOND. by rewrite Hv.
Qed.

(** A timestamp the first loops return is truthy. *)
Lemma first_timestamp_truthy raws k v k' :
  first_ts raws k = (Ok (Some v), k') -> v <> 0.
Proof.
  revert k. induction raws as [|raw raws IH]; intros k; cbn [first_timestamp].
  - by intros [= ].
  - destruct (negb (truthy_str raw)); [apply IH|].
    unfold bind. destruct (normalise raw k) as [[ts|e] k1]; [|done].
    destruct (truthy_int ts) eqn:Ht; [|apply IH].
    intros [= -> ->]. simpl in Ht. by destruct (Z.eqb_spec v 0).
Qed.

(** A candidate that resolves to exactly 0 is passed over. *)
Lemma first_timestamp_skips_zero raw raws k k' :
  normalise raw k = (Ok (Some 0), k') ->
  first_ts (raw :: raws) k = first_ts raws k'.
Proof.
  intros H. cbn [first_timestamp]. destruct (truthy_str raw) eqn:Hraw.
  - cbn [negb]. unfold bind. by rewrite H.
  - destruct raw as [[|c s]|]; discriminate.
Qed.

Lemma first_timestamp_unresolved raws k :
  Forall (unresolved clock dateutil_parse) raws ->
  exists k', first_ts raws k = (Ok None, k').
Proof.
  intros H. revert k. induction H as [|raw raws Hraw _ IH]; intros k.
  - by exists k.
  - cbn [first_timestamp]. destruct (negb (truthy_str raw)); [apply IH|].
    unfold bind. destruct (Hraw k) as [k1 ->]. cbn [truthy_int]. apply IH.
Qed.

Lemma first_timestamp_returns raws k :
  Forall (never_raises clock dateutil_parse) raws ->
  exists o k', first_ts raws k = (Ok o, k').
Proof.
  intros H. revert k. induction H as [|raw raws Hraw _ IH]; intros k.
  - by exists None, k.
  - cbn [first_timestamp]. destruct (negb (truthy_str raw)); [apply IH|].
    unfold bind. destruct (Hraw k) as (ts & k1 & ->).
    destruct (truthy_int ts); [by exists ts, k1 | apply IH].
Qed.

(** When the normaliser returns [None] for each of the strings the
    attributes of a container offer, and for the container's visible text,
    [createdAt] is what the normaliser returns for ["now"]: the clock
    reading it makes then, in whole seconds. *)
Theorem created_at_falls_back_to_now (div : Bs4.node) (k : nat) :
  (forall j, DateTime.MIN_US <= clock j <= DateTime.MAX_US) ->
  Forall (unresolved clock dateutil_parse) (timestamp_candidates div) ->
  unresolved clock dateutil_parse (Some (Bs4.get_text_strip " " div)) ->
  exists k1 now,
    normalise (Some "now") k1 = (Ok (Some now), S k1)
    /\ created_at div k = (Ok now, S k1)
    /\ Z.abs (now * 1000000 - clock k1) <= 1000000.
Proof.
  intros Hclock Hattrs Htext.
  destruct (first_timestamp_unresolved _ k Hattrs) as [k0 H0].
  destruct (Htext k0) as [k1 H1].
  destruct (normalise_now k1 (Hclock k1)) as (now & Hnow & Hb & _).
  exists k1, now. split; [exact Hnow|]. split; [|exact Hb].
  unfold _extract_created_at, bind. fold (timestamp_candidates div).
  rewrite H0, H1. cbn [truthy_int]. rewrite Hnow. unfold ret. f_equal. f_equal.
  simpl. by destruct (Z.eqb_spec now 0).
Qed.

(** C8 (failing input).  A container without visible text whose only
    timestamp string is the title ["2000000000 d"]: the normaliser resolves
    none of its strings, since it returns [None] for the empty text and
    raises on the title; and [createdAt] is not what the normaliser returns
    for ["now"]: the [OverflowError] raised on the title leaves
    [_extract_created_at] before the fallback is reached, whatever the
    clock and [dateutil] do. *)
Theorem created_at_fallback_escapes (k : nat) :
  let div := Bs4.Tag "div" ∅ [Bs4.Tag "abbr" {[ "title" := "2000000000 d" ]} []] in
  timestamp_candidates div = [None; None; Some "2000000000 d"]
  /\ Bs4.get_text_strip " " div = EmptyString
  /\ (forall raw,
        raw ∈ Some (Bs4.get_text_strip " " div) :: timestamp_candidates div ->
        forall j v j', normalise raw j <> (Ok (Some v), j'))
  /\ created_at div k = (Raise OverflowError, k).
Proof.
  cbv zeta.
  change (timestamp_candidates _) with [None; None; Some "2000000000 d"].
  change (Bs4.get_text_strip " " _) with EmptyString.
  split; [reflexivity|]. split; [reflexivity|]. split.
  - intros raw Hraw j v j'.
    assert (normalise raw j = (Ok None, j)
            \/ normalise raw j = (Raise OverflowError, j)) as [-> | ->];
      [|discriminate|discriminate].
    repeat (apply elem_of_cons in Hraw as [-> | Hraw]);
      [left | left | left | right | by apply elem_of_nil in Hraw];
      vm_compute; reflexivity.
  - vm_compute. reflexivity.
Qed.

(** C9 (amended).  A candidate that the normaliser resolves to exactly 0
    is passed over; and when the clock is at least one second past the
    epoch and the normaliser raises on none of the container's strings,
    [_extract_created_at] returns a value that is not 0. *)
Theorem created_at_nonzero (div : Bs4.node) (k : nat) :
  (forall j, 1000000 <= clock j <= DateTime.MAX_US) ->
  Forall (never_raises clock dateutil_parse) (timestamp_candidates div) ->
  never_raises clock dateutil_parse (Some (Bs4.get_text_strip " " div)) ->
  (forall raw raws j j',
     normalise raw j = (Ok (Some 0), j') ->
     first_ts (raw :: raws) j = first_ts raws j')
  /\ exists v k', created_at div k = (Ok v, k') /\ v <> 0.
Proof.
  intros Hclock Hattrs Htext. split; [apply first_timestamp_skips_zero|].
  destruct (first_timestamp_returns _ k Hattrs) as (o & k0 & H0).
  unfold _extract_created_at, bind. fold (timestamp_candidates div). rewrite H0.
  destruct o as [v|].
  - exists v, k0. split; [done|]. by eapply first_timestamp_truthy.
  - destruct (Htext k0) as (ts & k1 & ->).
    destruct (truthy_int ts) eqn:Ht.
    + destruct ts as [v|]; [|done]. exists v, k1. split; [done|].
      simpl in Ht. by destruct (Z.eqb_spec v 0).
    + assert (Hk1 : DateTime.MIN_US <= clock k1 <= DateTime.MAX_US).
      { pose proof (Hclock k1). unfold DateTime.MIN_US, DateTime.US_PER_SECOND. lia. }
      destruct (normalise_now k1 Hk1) as (now & -> & _ & Hpos).
      specialize (Hpos (proj1 (Hclock k1))).
      exists now, (S k1). unfold ret. simpl.
      destruct (Z.eqb_spec now 0); [lia|]. split; [done | lia].
Qed.

End CreatedAt.

Lemma example_clock_valid j :
  1000000 <= example_clock j <= DateTime.MAX_US
  /\ DateTime.MIN_US <= example_clock j.
Proof. vm_compute. intuition discriminate. Qed.

Lemma created_at_falls_back_to_now_witness :
  exists k1 now,
    parse_facebook_datetime example_clock example_dateutil (Some "now") k1
    = (Ok (Some now), S k1)
    /\ _extract_created_at example_clock example_dateutil
         (Bs4.Tag "div" ∅
            [Bs4.Tag "span" {[ "title" := "Public" ]} [Bs4.NavigableString "Hello"]])
         0%nat
       = (Ok now, S k1)
    /\ Z.abs (now * 1000000 - example_clock k1) <= 1000000.
Proof.
  apply (created_at_falls_back_to_now example_clock example_dateutil).
  - intros j. destruct (example_clock_valid j). lia.
  - change (timestamp_candidates _)
      with [None; None; Some "Public"].
    repeat constructor; intros k; vm_compute; eauto.
  - intros k. vm_compute. eauto.
Defined.

Lemma created_at_nonzero_witness :
  exists v k',
    _extract_created_at example_clock example_dateutil
      (Bs4.Tag "div" ∅ [Bs4.Tag "abbr" {[ "title" := "3000 w" ]} []]) 0%nat
    = (Ok v, k')
    /\ v <> 0.
Proof.
  apply (created_at_nonzero example_clock example_dateutil).
  - intros j. destruct (example_clock_valid j). lia.
  - change (timestamp_candidates _)
      with [None; None; Some "3000 w"].
    repeat constructor; intros k; vm_compute; eauto.
  - intros k. vm_compute. eauto.
Defined.

(** C9 (counterexample).  With the clock in 2025, a container whose only
    timestamp string is the title ["3000 w"] gets the clock reading minus
    3000 weeks: -52,400,000, an instant in 1968. *)
Lemma created_at_positive_fails :
  ~ created_at_positive example_clock example_dateutil.
Proof.
  intros H.
  destruct (H (fun j => eq_refl)
              (Bs4.Tag "div" ∅ [Bs4.Tag "abbr" {[ "title" := "3000 w" ]} []]) 0%nat)
    as (v & k' & He & Hv).
  vm_compute in He. injection He as <- <-. lia.
Qed.

(** ** Properties of the page loop *)

Section PageLoop.

Variable clock : nat -> Z.
Variable dateutil_parse : Z -> string -> outcome DateTime.datetime.
Variable BeautifulSoup : string -> outcome Bs4.node.
Variable _extract_comments_from_json : Bs4.node -> M (list Comment).

Local Abbreviation single_post :=
  (_parse_single_post clock dateutil_parse _extract_comments_from_json).
Local Abbreviation successful :=
  (posts_of_successful clock dateutil_parse _extract_comments_from_json).

(** The loop never raises: it appends the posts of the containers that
    succeed to those it holds already. *)
Lemma parse_posts_appends divs group_url posts k :
  parse_posts clock dateutil_parse _extract_comments_from_json divs group_url posts k
  = (Ok (posts ++ (successful divs group_url k).1),
     (successful divs group_url k).2).
Proof.
  revert posts k. induction divs as [|div divs IH]; intros posts k.
  - simpl. unfold ret. by rewrite app_nil_r.
  - cbn [parse_posts posts_of_successful]. unfold bind at 1, try_except, bind at 1.
    destruct (single_post div group_url k) as [[post|e] k1].
    + unfold ret at 1. rewrite IH.
      destruct (successful divs group_url k1) as [ps k2]. simpl.
      by rewrite <- app_assoc.
    + unfold ret at 1. by rewrite IH.
Qed.

(** C2.  No exception raised while the record of a container is built
    leaves [parse_posts_from_html]: once the document is parsed, it returns
    the posts of the containers whose record was built without an
    exception, in the order of the containers.  The one exception that
    leaves is the parser's own, on markup it rejects, raised before any
    container is looked at. *)
Theorem parse_posts_from_html_skips_failures (html group_url : string) (k : nat) :
  parse_posts_from_html clock dateutil_parse BeautifulSoup
    _extract_comments_from_json html group_url k
  = match BeautifulSoup html with
    | Ok soup =>
        (Ok (successful (article_divs soup) group_url k).1,
         (successful (article_divs soup) group_url k).2)
    | Raise e => (Raise e, k)
    end.
Proof.
  unfold parse_posts_from_html, bind at 1, lift.
  destruct (BeautifulSoup html) as [soup|e]; [|reflexivity].
  by rewrite parse_posts_appends.
Qed.

End PageLoop.

(** A page of three containers; the second carries a timestamp that
    makes the normaliser raise.  The first and the third are returned. *)
Example page_with_failing_container :
  let article title :=
    Bs4.Tag "div" {[ "role" := "article" ]}
      [Bs4.Tag "abbr" {[ "title" := title ]} []] in
  let soup := Bs4.Tag "[document]" ∅
                [article "2 h"; article "2000000000 d"; article "3 h"] in
  _parse_single_post example_clock example_dateutil (fun _ => ret [])
    (article "2000000000 d") "https://www.facebook.com/groups/g" 0%nat
  = (Raise OverflowError, 0%nat)
  /\ exists p1 p3 k',
       parse_posts_from_html example_clock example_dateutil (fun _ => Ok soup)
         (fun _ => ret []) "" "https://www.facebook.com/groups/g" 0%nat
       = (Ok [p1; p3], k')
       /\ createdAt p1 = 1762000000 - 7200
       /\ createdAt p3 = 1762000000 - 10800.
Proof.
  split; [vm_compute; reflexivity|].
  eexists _, _, _. split; [vm_compute; reflexivity|]. split; reflexivity.
Qed.

(** ** More on the normaliser *)

Section NormaliserMore.

Variable clock : nat -> Z.

(** *** The keyword *)

(** Whatever the letter case and the white space around it, the keyword
    gives the clock reading in whole seconds; the clock is read once. *)
Theorem now_keyword (dateutil_parse : Z -> string -> outcome DateTime.datetime)
    (raw : string) (k : nat) :
  normalised_text raw = "now" ->
  DateTime.MIN_US <= clock k <= DateTime.MAX_US ->
  exists v,
    parse_facebook_datetime clock dateutil_parse (Some raw) k = (Ok (Some v), S k)
    /\ Z.abs (v * 1000000 - clock k) <= 1000000.
Proof.
  unfold normalised_text. intros Hraw Hk.
  unfold DateTime.MIN_US, DateTime.MAX_US, DateTime.US_PER_SECOND in Hk.
  destruct (int_truediv_within_one (clock k) 1000000) as (v & Hv & Hb & _);
    [lia | lia |].
  exists v. split; [|exact Hb].
  destruct raw as [|c raw']; [discriminate Hraw|].
  cbv [parse_facebook_datetime or_else bind branch_now time_time read_clock ret lift].
  rewrite Hraw. change (String.eqb "now" "now") with true. cbv iota.
  unfold DateTime.US_PER_SECOND. by rewrite Hv.
Qed.

(** *** Epoch strings *)

Lemma digits_value_from_bound s acc :
  Str.forallb Str.is_digit s = true -> 0 <= acc ->
  Str.digits_value_from acc s < (acc + 1) * 10 ^ Z.of_nat (String.length s).
Proof.
  revert acc. induction s as [|c s IH]; intros acc Hs Hacc.
  - simpl. lia.
  - cbn [Str.digits_value_from String.length]. simpl in Hs.
    apply andb_prop in Hs as [Hc Hs]. pose proof (digit_value_range c Hc) as Hd.
    specialize (IH (10 * acc + Str.digit_value c) Hs ltac:(lia)).
    rewrite Nat2Z.inj_succ, Z.pow_succ_r by lia.
    assert (0 < 10 ^ Z.of_nat (String.length s)) by (apply Z.pow_pos_nonneg; lia).
    nia.
Qed.

(** The cascade on a string of 9 to 12 digits. *)
Lemma normalise_digit_string
    (dateutil_parse : Z -> string -> outcome DateTime.datetime) s k :
  Str.forallb Str.is_digit s = true ->
  (9 <= String.length s <= 12)%nat ->
  parse_facebook_datetime clock dateutil_parse (Some s) k
  = (Ok (Some (if 10000000000 <? Str.digits_value s
               then Str.digits_value s / 1000
               else Str.digits_value s)), k).
Proof.
  intros Hd [Hlo Hhi].
  assert (Hne : s <> EmptyString) by (intros ->; simpl in Hlo; lia).
  unfold parse_facebook_datetime.
  destruct s as [|c s']; [congruence|]. set (s := String c s') in *.
  rewrite (digits_strip s Hd), (digits_lower s Hd).
  unfold or_else at 1, bind at 1, branch_now.
  rewrite (digits_not_now s Hd). cbn [ret].
  unfold or_else at 1, bind at 1, branch_epoch, Re.fullmatch_digits_9_12.
  rewrite Hd.
  replace (9 <=? String.length s)%nat with true by (symmetry; apply Nat.leb_le; lia).
  replace (String.length s <=? 12)%nat with true by (symmetry; apply Nat.leb_le; lia).
  cbn [andb]. unfold try_except, bind, lift, ret.
  by rewrite (int_of_digits s Hd Hne) by (unfold Num.MAX_STR_DIGITS; lia).
Qed.

(** An epoch string never gives a negative timestamp, nor one beyond
    10,000,000,000. *)
Theorem epoch_result_range
    (dateutil_parse : Z -> string -> outcome DateTime.datetime) s k :
  Str.forallb Str.is_digit s = true ->
  (9 <= String.length s <= 12)%nat ->
  exists v,
    parse_facebook_datetime clock dateutil_parse (Some s) k = (Ok (Some v), k)
    /\ 0 <= v <= 10000000000.
Proof.
  intros Hd Hlen. rewrite (normalise_digit_string _ s k Hd Hlen).
  eexists. split; [reflexivity|].
  pose proof (digits_value_nonneg s Hd) as H0.
  pose proof (digits_value_from_bound s 0 Hd (Z.le_refl 0)) as Hb.
  fold (Str.digits_value s) in Hb.
  assert (10 ^ Z.of_nat (String.length s) <= 10 ^ 12)
    by (apply Z.pow_le_mono_r; lia).
  destruct (Z.ltb_spec 10000000000 (Str.digits_value s)); [|lia].
  split; [apply Z.div_pos; lia|].
  apply Z.div_le_upper_bound; lia.
Qed.

(** A string of digits that is too short or too long for the epoch branch
    is left to [dateutil]: a thirteen-digit epoch in milliseconds is not
    read as an epoch. *)
Theorem digit_string_out_of_range_left_to_dateutil
    (dateutil_parse : Z -> string -> outcome DateTime.datetime) s k :
  Str.forallb Str.is_digit s = true -> s <> EmptyString ->
  (String.length s < 9 \/ 12 < String.length s)%nat ->
  parse_facebook_datetime clock dateutil_parse (Some s) k
  = branch_dateutil clock dateutil_parse s k.
Proof.
  intros Hd Hne Hlen. unfold parse_facebook_datetime.
  destruct s as [|c s']; [congruence|]. set (s := String c s') in *.
  rewrite (digits_strip s Hd), (digits_lower s Hd).
  unfold or_else, bind, branch_now. rewrite (digits_not_now s Hd). cbn [ret].
  unfold branch_epoch, Re.fullmatch_digits_9_12. rewrite Hd. cbn [andb].
  assert (Hf : ((9 <=? String.length s)%nat && (String.length s <=? 12)%nat) = false).
  { destruct Hlen.
    - replace (9 <=? String.length s)%nat with false; [done|].
      symmetry. apply Nat.leb_gt. lia.
    - replace (String.length s <=? 12)%nat with false; [by rewrite andb_false_r|].
      symmetry. apply Nat.leb_gt. lia. }
  rewrite Hf. unfold ret, branch_relative. rewrite (digits_no_search s Hd).
  unfold ret. by destruct (branch_dateutil clock dateutil_parse s k) as [[[v|]|e] k'].
Qed.

End NormaliserMore.

Ltac compute_startswith :=
  repeat match goal with
         | |- context [Str.startswith ?a ?b] =>
             let r := eval vm_compute in (Str.startswith a b) in
             change (Str.startswith a b) with r
         end;
  cbv iota.

Section CascadeMore.

Variable clock : nat -> Z.

(** *** Strings without a digit *)

Lemma lower_char_digit c : Str.is_digit (Str.lower_char c) = Str.is_digit c.
Proof. destruct c as [[] [] [] [] [] [] [] []]; reflexivity. Qed.

Lemma digitless_lower s : digitless s = true -> digitless (Str.lower s) = true.
Proof.
  unfold digitless. induction s as [|c s IH]; simpl; [done|].
  intros [Hc Hs]%andb_prop. by rewrite lower_char_digit, Hc, IH.
Qed.

Lemma digitless_normalised raw :
  digitless raw = true -> digitless (normalised_text raw) = true.
Proof. intros H. by apply digitless_lower, forallb_strip. Qed.

Lemma digitless_no_match s : digitless s = true -> Re.match_relative s = None.
Proof.
  destruct s as [|c s]; [reflexivity|]. unfold digitless. simpl.
  intros [Hc _]%andb_prop. by destruct (Str.is_digit c).
Qed.

Lemma digitless_no_search s : digitless s = true -> Re.search_relative s = None.
Proof.
  induction s as [|c s IH]; [reflexivity|]. intros H.
  cbn [Re.search_relative]. rewrite (digitless_no_match _ H).
  apply andb_prop in H as [_ Hs]. by apply IH.
Qed.

Lemma digitless_no_fullmatch s :
  digitless s = true -> Re.fullmatch_digits_9_12 s = false.
Proof.
  destruct s as [|c s]; [reflexivity|]. unfold digitless, Re.fullmatch_digits_9_12.
  simpl. intros [Hc _]%andb_prop. by destruct (Str.is_digit c).
Qed.

(** A raw string that holds no digit and is not the keyword can be
    neither an epoch nor a relative time: the outcome is that of the
    [dateutil] branch on the raw string, and so [None] when [dateutil]
    rejects it with a [ValueError] or an [OverflowError]. *)
Theorem digitless_left_to_dateutil
    (dateutil_parse : Z -> string -> outcome DateTime.datetime)
    (raw : string) (k : nat) :
  raw <> EmptyString ->
  digitless raw = true ->
  normalised_text raw <> "now" ->
  parse_facebook_datetime clock dateutil_parse (Some raw) k
  = branch_dateutil clock dateutil_parse raw k.
Proof.
  intros Hne Hd%digitless_normalised Hnow. unfold normalised_text in *.
  unfold parse_facebook_datetime. destruct raw as [|c raw']; [congruence|].
  set (raw := String c raw') in *.
  unfold or_else, bind, branch_now.
  destruct (String.eqb_spec (Str.lower (Str.strip raw)) "now"); [congruence|].
  unfold ret at 1. unfold branch_epoch. rewrite (digitless_no_fullmatch _ Hd).
  unfold ret at 1. unfold branch_relative. rewrite (digitless_no_search _ Hd).
  unfold ret at 1.
  by destruct (branch_dateutil clock dateutil_parse raw k) as [[[v|]|e] k'].
Qed.

(** *** A relative token decides *)

Lemma first_alternative_letter s u :
  Re.first_alternative Re.unit_alternatives s = Some u -> In u unit_letters.
Proof.
  destruct s as [|c s]; [discriminate|].
  destruct c as [[] [] [] [] [] [] [] []]; destruct s; cbn; try discriminate;
    intros [= <-]; tauto.
Qed.

Lemma spaces_then_unit_letter s u :
  Re.spaces_then_unit s = Some u -> In u unit_letters.
Proof.
  induction s as [|c s IH]; cbn [Re.spaces_then_unit].
  - apply first_alternative_letter.
  - destruct (Str.is_space c); [|apply first_alternative_letter].
    destruct (Re.spaces_then_unit s); [intros [= <-]; auto | apply first_alternative_letter].
Qed.

Lemma match_relative_letter s g1 u :
  Re.match_relative s = Some (g1, u) -> In u unit_letters.
Proof.
  revert g1. induction s as [|c s IH]; cbn [Re.match_relative]; intros g1; [discriminate|].
  destruct (Str.is_digit c); [|discriminate].
  destruct (Re.match_relative s) as [[ds u']|].
  - intros [= <- <-]. by eapply IH.
  - destruct (Re.spaces_then_unit s) eqn:Hs; [|discriminate].
    intros [= <- <-]. by eapply spaces_then_unit_letter.
Qed.

Lemma search_relative_letter s g1 u :
  Re.search_relative s = Some (g1, u) ->
  In u unit_letters /\ Str.forallb Str.is_digit g1 = true /\ g1 <> EmptyString.
Proof.
  intros H. destruct (search_relative_groups _ _ _ H) as (Hd & Hne & _).
  split; [|by split].
  apply search_relative_match in H as [s' H]. by eapply match_relative_letter.
Qed.

(** The unit group of a match is always one letter: the longer
    alternatives of the pattern come after their first letter and are
    never tried. *)
Theorem unit_group_is_one_letter (s g1 u : string) :
  Re.search_relative s = Some (g1, u) ->
  In u unit_letters /\ Str.forallb Str.is_digit g1 = true /\ g1 <> EmptyString.
Proof. exact (search_relative_letter s g1 u). Qed.

(** With a match, the relative branch returns a timestamp or raises; it
    never hands over to [dateutil]. *)
Lemma branch_relative_decides text g k :
  Re.search_relative text = Some g ->
  (branch_relative clock text k).1 <> Ok None.
Proof.
  destruct g as [g1 u]. intros Hs.
  pose proof (search_relative_letter _ _ _ Hs) as (Hu & _ & _).
  unfold branch_relative. rewrite Hs. unfold bind at 1, lift at 1.
  destruct (Num.int_of_str g1) as [amount|e]; [|done].
  simpl in Hu.
  repeat (destruct Hu as [<- | Hu];
          [ compute_startswith; cbv [bind lift ret datetime_now_utc read_clock];
            destruct (DateTime.timedelta _ _); [|done];
            destruct (DateTime.sub_timedelta _ _); [|done];
            by destruct (Num.int_of_float _) |]).
  destruct Hu.
Qed.

Lemma normalise_is_relative_branch
    (dateutil_parse : Z -> string -> outcome DateTime.datetime) raw g k :
  Re.search_relative (normalised_text raw) = Some g ->
  parse_facebook_datetime clock dateutil_parse (Some raw) k
  = branch_relative clock (normalised_text raw) k.
Proof.
  unfold normalised_text. intros Hs.
  destruct (earlier_branches_decline clock _ _ k Hs) as [Hnow Hepoch].
  pose proof (branch_relative_decides _ _ k Hs) as Hdec.
  pose proof (search_relative_nonempty raw _ Hs) as Hne.
  unfold parse_facebook_datetime. destruct raw as [|c raw']; [congruence|].
  unfold or_else, bind. rewrite Hnow. cbv beta iota. rewrite Hepoch. cbv beta iota.
  destruct (branch_relative clock _ k) as [[[v|]|e] k']; [done | by destruct Hdec | done].
Qed.

(** Two raw strings with the same leftmost relative token get the same
    outcome at the same clock reading: what surrounds the token is ignored
    and [dateutil] is not consulted. *)
Theorem relative_token_decides
    (dateutil1 dateutil2 : Z -> string -> outcome DateTime.datetime)
    (raw1 raw2 : string) (g : string * string) (k : nat) :
  Re.search_relative (normalised_text raw1) = Some g ->
  Re.search_relative (normalised_text raw2) = Some g ->
  parse_facebook_datetime clock dateutil1 (Some raw1) k
  = parse_facebook_datetime clock dateutil2 (Some raw2) k.
Proof.
  intros H1 H2.
  rewrite (normalise_is_relative_branch dateutil1 raw1 g k H1).
  rewrite (normalise_is_relative_branch dateutil2 raw2 g k H2).
  unfold branch_relative. by rewrite H1, H2.
Qed.

End CascadeMore.

Lemma now_keyword_witness :
  exists v,
    parse_facebook_datetime example_clock example_dateutil (Some " Now ") 0%nat
    = (Ok (Some v), 1%nat)
    /\ Z.abs (v * 1000000 - example_clock 0%nat) <= 1000000.
Proof.
  apply (now_keyword example_clock example_dateutil " Now " 0%nat).
  - reflexivity.
  - destruct (example_clock_valid 0%nat). lia.
Defined.

Lemma epoch_result_range_witness :
  exists v,
    parse_facebook_datetime example_clock example_dateutil (Some "999999999999") 0%nat
    = (Ok (Some v), 0%nat)
    /\ 0 <= v <= 10000000000.
Proof.
  apply (epoch_result_range example_clock example_dateutil "999999999999" 0%nat);
    [reflexivity | simpl; lia].
Defined.

Lemma digit_string_out_of_range_left_to_dateutil_witness :
  parse_facebook_datetime example_clock example_dateutil (Some "1715352299000") 0%nat
  = branch_dateutil example_clock example_dateutil "1715352299000" 0%nat.
Proof.
  apply (digit_string_out_of_range_left_to_dateutil example_clock example_dateutil
           "1715352299000" 0%nat); [reflexivity | discriminate | simpl; lia].
Defined.

Lemma digitless_left_to_dateutil_witness :
  parse_facebook_datetime example_clock example_dateutil (Some " Yesterday ") 0%nat
  = branch_dateutil example_clock example_dateutil " Yesterday " 0%nat
  /\ branch_dateutil example_clock example_dateutil " Yesterday " 0%nat
     = (Ok None, 1%nat).
Proof.
  split; [|reflexivity].
  apply (digitless_left_to_dateutil example_clock example_dateutil " Yesterday "
           0%nat); [discriminate | reflexivity | discriminate].
Defined.

Lemma unit_group_is_one_letter_witness :
  In "m" unit_letters
  /\ Str.forallb Str.is_digit "5" = true /\ "5" <> EmptyString.
Proof.
  apply (unit_group_is_one_letter "5 months ago" "5" "m"). reflexivity.
Defined.

(** ["3 Sep 2024"] is read as three seconds ago, like ["3s"], even by a
    [dateutil] that knows the date. *)
Lemma relative_token_decides_witness :
  parse_facebook_datetime example_clock
    (fun _ _ => Ok (DateTime.mk_datetime (1725321600 * 1000000) None))
    (Some "3 Sep 2024") 0%nat
  = parse_facebook_datetime example_clock example_dateutil (Some "3s") 0%nat.
Proof.
  apply (relative_token_decides example_clock _ _ "3 Sep 2024" "3s" ("3", "s") 0%nat);
    reflexivity.
Defined.

(** ** Properties of the other field extractors *)

Section Searching.

Lemma find_all_spec names test n a :
  a ∈ Bs4.find_all names test n
  <-> a ∈ Bs4.descendants n /\ Bs4.has_name names a = true /\ test a = true.
Proof.
  unfold Bs4.find_all. rewrite list_elem_of_filter, andb_True, !Is_true_true. tauto.
Qed.

Lemma find_spec names test n a :
  Bs4.find names test n = Some a ->
  a ∈ Bs4.descendants n /\ Bs4.has_name names a = true /\ test a = true.
Proof. intros H%head_Some_elem_of. by apply find_all_spec. Qed.

Lemma has_attr_get key a :
  Bs4.has_attr key a = true -> exists v, Bs4.get a key = Some v.
Proof.
  unfold Bs4.has_attr. intros H%bool_decide_eq_true. destruct H as [v Hv]. eauto.
Qed.

End Searching.

Section Urls.

Lemma absolute_not_empty u : is_absolute u = true -> u <> EmptyString.
Proof. by intros H ->. Qed.

Lemma normalize_url_absolute href : is_absolute (_normalize_url href) = true.
Proof.
  unfold _normalize_url, is_absolute.
  destruct (Str.startswith "http://" href || Str.startswith "https://" href) eqn:H;
    [exact H|]. destruct (Str.startswith "/" href); reflexivity.
Qed.

(** [_normalize_url] always gives an absolute URL, leaves an absolute URL
    as it is, and changes nothing when applied twice. *)
Theorem normalize_url_idempotent (href : string) :
  is_absolute (_normalize_url href) = true
  /\ (is_absolute href = true -> _normalize_url href = href)
  /\ _normalize_url (_normalize_url href) = _normalize_url href.
Proof.
  assert (Hfix : forall h, is_absolute h = true -> _normalize_url h = h).
  { intros h Hh. unfold _normalize_url. unfold is_absolute in Hh. by rewrite Hh. }
  split; [apply normalize_url_absolute|]. split; [apply Hfix|].
  apply Hfix, normalize_url_absolute.
Qed.

(** The test of the loop of [_extract_post_url] on an [href]. *)
Lemma contains_cons sub c s :
  Str.contains sub s = true -> Str.contains sub (String c s) = true.
Proof. intros H. cbn [Str.contains]. rewrite H. apply orb_true_r. Qed.

Lemma prefix_contains sub s : String.prefix sub s = true -> Str.contains sub s = true.
Proof. intros H. destruct s; cbn [Str.contains]; by rewrite H. Qed.

Lemma prefix_tail c p d s :
  String.prefix (String c p) (String d s) = true -> String.prefix p s = true.
Proof. simpl. by destruct (ascii_dec c d). Qed.

Lemma prefix_shorter p q s :
  String.prefix (p +:+ q) s = true -> String.prefix p s = true.
Proof.
  revert s. induction p as [|c p IH]; intros s; [by destruct s|].
  destruct s as [|d s]; [done|]. simpl.
  destruct (ascii_dec c d); [apply IH | done].
Qed.

Lemma permalink_segment href :
  Str.contains "/permalink/" href = true -> Str.contains "permalink" href = true.
Proof.
  induction href as [|c href IH]; [done|]. cbn [Str.contains].
  intros [Hp | Hc]%orb_prop.
  - apply contains_cons, prefix_contains.
    apply prefix_tail in Hp. by apply (prefix_shorter "permalink" "/").
  - by apply contains_cons, IH.
Qed.

Lemma fallback_href div h hs :
  filter (fun href => Str.contains "/posts/" href || Str.contains "/permalink/" href)
    (map (fun a => default EmptyString (Bs4.get a "href"))
       (Bs4.find_all ["a"] (Bs4.has_attr "href") div))
  = h :: hs ->
  exists a, a ∈ Bs4.descendants div /\ Bs4.has_name ["a"] a = true
            /\ Bs4.get a "href" = Some h
            /\ (Str.contains "permalink" h = true
                \/ Str.contains "/posts/" h = true).
Proof.
  intros Hf.
  assert (Hh : h ∈ filter
                 (fun href => Str.contains "/posts/" href
                              || Str.contains "/permalink/" href)
                 (map (fun a => default EmptyString (Bs4.get a "href"))
                    (Bs4.find_all ["a"] (Bs4.has_attr "href") div)))
    by (rewrite Hf; left).
  apply list_elem_of_filter in Hh as [Htest Hh].
  apply list_elem_of_In, in_map_iff in Hh as (b & <- & Hb%list_elem_of_In).
  apply find_all_spec in Hb as (Hbin & Hname & Hbattr).
  destruct (has_attr_get _ _ Hbattr) as [hb Hhb]. rewrite Hhb in *. simpl in *.
  exists b. split; [done|]. split; [done|]. split; [done|].
  apply Is_true_true, orb_prop in Htest as [Hp | Hp]; [by right|].
  left. by apply permalink_segment.
Qed.

(** The anchors that can give the URL of a post: those with an [href]
    that mentions [permalink] or [/posts/]. *)
Lemma post_url_parts (div : Bs4.node) (group_url : string) :
  _extract_post_url div group_url = group_url
  \/ (is_absolute (_extract_post_url div group_url) = true
      /\ exists a href,
           a ∈ Bs4.descendants div /\ Bs4.has_name ["a"] a = true
           /\ Bs4.get a "href" = Some href
           /\ (Str.contains "permalink" href = true
               \/ Str.contains "/posts/" href = true)
           /\ _extract_post_url div group_url = _normalize_url href).
Proof.
  unfold _extract_post_url. cbv zeta.
  destruct (Bs4.find ["a"] _ div) as [a|] eqn:Hfind.
  - apply find_spec in Hfind as (Hin & Hname & Htest).
    apply andb_prop in Htest as [Hattr _].
    destruct (has_attr_get _ _ Hattr) as [href Hhref]. rewrite Hhref. simpl default.
    destruct (Str.contains "permalink" href) eqn:Hperma.
    { right. split; [apply normalize_url_absolute|].
      exists a, href. auto 10. }
    destruct (filter _ _) as [|h hs] eqn:Hf; [by left|]. right.
    split; [apply normalize_url_absolute|].
    apply fallback_href in Hf as (b & Hb & Hbn & Hhb & Hm). exists b, h. auto 10.
  - destruct (filter _ _) as [|h hs] eqn:Hf; [by left|]. right.
    split; [apply normalize_url_absolute|].
    apply fallback_href in Hf as (b & Hb & Hbn & Hhb & Hm). exists b, h. auto 10.
Qed.

(** Without an anchor whose [href] mentions [permalink] or [/posts/], the
    URL of the post is the group URL. *)
Lemma post_url_default (div : Bs4.node) (group_url : string) :
  (forall a href,
     a ∈ Bs4.descendants div -> Bs4.has_name ["a"] a = true ->
     Bs4.get a "href" = Some href ->
     Str.contains "permalink" href = false /\ Str.contains "/posts/" href = false) ->
  _extract_post_url div group_url = group_url.
Proof.
  intros Hnone.
  destruct (post_url_parts div group_url)
    as [H | (_ & a & href & Hin & Hname & Hhref & Hm & _)]; [exact H|].
  destruct (Hnone a href Hin Hname Hhref) as [H1 H2].
  destruct Hm; congruence.
Qed.

(** With an anchor whose [href] mentions [/posts/] or [/permalink/], the
    URL of the post is not left to the group URL: it is absolute. *)
Lemma post_url_found (div : Bs4.node) (group_url : string) a href :
  a ∈ Bs4.descendants div -> Bs4.has_name ["a"] a = true ->
  Bs4.get a "href" = Some href ->
  Str.contains "/posts/" href || Str.contains "/permalink/" href = true ->
  is_absolute (_extract_post_url div group_url) = true.
Proof.
  intros Hin Hname Hhref Htest.
  assert (Hmem : href ∈ filter
                   (fun href => Str.contains "/posts/" href
                                || Str.contains "/permalink/" href)
                   (map (fun a => default EmptyString (Bs4.get a "href"))
                      (Bs4.find_all ["a"] (Bs4.has_attr "href") div))).
  { apply list_elem_of_filter. split; [by apply Is_true_true|].
    apply list_elem_of_In, in_map_iff. exists a. rewrite Hhref. split; [done|].
    apply list_elem_of_In, find_all_spec. split; [done|]. split; [done|].
    unfold Bs4.has_attr. apply bool_decide_eq_true. rewrite Hhref. by eexists. }
  unfold _extract_post_url. cbv zeta.
  destruct (filter _ _) as [|h hs]; [by apply elem_of_nil in Hmem|].
  destruct (Bs4.find ["a"] _ div) as [b|]; [|apply normalize_url_absolute].
  destruct (Str.contains "permalink" _); apply normalize_url_absolute.
Qed.

(** The URL of a post is the group URL, or the normalised [href], which
    is absolute, of an anchor of the container whose [href] mentions
    [permalink] or [/posts/].  It is the group URL when the container has
    no such anchor, and it is absolute as soon as an anchor of the
    container has an [href] that mentions [/posts/] or [/permalink/]. *)
Theorem post_url_origin (div : Bs4.node) (group_url : string) :
  (_extract_post_url div group_url = group_url
   \/ (is_absolute (_extract_post_url div group_url) = true
       /\ exists a href,
            a ∈ Bs4.descendants div /\ Bs4.has_name ["a"] a = true
            /\ Bs4.get a "href" = Some href
            /\ (Str.contains "permalink" href = true
                \/ Str.contains "/posts/" href = true)
            /\ _extract_post_url div group_url = _normalize_url href))
  /\ ((forall a href,
         a ∈ Bs4.descendants div -> Bs4.has_name ["a"] a = true ->
         Bs4.get a "href" = Some href ->
         Str.contains "permalink" href = false
         /\ Str.contains "/posts/" href = false) ->
      _extract_post_url div group_url = group_url)
  /\ (forall a href,
        a ∈ Bs4.descendants div -> Bs4.has_name ["a"] a = true ->
        Bs4.get a "href" = Some href ->
        Str.contains "/posts/" href || Str.contains "/permalink/" href = true ->
        is_absolute (_extract_post_url div group_url) = true).
Proof.
  split; [exact (post_url_parts div group_url)|].
  split; [exact (post_url_default div group_url)|].
  intros a href. exact (post_url_found div group_url a href).
Qed.

End Urls.

Section Trimming.

Lemma lstrip_head_ok s : head_ok (Str.lstrip_by Str.is_space s) = true.
Proof.
  induction s as [|c s IH]; cbn [Str.lstrip_by head_ok]; [done|].
  destruct (Str.is_space c) eqn:Hc; [done|]. cbn [head_ok]. by rewrite Hc.
Qed.

Lemma head_ok_lstrip s : head_ok s = true -> Str.lstrip_by Str.is_space s = s.
Proof.
  destruct s as [|c s]; cbn [Str.lstrip_by head_ok]; [done|].
  by destruct (Str.is_space c).
Qed.

Lemma rstrip_head_ok s :
  head_ok s = true -> head_ok (Str.rstrip_by Str.is_space s) = true.
Proof.
  destruct s as [|c s]; cbn [Str.rstrip_by head_ok]; [done|]. intros Hc.
  destruct (Str.rstrip_by Str.is_space s); [|done].
  destruct (Str.is_space c) eqn:Hs; [done | cbn [head_ok]; by rewrite Hs].
Qed.

Lemma rstrip_cons c s :
  Str.rstrip_by Str.is_space (String c s)
  = match Str.rstrip_by Str.is_space s with
    | EmptyString => if Str.is_space c then EmptyString else String c EmptyString
    | String d r => String c (String d r)
    end.
Proof. reflexivity. Qed.

Lemma rstrip_idempotent s :
  Str.rstrip_by Str.is_space (Str.rstrip_by Str.is_space s)
  = Str.rstrip_by Str.is_space s.
Proof.
  induction s as [|c s IH]; [done|]. rewrite rstrip_cons.
  destruct (Str.rstrip_by Str.is_space s) as [|d r] eqn:Hr.
  - destruct (Str.is_space c) eqn:Hc; [done|]. by rewrite rstrip_cons, Hc.
  - by rewrite rstrip_cons, IH.
Qed.

Lemma strip_head_ok s : head_ok (Str.strip s) = true.
Proof. apply rstrip_head_ok, lstrip_head_ok. Qed.

Lemma strip_rstrip s : Str.rstrip_by Str.is_space (Str.strip s) = Str.strip s.
Proof. apply rstrip_idempotent. Qed.

Lemma strip_tight s : Str.strip s <> EmptyString -> tight (Str.strip s).
Proof. intros H. repeat split; [done | apply strip_head_ok | apply strip_rstrip]. Qed.

Lemma tight_trimmed s : tight s -> trimmed s.
Proof.
  intros (_ & Hh & Hr). unfold trimmed, Str.strip. by rewrite head_ok_lstrip.
Qed.

(** [strip] changes nothing when applied twice. *)
Lemma strip_idempotent s : trimmed (Str.strip s).
Proof.
  destruct (Str.strip s) as [|c t] eqn:Hs; [done|]. rewrite <- Hs.
  apply tight_trimmed, strip_tight. by rewrite Hs.
Qed.

Lemma tight_append x sep y : tight x -> tight y -> tight (x +:+ sep +:+ y).
Proof.
  intros (Hx & Hhx & _) (Hy & _ & Hry). repeat split.
  - destruct x; [done | discriminate].
  - destruct x; [done | exact Hhx].
  - rewrite <- append_assoc. rewrite rstrip_append by (by rewrite Hry).
    by rewrite Hry.
Qed.

Lemma join_tight sep l :
  l <> [] -> Forall tight l -> tight (Str.join sep l).
Proof.
  intros Hne Hl. induction Hl as [|x l Hx Hl IH]; [done|].
  destruct l as [|y l]; [exact Hx|].
  change (Str.join sep (x :: y :: l)) with (x +:+ sep +:+ Str.join sep (y :: l)).
  apply tight_append; [exact Hx | by apply IH].
Qed.

Lemma join_trimmed sep l : Forall tight l -> trimmed (Str.join sep l).
Proof.
  intros Hl. destruct l as [|x l]; [done|].
  by apply tight_trimmed, join_tight.
Qed.

Lemma nonempty_strips_tight (l : list string) :
  Forall tight
    (filter (fun s => negb (String.eqb s EmptyString)) (map Str.strip l)).
Proof.
  apply Forall_forall. intros s [Hne Hin]%list_elem_of_filter.
  apply list_elem_of_In, in_map_iff in Hin as (t & <- & _).
  apply strip_tight. intros Heq. rewrite Heq in Hne. by simpl in Hne.
Qed.

(** [get_text(separator, strip=True)] has no white space at its ends. *)
Lemma get_text_strip_trimmed sep n : trimmed (Bs4.get_text_strip sep n).
Proof. apply join_trimmed, nonempty_strips_tight. Qed.

Lemma get_text_strip_tight sep n :
  Bs4.get_text_strip sep n <> EmptyString -> tight (Bs4.get_text_strip sep n).
Proof.
  unfold Bs4.get_text_strip. intros Hne. apply join_tight; [|apply nonempty_strips_tight].
  intros Heq. by rewrite Heq in Hne.
Qed.

Lemma post_text_is_trimmed (div : Bs4.node) : trimmed (_extract_post_text div).
Proof.
  unfold _extract_post_text. cbv zeta.
  destruct (negb (String.eqb (Str.join " " _) EmptyString)) eqn:Hj;
    [|apply get_text_strip_trimmed].
  apply join_trimmed, Forall_forall.
  intros t [Hne Hin]%list_elem_of_filter.
  apply list_elem_of_In, in_map_iff in Hin as (c & <- & _).
  apply get_text_strip_tight. intros Heq. rewrite Heq in Hne. by simpl in Hne.
Qed.

(** The text of a post has no white space at its ends, whichever of the
    two strategies supplies it. *)
Theorem post_text_trimmed (div : Bs4.node) : trimmed (_extract_post_text div).
Proof. exact (post_text_is_trimmed div). Qed.

End Trimming.

Section Author.

Lemma user_parts (div : Bs4.node) :
  _extract_user div = mk_user EmptyString EmptyString EmptyString
  \/ (user_name (_extract_user div) <> EmptyString
      /\ trimmed (user_name (_extract_user div))
      /\ is_absolute (user_url (_extract_user div)) = true).
Proof.
  unfold _extract_user. cbv zeta.
  destruct (head (filter _ _)) as [a|] eqn:Hhead; [right | by left].
  apply head_Some_elem_of, list_elem_of_filter in Hhead as [Htest _].
  apply andb_True in Htest as [_ Hname]. apply Is_true_true in Hname.
  cbn [user_name user_url]. split; [|split].
  - intros Heq. rewrite Heq in Hname. by simpl in Hname.
  - apply strip_idempotent.
  - apply normalize_url_absolute.
Qed.

(** The author of a post is either wholly empty or has a name that is not
    empty and carries no white space at its ends, with an absolute URL. *)
Theorem user_all_or_nothing (div : Bs4.node) :
  _extract_user div = mk_user EmptyString EmptyString EmptyString
  \/ (user_name (_extract_user div) <> EmptyString
      /\ trimmed (user_name (_extract_user div))
      /\ is_absolute (user_url (_extract_user div)) = true).
Proof. exact (user_parts div). Qed.

Lemma prefix_empty s : String.prefix EmptyString s = true.
Proof. by destruct s. Qed.

Lemma prefix_one c d s :
  String.prefix (String c EmptyString) (String d s) = Ascii.eqb d c.
Proof.
  cbn [String.prefix]. rewrite prefix_empty.
  destruct (ascii_dec c d) as [->|Hne]; [by rewrite Ascii.eqb_refl|].
  symmetry. apply Ascii.eqb_neq. congruence.
Qed.

(** A piece between occurrences of a one-character separator does not
    hold the separator. *)
Lemma split_one_lacks c cur s :
  Forall (fun d => negb (Ascii.eqb d c) = true) cur ->
  Forall (fun p => lacks c p = true)
    (Str.split_aux (String c EmptyString) O cur s).
Proof.
  revert cur. induction s as [|d s IH]; intros cur Hcur.
  - constructor; [|constructor]. by apply forallb_of_list, Forall_rev.
  - cbn [Str.split_aux]. rewrite prefix_one.
    destruct (Ascii.eqb d c) eqn:Hd.
    + constructor; [by apply forallb_of_list, Forall_rev|].
      apply IH. constructor.
    + apply IH. constructor; [by rewrite Hd | done].
Qed.

Lemma split_one_pieces c s :
  Forall (fun p => lacks c p = true) (Str.split (String c EmptyString) s).
Proof. apply split_one_lacks. constructor. Qed.

Lemma hd_lacks c (l : list string) :
  Forall (fun p => lacks c p = true) l -> lacks c (hd EmptyString l) = true.
Proof. by destruct 1. Qed.

Lemma last_lacks c (l : list string) :
  Forall (fun p => lacks c p = true) l -> lacks c (List.last l EmptyString) = true.
Proof.
  induction 1 as [|x l Hx Hl IH]; [done|]. destruct l; [exact Hx | exact IH].
Qed.

(** The identifier derived from the profile URL is one query value or one
    path segment: it holds no [&] when the URL mentions
    [profile.php?id=], and no [/] otherwise. *)
Theorem user_id_is_one_segment (div : Bs4.node) :
  if Str.contains "profile.php?id=" (user_url (_extract_user div))
  then lacks "&" (user_id (_extract_user div)) = true
  else lacks "/" (user_id (_extract_user div)) = true.
Proof.
  unfold _extract_user. cbv zeta.
  destruct (match head (filter _ _) with Some _ => _ | None => _ end)
    as [name profile_url].
  cbn [user_url user_id].
  destruct (Str.contains "profile.php?id=" profile_url);
    destruct (Str.contains "facebook.com" profile_url); try done.
  - apply hd_lacks, split_one_pieces.
  - apply last_lacks, split_one_pieces.
Qed.

End Author.

Section AttachmentUrls.

Lemma truthy_str_default o :
  truthy_str o = true -> default EmptyString o <> EmptyString.
Proof. by destruct o as [[|c s]|]. Qed.

Lemma attachment_url_parts (div : Bs4.node) :
  Forall (fun att => att_url att <> EmptyString
                     /\ (att_type att = "link" -> is_absolute (att_url att) = true))
    (_extract_attachments div).
Proof.
  unfold _extract_attachments. rewrite deduplicate_dedup_from.
  eapply Forall_of_sublist; [|apply dedup_from_sublist].
  apply Forall_app. split; apply Forall_forall.
  - intros att (img & _ & H)%list_elem_of_omap.
    destruct (truthy_str _) eqn:Hsrc; [|done]. injection H as <-.
    split; [by apply truthy_str_default | done].
  - intros att (a & _ & H)%list_elem_of_omap. cbv zeta in H.
    repeat (destruct (_ : bool) in H; [done|]). injection H as <-.
    split; [apply absolute_not_empty|intros _]; apply normalize_url_absolute.
Qed.

(** Every attachment carries a URL that is not empty, and the URL of a
    link is absolute. *)
Theorem attachment_urls (div : Bs4.node) :
  Forall (fun att => att_url att <> EmptyString
                     /\ (att_type att = "link" -> is_absolute (att_url att) = true))
    (_extract_attachments div).
Proof. exact (attachment_url_parts div). Qed.

End AttachmentUrls.

(** ** Properties of comment extraction and of whole posts *)

Section Comments.

Variable clock : nat -> Z.
Variable dateutil_parse : Z -> string -> outcome DateTime.datetime.
Variable _extract_comments_from_json : Bs4.node -> M (list Comment).

Ltac comment_fields :=
  unfold markup_comment;
  cbn [comment_reactionCount comment_commentCount comment_author comment_text
       user_id user_name user_url].

Lemma html_comment_contained cdiv k :
  exists o k',
    html_comment clock dateutil_parse cdiv k = (Ok o, k')
    /\ match o with
       | Some c => markup_comment c
       | None => True
       end.
Proof.
  unfold html_comment, try_except.
  destruct (Bs4.find ["a"] (Bs4.has_attr "href") cdiv) as [a|].
  - destruct (negb (String.eqb (Str.strip (Bs4.text a)) EmptyString)) eqn:Hname.
    + unfold bind.
      destruct (parse_facebook_datetime clock dateutil_parse _ k) as [[ts|e] k'];
        [|by exists None, k'].
      eexists _, k'. split; [reflexivity|]. comment_fields.
      repeat split; try apply get_text_strip_trimmed.
      * intros Heq. rewrite Heq in Hname. by simpl in Hname.
      * intros Heq. exfalso. revert Heq.
        apply absolute_not_empty, normalize_url_absolute.
    + unfold bind.
      destruct (parse_facebook_datetime clock dateutil_parse _ k) as [[ts|e] k'];
        [|by exists None, k'].
      eexists _, k'. split; [reflexivity|]. comment_fields.
      repeat split; try apply get_text_strip_trimmed; done.
  - unfold bind.
    destruct (parse_facebook_datetime clock dateutil_parse _ k) as [[ts|e] k'];
      [|by exists None, k'].
    eexists _, k'. split; [reflexivity|]. comment_fields.
    repeat split; try apply get_text_strip_trimmed; done.
Qed.

(** The loop over the comment containers never raises: a comment whose
    timestamp makes the normaliser raise is dropped, the others are kept.
    Every comment it builds has counts of 0, an author without
    identifier and a text without white space at its ends. *)
Theorem html_comments_contained (cdivs : list Bs4.node) (k : nat) :
  exists cs k',
    html_comments clock dateutil_parse cdivs k = (Ok cs, k')
    /\ (List.length cs <= List.length cdivs)%nat
    /\ Forall markup_comment cs.
Proof.
  revert k. induction cdivs as [|cdiv cdivs IH]; intros k.
  - exists [], k. repeat split; [simpl; lia | constructor].
  - cbn [html_comments]. unfold bind at 1.
    destruct (html_comment_contained cdiv k) as (o & k1 & -> & Ho).
    unfold bind at 1. destruct (IH k1) as (cs & k2 & -> & Hlen & Hcs).
    unfold ret. destruct o as [c|].
    + exists (c :: cs), k2. repeat split; [simpl; lia | by constructor].
    + exists cs, k2. repeat split; [simpl; lia | done].
Qed.

End Comments.

Section WholePosts.

Variable clock : nat -> Z.
Variable dateutil_parse : Z -> string -> outcome DateTime.datetime.
Variable BeautifulSoup : string -> outcome Bs4.node.
Variable _extract_comments_from_json : Bs4.node -> M (list Comment).

Hypothesis clock_valid : forall j, 1000000 <= clock j <= DateTime.MAX_US.

(** A creation time that is returned is not 0. *)
Lemma created_at_returned_nonzero div k v k' :
  _extract_created_at clock dateutil_parse div k = (Ok v, k') -> v <> 0.
Proof.
  unfold _extract_created_at, bind.
  destruct (first_timestamp clock dateutil_parse _ k) as [[[ts|]|e] k0] eqn:H0;
    [| |done].
  - unfold ret. intros [= <- <-]. by eapply first_timestamp_truthy.
  - destruct (parse_facebook_datetime clock dateutil_parse
                (Some (Bs4.get_text_strip " " div)) k0) as [[ts|e] k1]; [|done].
    destruct (truthy_int ts) eqn:Ht.
    + unfold ret. intros [= <- <-]. destruct ts as [t|]; [|done].
      simpl in *. by destruct (Z.eqb_spec t 0).
    + assert (Hk1 : DateTime.MIN_US <= clock k1 <= DateTime.MAX_US).
      { pose proof (clock_valid k1). unfold DateTime.MIN_US, DateTime.US_PER_SECOND. lia. }
      destruct (normalise_now clock dateutil_parse k1 Hk1) as (now & -> & _ & Hpos).
      specialize (Hpos (proj1 (clock_valid k1))).
      unfold ret. intros [= <- <-]. simpl.
      destruct (Z.eqb_spec now 0); simpl; lia.
Qed.

Lemma single_post_well_formed div group_url k post k' :
  _parse_single_post clock dateutil_parse _extract_comments_from_json div group_url k
  = (Ok post, k') ->
  post_well_formed group_url post.
Proof.
  unfold _parse_single_post. cbv zeta. unfold bind at 1, lift.
  destruct (_extract_engagement div) as [[[rc cc] sc]|e]; [|done].
  unfold bind at 1.
  destruct (_extract_created_at clock dateutil_parse div k) as [[v|e] k0] eqn:Hc;
    [|done].
  unfold bind at 1.
  destruct (_extract_top_comments clock dateutil_parse _ div k0) as [[cs|e] k1];
    [|done].
  unfold ret. intros [= <- <-]. unfold post_well_formed.
  cbn [url user text attachments createdAt].
  split; [|split; [|split; [|split; [|split]]]].
  - destruct (post_url_parts div group_url) as [H | [H _]]; auto.
  - destruct (user_parts div) as [H | (H1 & _ & H2)]; auto.
  - apply post_text_is_trimmed.
  - unfold _extract_attachments. rewrite deduplicate_dedup_from.
    apply dedup_from_NoDup.
  - eapply Forall_impl; [apply attachment_url_parts|]. by intros att [H _].
  - by eapply created_at_returned_nonzero.
Qed.

Lemma successful_posts_satisfy (P : FacebookPost -> Prop) group_url :
  (forall div k post k',
     _parse_single_post clock dateutil_parse _extract_comments_from_json
       div group_url k = (Ok post, k') -> P post) ->
  forall divs k,
    Forall P (posts_of_successful clock dateutil_parse _extract_comments_from_json
                divs group_url k).1
    /\ (List.length (posts_of_successful clock dateutil_parse
                       _extract_comments_from_json divs group_url k).1
        <= List.length divs)%nat.
Proof.
  intros HP divs. induction divs as [|div divs IH]; intros k.
  - split; [constructor | simpl; lia].
  - cbn [posts_of_successful].
    destruct (_parse_single_post _ _ _ div group_url k) as [[post|e] k1] eqn:Hp.
    + specialize (IH k1). destruct (posts_of_successful _ _ _ divs group_url k1).
      simpl in *. split; [constructor; [by eapply HP | apply IH] | lia].
    + specialize (IH k1). split; [apply IH | simpl; lia].
Qed.

(** Once its document is parsed, a page yields posts, never an
    exception, at most one per container; each post has a URL that is the
    group URL or absolute, an author that is empty or named with an
    absolute URL, a text without white space at its ends, attachments
    without repeated key and with a URL each, and a creation time that is
    not 0.  The one exception that leaves is the parser's own, on markup it
    rejects. *)
Theorem parsed_posts_well_formed (html group_url : string) (k : nat) :
  match BeautifulSoup html with
  | Ok soup =>
      exists posts k',
        parse_posts_from_html clock dateutil_parse BeautifulSoup
          _extract_comments_from_json html group_url k = (Ok posts, k')
        /\ (List.length posts <= List.length (article_divs soup))%nat
        /\ Forall (post_well_formed group_url) posts
  | Raise e =>
      parse_posts_from_html clock dateutil_parse BeautifulSoup
        _extract_comments_from_json html group_url k = (Raise e, k)
  end.
Proof.
  unfold parse_posts_from_html.
  destruct (BeautifulSoup html) as [soup|e]; unfold bind at 1, lift;
    [|reflexivity].
  rewrite parse_posts_appends.
  eexists _, _. split; [reflexivity|].
  destruct (successful_posts_satisfy (post_well_formed group_url) group_url
              (fun div k post k' => single_post_well_formed div group_url k post k')
              (article_divs soup) k) as [Hall Hlen].
  split; [exact Hlen | exact Hall].
Qed.

End WholePosts.

Lemma parsed_posts_well_formed_witness :
  exists posts k',
    parse_posts_from_html example_clock example_dateutil
      (fun _ => Ok (Bs4.Tag "[document]" ∅
                      [Bs4.Tag "div" {[ "role" := "article" ]}
                         [Bs4.Tag "abbr" {[ "title" := "2 h" ]} []]]))
      (fun _ => ret []) "" "https://www.facebook.com/groups/g" 0%nat
    = (Ok posts, k')
    /\ (List.length posts
        <= List.length
             (article_divs (Bs4.Tag "[document]" ∅
                              [Bs4.Tag "div" {[ "role" := "article" ]}
                                 [Bs4.Tag "abbr" {[ "title" := "2 h" ]} []]])))%nat
    /\ Forall (post_well_formed "https://www.facebook.com/groups/g") posts.
Proof.
  apply (parsed_posts_well_formed example_clock example_dateutil
           (fun _ => Ok (Bs4.Tag "[document]" ∅
                           [Bs4.Tag "div" {[ "role" := "article" ]}
                              [Bs4.Tag "abbr" {[ "title" := "2 h" ]} []]]))
           (fun _ => ret [])
           ltac:(intros j; destruct (example_clock_valid j); lia)
           "" "https://www.facebook.com/groups/g" 0%nat).
Defined.

(** ** Properties of fetching *)

Section PageUrls.

Lemma append_inj_l s a b : s +:+ a = s +:+ b -> a = b.
Proof. induction s as [|c s IH]; simpl; [done|]. intros [= H]. auto. Qed.

Lemma append_self s x : s = s +:+ x -> x = EmptyString.
Proof. induction s as [|c s IH]; simpl; [done|]. intros [= H]. auto. Qed.

Lemma to_int_not_nil z :
  Z.to_int z <> Decimal.Pos Decimal.Nil /\ Z.to_int z <> Decimal.Neg Decimal.Nil.
Proof.
  pose proof (DecimalZ.to_of (Z.to_int z)) as Hn.
  rewrite DecimalZ.of_to in Hn.
  split; intros H; rewrite H in Hn; discriminate Hn.
Qed.

(** [str] gives different integers different strings. *)
Lemma str_of_int_inj a b : str_of_int a = str_of_int b -> a = b.
Proof.
  unfold str_of_int. intros H.
  destruct (to_int_not_nil a) as [Ha1 Ha2], (to_int_not_nil b) as [Hb1 Hb2].
  pose proof (NilZero.isi _ Ha1 Ha2) as Ia.
  pose proof (NilZero.isi _ Hb1 Hb2) as Ib.
  rewrite H in Ia. rewrite Ia in Ib. injection Ib as Ib.
  by apply DecimalZ.to_int_inj.
Qed.

(** Two pages of a group, numbered from 1, are never requested at the
    same URL; page 1 is requested at the group URL itself. *)
Theorem page_urls_distinct (url : string) (p q : Z) :
  1 <= p -> 1 <= q -> page_url url p = page_url url q -> p = q.
Proof.
  unfold page_url. intros Hp Hq.
  destruct (Z.ltb_spec 1 p) as [Lp|Lp], (Z.ltb_spec 1 q) as [Lq|Lq]; try lia.
  - intros E%append_inj_l.
    destruct (Str.contains "?" url);
      by apply append_inj_l, append_inj_l, str_of_int_inj in E.
  - intros E. symmetry in E. apply append_self in E.
    by destruct (Str.contains "?" url).
  - intros E%append_self. by destruct (Str.contains "?" url).
Qed.

End PageUrls.

Lemma page_urls_distinct_witness :
  page_url "https://www.facebook.com/groups/g?ref=share" 2
  = "https://www.facebook.com/groups/g?ref=share&page=2"
  /\ (page_url "https://www.facebook.com/groups/g" 3
      = page_url "https://www.facebook.com/groups/g" (1 + 2) -> 3 = 1 + 2).
Proof.
  split; [reflexivity|].
  apply (page_urls_distinct "https://www.facebook.com/groups/g" 3 (1 + 2)); lia.
Defined.

Section FetchLoop.

Variable clock : nat -> Z.
Variable dateutil_parse : Z -> string -> outcome DateTime.datetime.
Variable BeautifulSoup : string -> outcome Bs4.node.
Variable _extract_comments_from_json : Bs4.node -> M (list Comment).
Variable requests_get : request -> list request -> outcome string.

Local Abbreviation loop :=
  (fetch_loop clock dateutil_parse BeautifulSoup _extract_comments_from_json
     requests_get).
Local Abbreviation successful :=
  (posts_of_successful clock dateutil_parse _extract_comments_from_json).

(** The requests for [j] pages in a row, from page [page] on. *)
Local Abbreviation pages_from self url page j :=
  ((fun i : nat => page_request self url (page + Z.of_nat i)) <$> seq 0 j).

Lemma pages_from_S self url page j :
  pages_from self url page (S j)
  = page_request self url page :: pages_from self url (page + 1) j.
Proof.
  cbn [seq fmap list_fmap]. rewrite Z.add_0_r. f_equal.
  rewrite <- fmap_S_seq, <- list_fmap_compose.
  apply list_fmap_ext. intros _ i _. simpl. f_equal. lia.
Qed.

(** [e] is what the parser raises on the text of some response. *)
Local Abbreviation rejected e :=
  (exists req before html,
     requests_get req before = Ok html /\ BeautifulSoup html = Raise e).

(** Parsing a page in a fetch sends nothing; it raises only what the
    parser raises on markup it rejects. *)
Lemma on_clock_parse html group_url st :
  on_clock (parse_posts_from_html clock dateutil_parse BeautifulSoup
              _extract_comments_from_json html group_url) st
  = match BeautifulSoup html with
    | Ok soup =>
        (Ok (successful (article_divs soup) group_url (readings st)).1,
         mk_net (successful (article_divs soup) group_url (readings st)).2
           (sent st))
    | Raise e => (Raise e, mk_net (readings st) (sent st))
    end.
Proof.
  unfold on_clock, parse_posts_from_html.
  destruct (BeautifulSoup html) as [soup|e]; unfold bind at 1, lift;
    [|reflexivity].
  by rewrite parse_posts_appends.
Qed.

(** What the loop does from any turn on: it sends the requests of
    consecutive pages; it keeps the posts it holds; it raises only what the
    parser raises on the text of a response. *)
Lemma fetch_loop_spec (P : FacebookPost -> Prop) self group_url max_posts
    pagination_limit :
  (forall div k post k',
     _parse_single_post clock dateutil_parse _extract_comments_from_json
       div group_url k = (Ok post, k') -> P post) ->
  forall fuel page posts st,
  exists o j st',
    loop self group_url max_posts pagination_limit fuel page posts st = (o, st')
    /\ sent st' = sent st ++ pages_from self group_url page j
    /\ (j <= fuel)%nat
    /\ Z.of_nat j <= Z.max 0 (max_posts - Z.of_nat (List.length posts))
    /\ Z.of_nat j <= Z.max 0 (pagination_limit - page + 1)
    /\ match o with
       | Ok all => exists ps, all = posts ++ ps /\ (j = 0%nat -> ps = [])
                              /\ Forall P ps
       | Raise e => rejected e
       end.
Proof.
  intros HP fuel. induction fuel as [|fuel IH]; intros page posts st.
  { exists (Ok posts), 0%nat, st. simpl. rewrite !app_nil_r.
    repeat split; [lia | lia | lia |]. exists []. by rewrite app_nil_r. }
  cbn [fetch_loop].
  destruct (Z.ltb_spec (Z.of_nat (List.length posts)) max_posts) as [Hlen|Hlen];
    cbn [andb];
    [destruct (Z.leb_spec page pagination_limit) as [Hpage|Hpage]|];
    try (exists (Ok posts), 0%nat, st; simpl; rewrite !app_nil_r;
         repeat split; [lia | lia | lia |]; exists []; by rewrite app_nil_r).
  unfold fbind at 1, ftry, fbind at 1, fetch_group_page.
  destruct (requests_get (page_request self group_url page) (sent st))
    as [html|e] eqn:Hget; unfold fret at 1.
  2:{ unfold fret. eexists (Ok posts), 1%nat, _.
      split; [reflexivity|]. simpl. rewrite Z.add_0_r.
      repeat split; [lia | lia | lia |]. exists []. by rewrite app_nil_r. }
  unfold fbind at 1. rewrite on_clock_parse. cbn [readings sent].
  destruct (BeautifulSoup html) as [soup|e] eqn:Hsoup.
  2:{ eexists (Raise e), 1%nat, _.
      split; [reflexivity|]. simpl. rewrite Z.add_0_r.
      repeat split; [lia | lia | lia |]. eauto. }
  destruct (successful_posts_satisfy clock dateutil_parse
              _extract_comments_from_json P group_url HP
              (article_divs soup) (readings st)) as [Hall _].
  destruct (successful (article_divs soup) group_url (readings st))
    as [page_posts k1]. cbn [fst snd] in *.
  destruct page_posts as [|p page_posts].
  { unfold fret. eexists (Ok posts), 1%nat, _.
    split; [reflexivity|]. simpl. rewrite Z.add_0_r.
    repeat split; [lia | lia | lia |]. exists []. by rewrite app_nil_r. }
  destruct (Z.leb_spec max_posts
              (Z.of_nat (List.length (posts ++ p :: page_posts)))) as [Hfull|Hmore].
  { unfold fret. eexists (Ok _), 1%nat, _.
    split; [reflexivity|]. simpl. rewrite Z.add_0_r.
    repeat split; [lia | lia | lia |]. by exists (p :: page_posts). }
  destruct (IH (page + 1) (posts ++ p :: page_posts)
              (mk_net k1 (sent st ++ [page_request self group_url page])))
    as (o & j & st' & -> & Hsent & Hj & Hjm & Hjp & Ho).
  exists o, (S j), st'.
  split; [reflexivity|].
  split; [|split; [|split; [|split]]].
  - rewrite Hsent. cbn [sent]. rewrite pages_from_S, <- app_assoc. reflexivity.
  - lia.
  - rewrite length_app in Hjm, Hmore. simpl in Hjm, Hmore. lia.
  - lia.
  - destruct o as [all|e]; [|exact Ho].
    destruct Ho as (ps & -> & _ & Hps).
    exists ((p :: page_posts) ++ ps). split; [by rewrite app_assoc|].
    split; [done|]. by apply Forall_app.
Qed.

Lemma fbind_ext {A B} (c : F A) (f g : A -> F B) st :
  (forall a st', f a st' = g a st') -> fbind c f st = fbind c g st.
Proof. intros H. unfold fbind. by destruct (c st) as [[a|e] st']. Qed.

(** The bound on the turns is never what stops the loop: with more turns
    allowed than pages are left, the outcome is the same. *)
Lemma fetch_loop_fuel self group_url max_posts pagination_limit fuel :
  forall page posts st,
    (Z.to_nat (pagination_limit - page + 1) <= fuel)%nat ->
    loop self group_url max_posts pagination_limit fuel page posts st
    = loop self group_url max_posts pagination_limit
        (Z.to_nat (pagination_limit - page + 1)) page posts st.
Proof.
  induction fuel as [|fuel IH]; intros page posts st Hfuel.
  { by replace (Z.to_nat (pagination_limit - page + 1)) with 0%nat by lia. }
  destruct (Z.leb_spec page pagination_limit) as [Hpage|Hpage].
  - replace (Z.to_nat (pagination_limit - page + 1))
      with (S (Z.to_nat (pagination_limit - (page + 1) + 1))) in * by lia.
    cbn [fetch_loop].
    destruct ((Z.of_nat (List.length posts) <? max_posts)
              && (page <=? pagination_limit)); [|done].
    apply fbind_ext. intros [html|] st1; [|done].
    apply fbind_ext. intros [|p page_posts] st2; [done|].
    destruct (max_posts <=? _); [done|]. apply IH. lia.
  - replace (Z.to_nat (pagination_limit - page + 1)) with 0%nat by lia.
    cbn [fetch_loop].
    destruct (Z.leb_spec page pagination_limit); [lia|].
    by rewrite andb_false_r.
Qed.

(** A slice up to a bound that is not negative is no longer than the
    bound; up to a negative bound it drops that many items from the end. *)
Lemma slice_to_length {A} (n : Z) (l : list A) :
  0 <= n \/ l = [] ->
  Z.of_nat (List.length (slice_to n l)) <= Z.max 0 n.
Proof.
  unfold slice_to. intros [Hn | ->].
  - destruct (Z.leb_spec 0 n); [|lia]. rewrite length_take. lia.
  - destruct (0 <=? n); rewrite take_nil; simpl; lia.
Qed.

Lemma slice_to_sublist {A} (n : Z) (l : list A) : slice_to n l `prefix_of` l.
Proof. unfold slice_to. destruct (0 <=? n); apply prefix_take. Qed.

Lemma fetch_group_posts_spec (P : FacebookPost -> Prop) self group_url max_posts
    pagination_limit st :
  (forall div k post k',
     _parse_single_post clock dateutil_parse _extract_comments_from_json
       div group_url k = (Ok post, k') -> P post) ->
  exists o j st',
    fetch_group_posts clock dateutil_parse BeautifulSoup
      _extract_comments_from_json requests_get self group_url max_posts
      pagination_limit st = (o, st')
    /\ sent st' = sent st ++ pages_from self group_url 1 j
    /\ Z.of_nat j <= Z.max 0 (Z.min max_posts pagination_limit)
    /\ match o with
       | Ok ps => Z.of_nat (List.length ps) <= Z.max 0 max_posts /\ Forall P ps
       | Raise e => rejected e
       end.
Proof.
  intros HP. unfold fetch_group_posts, fbind.
  destruct (fetch_loop_spec P self group_url max_posts pagination_limit HP
              (Z.to_nat pagination_limit) 1 [] st)
    as (o & j & st' & -> & Hsent & _ & Hjm & Hjp & Ho).
  simpl in Hjm. destruct o as [all|e].
  - destruct Ho as (ps & -> & Hnil & Hps). unfold fret.
    exists (Ok (slice_to max_posts ps)), j, st'.
    split; [reflexivity|]. split; [exact Hsent|]. split; [lia|]. split.
    + apply slice_to_length. destruct (Z.le_gt_cases 0 max_posts); [by left|].
      right. apply Hnil. lia.
    + destruct (slice_to_sublist max_posts ps) as [rest Hrest].
      rewrite Hrest in Hps. by apply Forall_app in Hps as [? _].
  - exists (Raise e), j, st'. split; [reflexivity|]. split; [exact Hsent|].
    split; [lia | exact Ho].
Qed.

(** No failure of a request leaves [fetch_group_posts]: it raises only
    what the parser raises on the text of a response.  In every case it
    sends the requests of pages 1, 2, ..., [j] of the group and no other,
    with [j] at most [max_posts] and at most [pagination_limit] (none at
    all when either is 0 or less); when it returns, it returns at most
    [max_posts] posts. *)
Theorem fetch_group_posts_requests (self : FacebookGroupParser)
    (group_url : string) (max_posts pagination_limit : Z) (st : net) :
  exists o j st',
    fetch_group_posts clock dateutil_parse BeautifulSoup
      _extract_comments_from_json requests_get self group_url max_posts
      pagination_limit st = (o, st')
    /\ sent st' = sent st ++ pages_from self group_url 1 j
    /\ Z.of_nat j <= Z.max 0 (Z.min max_posts pagination_limit)
    /\ match o with
       | Ok ps => Z.of_nat (List.length ps) <= Z.max 0 max_posts
       | Raise e => rejected e
       end.
Proof.
  destruct (fetch_group_posts_spec (fun _ => True) self group_url max_posts
              pagination_limit st) as (o & j & st' & H1 & H2 & H3 & H4); [done|].
  exists o, j, st'. split; [exact H1|]. split; [exact H2|]. split; [exact H3|].
  destruct o as [ps|e]; [by destruct H4 | exact H4].
Qed.

Hypothesis clock_valid : forall j, 1000000 <= clock j <= DateTime.MAX_US.

(** Every post [fetch_group_posts] returns is well formed for the group
    it was asked for, on whichever page it was found; it returns unless the
    parser rejects the text of a response. *)
Theorem fetched_posts_well_formed (self : FacebookGroupParser)
    (group_url : string) (max_posts pagination_limit : Z) (st : net) :
  exists o st',
    fetch_group_posts clock dateutil_parse BeautifulSoup
      _extract_comments_from_json requests_get self group_url max_posts
      pagination_limit st = (o, st')
    /\ match o with
       | Ok ps => Forall (post_well_formed group_url) ps
       | Raise e => rejected e
       end.
Proof.
  destruct (fetch_group_posts_spec (post_well_formed group_url) self group_url
              max_posts pagination_limit st) as (o & j & st' & H1 & _ & _ & H4).
  - intros div k post k'.
    apply (single_post_well_formed clock dateutil_parse
             _extract_comments_from_json clock_valid).
  - exists o, st'. split; [exact H1|]. destruct o as [ps|e]; [by destruct H4 | exact H4].
Qed.

End FetchLoop.

Lemma fetched_posts_well_formed_witness :
  exists o st',
    fetch_group_posts example_clock example_dateutil
      (fun _ => Ok (Bs4.Tag "[document]" ∅
                      [Bs4.Tag "div" {[ "role" := "article" ]}
                         [Bs4.Tag "abbr" {[ "title" := "2 h" ]} []]]))
      (fun _ => ret [])
      (fun _ before => if (List.length before <? 2)%nat then Ok EmptyString
                       else Raise (OtherException "HTTPError"))
      (__init__ "c_user=1" None None 10)
      "https://www.facebook.com/groups/g" 5 3 (mk_net 0 [])
    = (o, st')
    /\ match o with
       | Ok ps => Forall (post_well_formed "https://www.facebook.com/groups/g") ps
       | Raise e =>
           exists (req : request) (before : list request) (html : string),
             (if (List.length before <? 2)%nat then Ok EmptyString
              else Raise (OtherException "HTTPError")) = Ok html
             /\ Ok (Bs4.Tag "[document]" ∅
                      [Bs4.Tag "div" {[ "role" := "article" ]}
                         [Bs4.Tag "abbr" {[ "title" := "2 h" ]} []]])
                = Raise e
       end.
Proof.
  apply (fetched_posts_well_formed example_clock example_dateutil
           (fun _ => Ok (Bs4.Tag "[document]" ∅
                           [Bs4.Tag "div" {[ "role" := "article" ]}
                              [Bs4.Tag "abbr" {[ "title" := "2 h" ]} []]]))
           (fun _ => ret [])
           (fun _ before => if (List.length before <? 2)%nat then Ok EmptyString
                            else Raise (OtherException "HTTPError"))).
  intros j. destruct (example_clock_valid j). lia.
Defined.

(** A crawl of that group: two pages answer with one post each, the
    third request fails; the two posts are returned and three requests
    were sent, the first at the group URL. *)
Example fetch_two_pages :
  exists p1 p2 st',
    fetch_group_posts example_clock example_dateutil
      (fun _ => Ok (Bs4.Tag "[document]" ∅
                      [Bs4.Tag "div" {[ "role" := "article" ]}
                         [Bs4.Tag "abbr" {[ "title" := "2 h" ]} []]]))
      (fun _ => ret [])
      (fun _ before => if (List.length before <? 2)%nat then Ok EmptyString
                       else Raise (OtherException "HTTPError"))
      (__init__ "c_user=1" None None 10)
      "https://www.facebook.com/groups/g" 5 3 (mk_net 0 [])
    = (Ok [p1; p2], st')
    /\ req_url <$> sent st'
       = ["https://www.facebook.com/groups/g";
          "https://www.facebook.com/groups/g?page=2";
          "https://www.facebook.com/groups/g?page=3"].
Proof. eexists _, _, _. split; vm_compute; reflexivity. Qed.

(** A page that the parser rejects: the exception leaves
    [fetch_group_posts], after the one request. *)
Example fetch_rejected_page :
  exists st',
    fetch_group_posts example_clock example_dateutil
      (fun _ => Raise (OtherException "ParserRejectedMarkup"))
      (fun _ => ret [])
      (fun _ _ => Ok "<![x]>")
      (__init__ "c_user=1" None None 10)
      "https://www.facebook.com/groups/g" 5 3 (mk_net 0 [])
    = (Raise (OtherException "ParserRejectedMarkup"), st')
    /\ req_url <$> sent st' = ["https://www.facebook.com/groups/g"].
Proof. eexists. split; vm_compute; reflexivity. Qed.

(** ** Properties of reading the URLs and of the run over the groups *)

Section InputUrls.

Lemma universal_newlines_lacks_cr b s :
  lacks "013" (universal_newlines b s) = true.
Proof.
  unfold lacks. revert b. induction s as [|c s IH]; intros b; [done|].
  cbn [universal_newlines].
  destruct (Ascii.eqb c "013") eqn:Hc; [simpl; apply IH|].
  destruct (Ascii.eqb c "010" && b); [apply IH|].
  simpl. by rewrite Hc, IH.
Qed.

Lemma lines_of_keep (Q : ascii -> bool) cur s :
  Str.forallb Q cur = true -> Str.forallb Q s = true ->
  Forall (fun line => Str.forallb Q line = true) (lines_of cur s).
Proof.
  revert cur. induction s as [|c s IH]; intros cur Hcur Hs.
  - simpl. destruct cur; by repeat constructor.
  - simpl in Hs. apply andb_prop in Hs as [Hc Hs]. cbn [lines_of].
    assert (Str.forallb Q (cur +:+ String c EmptyString) = true) as Hnew.
    { apply forallb_append; [done|]. simpl. by rewrite Hc. }
    destruct (Ascii.eqb c "010"); [constructor; [done|]|]; by apply IH.
Qed.

Lemma rstrip_space_end s c :
  Str.is_space c = true ->
  Str.rstrip_by Str.is_space (s +:+ String c EmptyString)
  = Str.rstrip_by Str.is_space s.
Proof.
  intros Hc. induction s as [|d s IH]; simpl; [by rewrite Hc|]. by rewrite IH.
Qed.

Lemma lstrip_space_end s c :
  Str.is_space c = true ->
  Str.lstrip_by Str.is_space (s +:+ String c EmptyString)
  = if Str.forallb Str.is_space s then EmptyString
    else Str.lstrip_by Str.is_space s +:+ String c EmptyString.
Proof.
  intros Hc. induction s as [|d s IH]; simpl; [by rewrite Hc|].
  destruct (Str.is_space d); [exact IH | reflexivity].
Qed.

Lemma lstrip_spaces s :
  Str.forallb Str.is_space s = true -> Str.lstrip_by Str.is_space s = EmptyString.
Proof.
  induction s as [|d s IH]; simpl; [done|].
  destruct (Str.is_space d); [exact IH | done].
Qed.

(** White space at the end of a line, such as its line feed, does not
    change what [strip] gives. *)
Lemma strip_space_end s c :
  Str.is_space c = true -> Str.strip (s +:+ String c EmptyString) = Str.strip s.
Proof.
  intros Hc. unfold Str.strip. rewrite (lstrip_space_end _ _ Hc).
  destruct (Str.forallb Str.is_space s) eqn:Hs.
  - by rewrite lstrip_spaces.
  - by apply rstrip_space_end.
Qed.

Lemma lines_of_bodies cur s :
  lacks "010" cur = true ->
  Forall (fun line => exists body,
            lacks "010" body = true /\ Str.strip line = Str.strip body)
    (lines_of cur s).
Proof.
  revert cur. induction s as [|c s IH]; intros cur Hcur.
  - simpl. destruct cur; [constructor|]. repeat constructor. by eexists.
  - cbn [lines_of]. destruct (Ascii.eqb_spec c "010") as [->|Hc].
    + constructor; [|by apply IH].
      exists cur. split; [done|]. by apply strip_space_end.
    + apply IH. apply forallb_append; [done|]. simpl.
      by destruct (Ascii.eqb_spec c "010").
Qed.

(** [load_input_urls] returns only when the file exists and could be
    read, and every URL it returns is then a line of the file without the
    white space at its ends: it is not empty, has no white space at either
    end and holds no line feed and no carriage return; blank lines give no
    URL.  It raises [FileNotFoundError] when the file does not exist, and
    otherwise what opening, reading or decoding the file raises. *)
Theorem input_urls_clean (input_file : option (outcome string)) :
  match load_input_urls input_file with
  | Ok urls =>
      (exists content, input_file = Some (Ok content))
      /\ Forall (fun u => tight u /\ lacks "010" u = true /\ lacks "013" u = true)
           urls
  | Raise e =>
      (input_file = None /\ e = OtherException "FileNotFoundError")
      \/ input_file = Some (Raise e)
  end.
Proof.
  destruct input_file as [[content|e]|]; simpl; [|by right|by left].
  split; [by eexists|].
  apply Forall_forall. intros u (line & -> & [Hne Hin]%list_elem_of_filter)%list_elem_of_fmap.
  split; [|split].
  - apply strip_tight. intros Heq. rewrite Heq in Hne. by simpl in Hne.
  - pose proof (lines_of_bodies EmptyString (universal_newlines false content)
                  eq_refl) as Hb.
    rewrite Forall_forall in Hb. destruct (Hb _ Hin) as (body & Hbody & ->).
    by apply forallb_strip.
  - apply forallb_strip.
    pose proof (lines_of_keep (fun d => negb (Ascii.eqb d "013")) EmptyString
                  (universal_newlines false content) eq_refl
                  (universal_newlines_lacks_cr false content)) as Hk.
    rewrite Forall_forall in Hk. by apply Hk.
Qed.

End InputUrls.

(** A file with Windows and Unix line ends, a blank line, and a last line
    without line end. *)
Example input_urls_sample :
  load_input_urls
    (Some (Ok ("  https://www.facebook.com/groups/a " +:+ String "013" (String "010"
               ("   " +:+ String "010"
               ("https://www.facebook.com/groups/b" +:+ String "013"
                "https://www.facebook.com/groups/c"))))))
  = Ok ["https://www.facebook.com/groups/a";
        "https://www.facebook.com/groups/b";
        "https://www.facebook.com/groups/c"].
Proof. vm_compute. reflexivity. Qed.

Section Run.

Variable clock : nat -> Z.
Variable dateutil_parse : Z -> string -> outcome DateTime.datetime.
Variable BeautifulSoup : string -> outcome Bs4.node.
Variable _extract_comments_from_json : Bs4.node -> M (list Comment).
Variable requests_get : request -> list request -> outcome string.

Local Abbreviation run :=
  (scrape_groups clock dateutil_parse BeautifulSoup _extract_comments_from_json
     requests_get).

Lemma scrape_groups_spec (P : string -> FacebookPost -> Prop) parser max_posts
    pagination_limit :
  (forall url div k post k',
     _parse_single_post clock dateutil_parse _extract_comments_from_json
       div url k = (Ok post, k') -> P url post) ->
  forall urls all_posts st,
  exists new reqs st',
    run parser max_posts pagination_limit urls all_posts st
    = (Ok (all_posts ++ new), st')
    /\ sent st' = sent st ++ reqs
    /\ Z.of_nat (List.length reqs)
       <= Z.of_nat (List.length urls) * Z.max 0 (Z.min max_posts pagination_limit)
    /\ Z.of_nat (List.length new)
       <= Z.of_nat (List.length urls) * Z.max 0 max_posts
    /\ Forall (fun r => exists url page,
                 url ∈ urls /\ r = page_request parser url page
                 /\ 1 <= page <= pagination_limit) reqs
    /\ Forall (fun post => exists url, url ∈ urls /\ P url post) new.
Proof.
  intros HP urls. induction urls as [|url urls IH]; intros all_posts st.
  { exists [], [], st. simpl. rewrite !app_nil_r.
    repeat split; [lia | lia | constructor | constructor]. }
  cbn [scrape_groups]. unfold fbind at 1, ftry, fbind at 1.
  destruct (fetch_group_posts_spec clock dateutil_parse BeautifulSoup
              _extract_comments_from_json requests_get (P url) parser url
              max_posts pagination_limit st (HP url))
    as (o & j & st1 & -> & Hsent1 & Hj & Ho).
  assert (Hpages :
            Forall (fun r => exists u page,
                      u ∈ url :: urls /\ r = page_request parser u page
                      /\ 1 <= page <= pagination_limit)
              ((fun i : nat => page_request parser url (1 + Z.of_nat i))
                 <$> seq 0 j)).
  { apply Forall_forall. intros r (i & -> & Hi%elem_of_seq)%list_elem_of_fmap.
    exists url, (1 + Z.of_nat i). split; [left|]. split; [reflexivity|]. lia. }
  assert (Hrest : forall reqs,
            Forall (fun r => exists u page,
                      u ∈ urls /\ r = page_request parser u page
                      /\ 1 <= page <= pagination_limit) reqs ->
            Forall (fun r => exists u page,
                      u ∈ url :: urls /\ r = page_request parser u page
                      /\ 1 <= page <= pagination_limit) reqs).
  { intros reqs Hfrom. eapply Forall_impl; [exact Hfrom|].
    intros r (u & page & Hu & Hr & Hpage). exists u, page. split; [by right|done]. }
  assert (Hposts : forall new,
            Forall (fun post => exists u, u ∈ urls /\ P u post) new ->
            Forall (fun post => exists u, u ∈ url :: urls /\ P u post) new).
  { intros new Hall. eapply Forall_impl; [exact Hall|].
    intros post (u & Hu & Hpost). exists u. split; [by right | done]. }
  destruct o as [ps|e]; unfold fret at 1.
  - destruct Ho as [Hlen Hps].
    destruct (IH (all_posts ++ ps) st1)
      as (new & reqs & st' & -> & Hsent & Hreqs & Hnew & Hfrom & Hall).
    eexists (ps ++ new), _, st'.
    split; [by rewrite app_assoc|].
    split; [by rewrite Hsent, Hsent1, <- app_assoc|].
    rewrite !length_app, length_fmap, length_seq.
    cbn [List.length]. rewrite !Nat2Z.inj_add, Nat2Z.inj_succ, !Z.mul_succ_l.
    split; [lia|]. split; [lia|]. split.
    + apply Forall_app. split; [exact Hpages | by apply Hrest].
    + apply Forall_app. split; [|by apply Hposts].
      eapply Forall_impl; [exact Hps|]. intros post Hpost. exists url.
      split; [left | done].
  - destruct (IH all_posts st1)
      as (new & reqs & st' & -> & Hsent & Hreqs & Hnew & Hfrom & Hall).
    eexists new, _, st'.
    split; [reflexivity|].
    split; [by rewrite Hsent, Hsent1, <- app_assoc|].
    rewrite !length_app, length_fmap, length_seq.
    cbn [List.length]. rewrite !Nat2Z.inj_add, Nat2Z.inj_succ, !Z.mul_succ_l.
    split; [lia|]. split; [lia|]. split.
    + apply Forall_app. split; [exact Hpages | by apply Hrest].
    + by apply Hposts.
Qed.

(** The run over the groups never raises.  It sends requests only for
    pages of the listed groups, numbered from 1 to [pagination_limit], at
    most min([max_posts], [pagination_limit]) for each group, and it adds
    at most [max_posts] posts for each group to those it holds. *)
Theorem scrape_groups_bounded (parser : FacebookGroupParser)
    (max_posts pagination_limit : Z) (urls : list string)
    (all_posts : list FacebookPost) (st : net) :
  exists new reqs st',
    run parser max_posts pagination_limit urls all_posts st
    = (Ok (all_posts ++ new), st')
    /\ sent st' = sent st ++ reqs
    /\ Z.of_nat (List.length reqs)
       <= Z.of_nat (List.length urls) * Z.max 0 (Z.min max_posts pagination_limit)
    /\ Z.of_nat (List.length new)
       <= Z.of_nat (List.length urls) * Z.max 0 max_posts
    /\ Forall (fun r => exists url page,
                 url ∈ urls /\ r = page_request parser url page
                 /\ 1 <= page <= pagination_limit) reqs.
Proof.
  destruct (scrape_groups_spec (fun _ _ => True) parser max_posts
              pagination_limit) with (urls := urls) (all_posts := all_posts)
              (st := st) as (new & reqs & st' & H1 & H2 & H3 & H4 & H5 & _);
    [done|].
  by exists new, reqs, st'.
Qed.

Hypothesis clock_valid : forall j, 1000000 <= clock j <= DateTime.MAX_US.

(** Every post the run adds is well formed for one of the listed
    groups. *)
Theorem scraped_posts_well_formed (parser : FacebookGroupParser)
    (max_posts pagination_limit : Z) (urls : list string)
    (all_posts : list FacebookPost) (st : net) :
  exists new st',
    run parser max_posts pagination_limit urls all_posts st
    = (Ok (all_posts ++ new), st')
    /\ Forall (fun post => exists url, url ∈ urls /\ post_well_formed url post)
         new.
Proof.
  destruct (scrape_groups_spec post_well_formed parser max_posts
              pagination_limit) with (urls := urls) (all_posts := all_posts)
              (st := st) as (new & reqs & st' & H1 & _ & _ & _ & _ & H6).
  - intros url div k post k'.
    apply (single_post_well_formed clock dateutil_parse
             _extract_comments_from_json clock_valid).
  - by exists new, st'.
Qed.

End Run.

Lemma scraped_posts_well_formed_witness :
  exists new st',
    scrape_groups example_clock example_dateutil
      (fun _ => Ok (Bs4.Tag "[document]" ∅
                      [Bs4.Tag "div" {[ "role" := "article" ]}
                         [Bs4.Tag "abbr" {[ "title" := "2 h" ]} []]]))
      (fun _ => ret [])
      (fun _ before => if (List.length before <? 3)%nat then Ok EmptyString
                       else Raise (OtherException "HTTPError"))
      (__init__ "c_user=1" None None 10) 2 3
      ["https://www.facebook.com/groups/a"; "https://www.facebook.com/groups/b"]
      [] (mk_net 0 [])
    = (Ok ([] ++ new), st')
    /\ Forall (fun post =>
                 exists url,
                   url ∈ ["https://www.facebook.com/groups/a";
                          "https://www.facebook.com/groups/b"]
                   /\ post_well_formed url post) new.
Proof.
  apply (scraped_posts_well_formed example_clock example_dateutil
           (fun _ => Ok (Bs4.Tag "[document]" ∅
                           [Bs4.Tag "div" {[ "role" := "article" ]}
                              [Bs4.Tag "abbr" {[ "title" := "2 h" ]} []]]))
           (fun _ => ret [])
           (fun _ before => if (List.length before <? 3)%nat then Ok EmptyString
                            else Raise (OtherException "HTTPError"))).
  intros j. destruct (example_clock_valid j). lia.
Defined.
